(** * imageapicl: the SVG image service of server.js

    A shallow embedding of the two deployments that server.js holds:

    - the inline variant (memory storage, the SVG text kept in the [content]
      column of the table [images]);
    - the filesystem variant (disk storage under [uploads/], the table only
      holds metadata).

    Handlers are functions from the state they read (the table, the uploads
    directory, the disk around it) to the state they leave and the response
    they send.  What
    the handlers get from outside is passed in: the clock ([NOW()]), and for
    every [pool.query] whether it is answered or rejects ([fault]).

    Express, multer, the database driver and Node's buffers are not part of
    server.js.  Of them the model holds what the handlers rely on: the
    order in which [upload.single] filters, measures and stores a part, the
    statements' effect on a table with a UNIQUE column, and the UTF-8
    decoding and encoding of strings, the joining of paths.  A response
    carries the status, the headers and the body the handler sets;
    [sent_content_type] is the Content-Type Express makes of them. *)

From Stdlib Require Import NArith List Ascii String Lia Permutation Sorted.
From stdpp Require Import base option list strings gmap sorting pretty.

Local Open Scope N_scope.

(** ** JavaScript strings *)

(** Names, MIME types and messages are [string]s.  The payload of an upload
    is a byte buffer; bytes are the numbers 0..255. *)
Definition byte := N.
Definition buffer := list byte.
Definition byteLength (b : buffer) : N := N.of_nat (length b).

(** The text of an image is a JavaScript string: the sequence of its code
    points. *)
Definition text := list N.

(** The code points of a literal of the source (ASCII only). *)
Definition code_points (s : string) : text :=
  map N_of_ascii (list_ascii_of_string s).

(** [c.toLowerCase()] on the letters A-Z.  No other character lowers to one
    of the characters of ['.svg'], the only place the source lowers a name. *)
Definition lower_ascii (c : ascii) : ascii :=
  let n := N_of_ascii c in
  if (65 <=? n) && (n <=? 90) then ascii_of_N (n + 32) else c.

Fixpoint toLowerCase (s : string) : string :=
  match s with
  | EmptyString => EmptyString
  | String c s' => String (lower_ascii c) (toLowerCase s')
  end.

(** [s.endsWith(suffix)] *)
Definition endsWith (s suffix : string) : bool :=
  let n := String.length s in
  let k := String.length suffix in
  (k <=? n)%nat && String.eqb (String.substring (n - k) k s) suffix.

(** [s.includes(needle)] on texts *)
Fixpoint startsWith (needle s : text) : bool :=
  match needle, s with
  | [], _ => true
  | _ :: _, [] => false
  | n :: needle', c :: s' => (n =? c) && startsWith needle' s'
  end.

Fixpoint includes (s needle : text) : bool :=
  startsWith needle s
  || match s with
     | [] => false
     | _ :: s' => includes s' needle
     end.

(** ** JavaScript numbers *)

(** A number is a double.  Of a natural number the double keeps 53
    significant bits, rounded to the nearest with ties to even; below 2^53
    that is the number itself.  (A BIGINT and a file's size are far below
    the largest double.) *)
Definition to_double (n : N) : N :=
  let bits := N.size n in
  if bits <=? 53 then n
  else
    let e := bits - 53 in
    let q := N.shiftr n e in
    let r := N.land n (N.ones e) in
    let half := N.shiftl 1 (e - 1) in
    let q' := if (half <? r) || ((r =? half) && N.odd q) then q + 1 else q in
    N.shiftl q' e.

(** ** UTF-8 *)

(** [buffer.toString('utf8')] decodes as the Encoding Standard's UTF-8
    decoder does: an ill-formed sequence gives U+FFFD and the byte that
    broke it is read again as the start of the next one. *)
Record decoder := Decoder {
  code_point : N;   (* the bits read so far *)
  bytes_needed : N; (* continuation bytes still expected *)
  lower : N;        (* the range the next byte has to be in *)
  upper : N
}.

Definition replacement : N := 0xFFFD.

(** First byte of a sequence: [Some (inl c)] is a finished code point,
    [Some (inr d)] a sequence begun, [None] a byte that starts nothing. *)
Definition utf8_lead (b : byte) : option (N + decoder) :=
  if b <=? 0x7F then Some (inl b)
  else if (0xC2 <=? b) && (b <=? 0xDF) then
    Some (inr (Decoder (b - 0xC0) 1 0x80 0xBF))
  else if (0xE0 <=? b) && (b <=? 0xEF) then
    Some (inr (Decoder (b - 0xE0) 2
                 (if b =? 0xE0 then 0xA0 else 0x80)
                 (if b =? 0xED then 0x9F else 0xBF)))
  else if (0xF0 <=? b) && (b <=? 0xF4) then
    Some (inr (Decoder (b - 0xF0) 3
                 (if b =? 0xF0 then 0x90 else 0x80)
                 (if b =? 0xF4 then 0x8F else 0xBF)))
  else None.

Fixpoint utf8_decode (pending : option decoder) (bs : buffer) : text :=
  match bs with
  | [] =>
      match pending with
      | None => []
      | Some _ => [replacement]
      end
  | b :: bs' =>
      let first :=
        match utf8_lead b with
        | Some (inl c) => c :: utf8_decode None bs'
        | Some (inr d) => utf8_decode (Some d) bs'
        | None => replacement :: utf8_decode None bs'
        end in
      match pending with
      | None => first
      | Some d =>
          if (lower d <=? b) && (b <=? upper d) then
            let c := code_point d * 64 + (b - 0x80) in
            if bytes_needed d =? 1 then c :: utf8_decode None bs'
            else utf8_decode (Some (Decoder c (bytes_needed d - 1) 0x80 0xBF)) bs'
          else replacement :: first
      end
  end.

Definition toString_utf8 (b : buffer) : text := utf8_decode None b.

(** A string written to the response, or handed to the database driver,
    goes out as UTF-8; a lone surrogate goes out as U+FFFD. *)
Definition is_surrogate (c : N) : bool := (0xD800 <=? c) && (c <=? 0xDFFF).

Definition utf8_encode_cp (c : N) : buffer :=
  let c := if is_surrogate c then replacement else c in
  if c <? 0x80 then [c]
  else if c <? 0x800 then [0xC0 + c / 64; 0x80 + c mod 64]
  else if c <? 0x10000 then
    [0xE0 + c / 4096; 0x80 + (c / 64) mod 64; 0x80 + c mod 64]
  else
    [0xF0 + c / 262144; 0x80 + (c / 4096) mod 64;
     0x80 + (c / 64) mod 64; 0x80 + c mod 64].

Definition utf8_encode (s : text) : buffer := flat_map utf8_encode_cp s.

(** A Unicode scalar value: what a character of a text file is. *)
Definition scalar_value (c : N) : Prop :=
  c < 0x110000 /\ ~ (0xD800 <= c <= 0xDFFF).

(** ** Requests and responses *)

Set Warnings "-register-all".

(** The timestamps [NOW()] gives and the files' birth times. *)
Definition time := N.

(** What [res.json] is given. *)
Inductive json :=
  | JNull
  | JBool (b : bool)
  | JNum (n : N)
  | JStr (s : string)
  | JDate (t : time)
  | JArr (items : list json)
  | JObj (fields : list (string * json)).

Inductive body :=
  | Json (j : json)   (* res.json(j) *)
  | Send (s : text).  (* res.send(s) *)

Record response := Response {
  status : N;
  headers : list (string * string); (* the res.setHeader calls, in order *)
  payload : body
}.

(** [res.json(j)] and [res.status(code).json(j)] *)
Definition res_json (j : json) : response := Response 200 [] (Json j).
Definition res_status_json (code : N) (j : json) : response :=
  Response code [] (Json j).

Definition getHeader (name : string) (r : response) : option string :=
  snd <$> List.find (fun h => String.eqb (fst h) name) (headers r).

(** The bytes of a body that was sent as a string. *)
Definition wire (r : response) : option buffer :=
  match payload r with
  | Send s => Some (utf8_encode s)
  | Json _ => None
  end.

(** The Content-Type that goes out.  [res.json] sends application/json
    with the charset; [res.send] of a string adds the charset to the type
    the handler set (written here for a type without parameters, as the
    types of this service are) and falls back on text/html. *)
Definition sent_content_type (r : response) : string :=
  match payload r with
  | Json _ => "application/json; charset=utf-8"
  | Send _ => default "text/html" (getHeader "Content-Type" r) +:+ "; charset=utf-8"
  end.

(** Of the request the handlers read [req.protocol], [req.get('host')],
    the route parameter and, for an upload, the file part of the multipart
    body. *)
Record request := Request {
  protocol : string;
  host : string
}.

(** A file part as multer hands it to the file filter: [file.originalname]
    is the base name of the client's file name, and is not empty (a part
    without a file name is no file to multer). *)
Record part := Part {
  part_name : string;     (* file.originalname *)
  part_mimetype : string; (* the client's Content-Type of the part *)
  part_data : buffer
}.

(** The errors that go to the error handling middleware. *)
Inductive error :=
  | MulterError (code : string) (message : string)
  | Error (message : string).

Definition error_message (e : error) : string :=
  match e with
  | MulterError _ m => m
  | Error m => m
  end.

(** A rejected [pool.query]: the message of the error it throws.  [None]
    is a query that is answered. *)
Definition fault := option string.

Definition svg_mime : string := "image/svg+xml".

(** [`${req.protocol}://${req.get('host')}/images/${name}`] *)
Definition imageUrl (req : request) (name : string) : string :=
  protocol req +:+ "://" +:+ host req +:+ "/images/" +:+ name.

(** [x || y] on strings that may be null: the empty string is falsy. *)
Definition or_string (x : option string) (y : string) : string :=
  match x with
  | Some s => if String.eqb s "" then y else s
  | None => y
  end.

(** ** The upload pipeline shared by both variants *)

(** [fileFilter]: [inr true] is [cb(null, true)], [inl e] is [cb(e, false)]. *)
Definition fileFilter (p : part) : error + bool :=
  if String.eqb (part_mimetype p) svg_mime
     || endsWith (toLowerCase (part_name p)) ".svg"
  then inr true
  else inl (Error "Only SVG files are allowed!").

(** [limits.fileSize]: the largest size a file may have, in bytes. *)
Definition fileSize : N := 5 * 1024 * 1024.

(** The error handling middleware. *)
Definition error_middleware (e : error) : response :=
  let generic :=
    res_status_json 500
      (JObj [("success", JBool false);
             ("message", JStr (or_string (Some (error_message e))
                                 "Something went wrong!"))]) in
  match e with
  | MulterError code _ =>
      if String.eqb code "LIMIT_FILE_SIZE" then
        res_status_json 400
          (JObj [("success", JBool false);
                 ("message", JStr "File too large. Maximum size is 5MB.")])
      else generic
  | Error _ => generic
  end.

(** What [upload.single('image')] hands on for a body with at most one
    file part, which is in the field [image]: an error for the error
    handling middleware, or [req.file] for the route's handler.  multer asks
    the file filter when the part begins and counts the bytes while the
    storage engine takes them; past [limits.fileSize] it gives up with
    [LIMIT_FILE_SIZE] (a file of exactly [limits.fileSize] bytes passes, as
    multer counts since 2.3.0).  Bodies with more file parts, or with files
    in other fields, are [multer_single] below. *)
Inductive filtered :=
  | Rejected (e : error)
  | Skipped
  | TooLarge (p : part)
  | Accepted (p : part).

Definition multer_filter (upload : option part) : filtered :=
  match upload with
  | None => Skipped
  | Some p =>
      match fileFilter p with
      | inl e => Rejected e
      | inr false => Skipped
      | inr true =>
          if fileSize <? byteLength (part_data p) then TooLarge p
          else Accepted p
      end
  end.

Definition limit_file_size : error :=
  MulterError "LIMIT_FILE_SIZE" "File too large".

(** [upload.single('image')] on the file parts of a multipart body, each
    with the name of its field, in the order they arrive (a body that is
    not multipart has none).  A part without a file
    name is passed over.  A file in another field, or a second file, is
    answered with [LIMIT_UNEXPECTED_FILE]; multer then removes what the
    storage had taken ([stored]).  Otherwise the one file in [image] decides
    as [multer_filter] says. *)
Inductive singled :=
  | Single (upload : option part)
  | Unexpected (stored : option part).

Definition limit_unexpected_file : error :=
  MulterError "LIMIT_UNEXPECTED_FILE" "Unexpected field".

Definition has_filename (f : string * part) : bool :=
  negb (String.eqb (part_name (snd f)) "").

Definition multer_single (files : list (string * part)) : singled :=
  match List.filter has_filename files with
  | [] => Single None
  | (fieldname, p) :: more =>
      if negb (String.eqb fieldname "image") then Unexpected None
      else
        match multer_filter (Some p), more with
        | Accepted _, _ :: _ => Unexpected (Some p)
        | Skipped, _ :: _ => Unexpected None
        | _, _ => Single (Some p)
        end
  end.

(** ** Statements on a table with a UNIQUE column *)

Section Unique.
Context {R : Type} (key : R -> string).

(** WHERE key = name *)
Definition named (name : string) (r : R) : bool := String.eqb (key r) name.

Definition select_where (name : string) (l : list R) : list R :=
  List.filter (named name) l.

Definition delete_where (name : string) (l : list R) : list R :=
  List.filter (fun r => negb (named name r)) l.

(** INSERT ... ON CONFLICT (key) DO UPDATE SET ...: the row under the key
    is updated where it stands, a new one is added otherwise. *)
Definition on_conflict_update (name : string) (update : R -> R) (fresh : R)
    (l : list R) : list R :=
  if existsb (named name) l
  then map (fun r => if named name r then update r else r) l
  else l ++ [fresh].

Definition unique (l : list R) : Prop := NoDup (key <$> l).

End Unique.

(** * The filesystem variant *)

Module Filesystem.

(** [req.file] as the disk storage fills it in. *)
Record file := File {
  originalname : string;
  mimetype : string;
  file_size : N;     (* req.file.size *)
  filename : string  (* req.file.filename *)
}.

(** A row of [images]: id SERIAL PRIMARY KEY, filename TEXT UNIQUE NOT
    NULL, original_name TEXT, size BIGINT, uploaded_at TIMESTAMPTZ DEFAULT
    NOW().  A nullable column is an [option]. *)
Record row := Row {
  id : N;
  row_filename : string;
  original_name : option string;
  row_size : option N;
  uploaded_at : option time
}.

(** The table with the next value of the sequence behind [id]. *)
Record table := Table {
  rows : list row;
  serial : N
}.

(** A file under [uploads/]: its content and what [fs.statSync] tells. *)
Record stats := Stats {
  data : buffer;
  birthtime : time
}.

Definition stat_size (s : stats) : N := to_double (byteLength (data s)).

(** What else the disk holds, as [fs.statSync] and [fs.unlinkSync] find
    it.  [fs.unlinkSync] throws for a directory, and for a file the service
    may not remove. *)
Record entry := Entry {
  is_directory : bool;
  entry_size : N;               (* stats.size *)
  entry_birthtime : time;       (* stats.birthtime *)
  unlink_error : option string  (* the message of what unlinkSync throws *)
}.

(** The table and the disk.  [uploads] holds what is in [uploads/], files
    under their base names, which is how multer stores them (the service
    runs in its own directory: multer's 'uploads/' is [uploadsDir]);
    [dirname] is [__dirname], the segments of its absolute path; [beside]
    holds what the disk has at every other absolute path, the directory
    [uploads/] itself included. *)
Record state := State {
  db : table;
  uploads : gmap string stats;
  dirname : list string;
  beside : gmap (list string) entry
}.

(** [const uploadsDir = path.join(__dirname, 'uploads')] *)
Definition uploadsDir (s : state) : list string := dirname s ++ ["uploads"].

(** After [initDb] on a fresh database and the creation of [uploads/], for
    a service installed in [dir] on a disk that holds [disk]. *)
Definition boot_in (dir : list string) (disk : gmap (list string) entry)
    : state :=
  State (Table [] 1) ∅ dir disk.

(** A directory, which [fs.unlinkSync] refuses to remove. *)
Definition a_directory : entry :=
  Entry true 4096 0 (Some "EISDIR: illegal operation on a directory, unlink").

(** An installation: /app holds server.js and uploads/.  What requests
    with base names leave in the table and in [uploads/] does not depend on
    the installation ([fs_run_in_same] below). *)
Definition boot : state :=
  boot_in ["app"]
    (<[ ["app"; "uploads"] := a_directory ]>
       (<[ ["app"; "server.js"] := Entry false 20480 0 None ]>
          (<[ ["app"] := a_directory ]> {[ [] := a_directory ]}))).

(** ** Paths *)

(** [path.join(dir, name)] on POSIX, for an absolute normalized [dir]: the
    segments between the slashes of [name] are walked from [dir]; an empty
    segment and [.] stay where they are, [..] climbs, and not above the
    root. *)
Fixpoint split_slash (current name : string) : list string :=
  match name with
  | EmptyString => [current]
  | String c rest =>
      if Ascii.eqb c "/" then current :: split_slash "" rest
      else split_slash (current +:+ String c "") rest
  end.

Fixpoint walk (here : list string) (segments : list string) : list string :=
  match segments with
  | [] => here
  | segment :: rest =>
      if String.eqb segment "" || String.eqb segment "." then walk here rest
      else if String.eqb segment ".." then walk (removelast here) rest
      else walk (here ++ [segment]) rest
  end.

Definition path_join (dir : list string) (name : string) : list string :=
  walk dir (split_slash "" name).

(** [path] lies under [dir]: the segments from [dir] on. *)
Fixpoint under (dir path : list string) : option (list string) :=
  match dir, path with
  | [], rest => Some rest
  | d :: dir', p :: path' => if String.eqb d p then under dir' path' else None
  | _ :: _, [] => None
  end.

(** A name with a NUL is no path: [fs.existsSync] answers false. *)
Definition has_nul (name : string) : bool :=
  existsb (Ascii.eqb "000") (list_ascii_of_string name).

(** What [path.join(uploadsDir, name)] names, if it exists: a file of
    [uploads/] or something else on the disk. *)
Inductive place :=
  | Kept (base : string) (st : stats)
  | Other (path : list string) (e : entry).

(** [filePath = path.join(uploadsDir, name)], if [fs.existsSync(filePath)].
    The joined path may come out at a file of [uploads/] or anywhere else
    on the disk.  It keeps a slash that [name] ends in, and with it only a
    directory is found. *)
Definition locate (s : state) (name : string) : option place :=
  if has_nul name then None
  else
    let path := path_join (uploadsDir s) name in
    let as_directory := endsWith name "/" in
    match under (uploadsDir s) path with
    | Some [base] =>
        if as_directory then None else Kept base <$> uploads s !! base
    | _ =>
        match beside s !! path with
        | Some e =>
            if as_directory && negb (is_directory e) then None
            else Some (Other path e)
        | None => None
        end
    end.

(** [uploads] is keyed by the names multer stored the files under.  Those
    are base names, and the joined path of a base name is the file of that
    name: a key of [uploads] is looked up as it is, and [locate] walks what
    is no key.  Where all keys are base names that is [locate]
    ([existing_locate] below). *)
Definition existing (s : state) (name : string) : option place :=
  match uploads s !! name with
  | Some st => Some (Kept name st)
  | None => locate s name
  end.

(** [fs.statSync(filePath)]: size and birth time. *)
Definition statSync (f : place) : N * time :=
  match f with
  | Kept _ st => (stat_size st, birthtime st)
  | Other _ e => (entry_size e, entry_birthtime e)
  end.

(** [fs.unlinkSync(filePath)]: the disk without the file, or the message
    of the error thrown. *)
Definition unlinkSync (f : place) (s : state) : string + state :=
  match f with
  | Kept base _ =>
      inr (State (db s) (delete base (uploads s)) (dirname s) (beside s))
  | Other path e =>
      match unlink_error e with
      | Some message => inl message
      | None =>
          inr (State (db s) (uploads s) (dirname s) (delete path (beside s)))
      end
  end.

(** INSERT INTO images (filename, original_name, size) VALUES ($1,$2,$3)
    ON CONFLICT (filename) DO UPDATE SET original_name =
    EXCLUDED.original_name, size = EXCLUDED.size.
    The sequence moves on whether the row is inserted or updated. *)
Definition do_update (original : string) (sz : N) (r : row) : row :=
  Row (id r) (row_filename r) (Some original) (Some sz) (uploaded_at r).

Definition upsert (now : time) (name original : string) (sz : N)
    (t : table) : table :=
  Table
    (on_conflict_update row_filename name (do_update original sz)
       (Row (serial t) name (Some original) (Some sz) (Some now))
       (rows t))
    (serial t + 1).

(** DELETE FROM images WHERE filename=$1 *)
Definition delete_row (name : string) (t : table) : table :=
  Table (delete_where row_filename name (rows t)) (serial t).

(** The disk storage: [fs.createWriteStream('uploads/' + originalname)]
    and the part piped into it.  Writing over a file keeps its birth
    time. *)
Definition diskStorage (now : time) (p : part) (dir : gmap string stats)
    : gmap string stats :=
  let born :=
    match dir !! part_name p with
    | Some old => birthtime old
    | None => now
    end in
  <[part_name p := Stats (part_data p) born]> dir.

Definition stored (p : part) : file :=
  File (part_name p) (part_mimetype p) (byteLength (part_data p))
    (part_name p).

(** The route's handler of POST /upload. *)
Definition upload_handler (req : request) (now : time) (q : fault)
    (f : option file) (t : table) : table * response :=
  match f with
  | None =>
      (t, res_status_json 400
            (JObj [("success", JBool false);
                   ("message", JStr "No file uploaded or invalid file type")]))
  | Some f =>
      let imageUrl := imageUrl req (filename f) in
      let t' :=
        match q with
        | None => upsert now (filename f) (originalname f) (file_size f) t
        | Some _ => t (* console.error('DB insert error:', ...) *)
        end in
      (t', res_json
             (JObj [("success", JBool true);
                    ("message", JStr "SVG image uploaded successfully");
                    ("data",
                     JObj [("filename", JStr (filename f));
                           ("originalName", JStr (originalname f));
                           ("size", JNum (file_size f));
                           ("url", JStr imageUrl);
                           ("directUrl", JStr imageUrl)])]))
  end.

(** POST /upload: [upload.single('image')], then the handler or the error
    handling middleware.  A part that grew past the limit was being
    written to its path; multer removes what it wrote. *)
Definition post_upload (req : request) (now : time) (q : fault)
    (upload : option part) (s : state) : state * response :=
  match multer_filter upload with
  | Rejected e => (s, error_middleware e)
  | TooLarge p =>
      (State (db s) (delete (part_name p) (uploads s)) (dirname s) (beside s),
       error_middleware limit_file_size)
  | Skipped =>
      let '(t, r) := upload_handler req now q None (db s) in
      (State t (uploads s) (dirname s) (beside s), r)
  | Accepted p =>
      let dir := diskStorage now p (uploads s) in
      let '(t, r) := upload_handler req now q (Some (stored p)) (db s) in
      (State t dir (dirname s) (beside s), r)
  end.

(** POST /upload for any body: what [multer_single] makes of its file
    parts.  A file that was stored before a later part was refused is
    removed from [uploads/]. *)
Definition post_form (req : request) (now : time) (q : fault)
    (files : list (string * part)) (s : state) : state * response :=
  match multer_single files with
  | Single upload => post_upload req now q upload s
  | Unexpected stored =>
      (State (db s)
         match stored with
         | Some p => delete (part_name p) (uploads s)
         | None => uploads s
         end
         (dirname s) (beside s),
       error_middleware limit_unexpected_file)
  end.

(** DELETE /images/:filename.  [name] is the route parameter, decoded: it
    may hold slashes.  The file is removed wherever the joined path leads;
    the row is looked for under [name] as it came. *)
Definition delete_handler (q : fault) (name : string) (s : state)
    : state * response :=
  match existing s name with
  | None =>
      (s, res_status_json 404
            (JObj [("success", JBool false);
                   ("message", JStr "Image not found")]))
  | Some filePath =>
      match unlinkSync filePath s with
      | inl message =>
          (s, res_status_json 500
                (JObj [("success", JBool false);
                       ("message", JStr "Error deleting image");
                       ("error", JStr message)]))
      | inr s' =>
          let t :=
            match q with
            | None => delete_row name (db s)
            | Some _ => db s (* console.error('DB delete error:', ...) *)
            end in
          (State t (uploads s') (dirname s') (beside s'),
           res_json (JObj [("success", JBool true);
                           ("message", JStr "Image deleted successfully")]))
      end
  end.

(** [fs.readdirSync(uploadsDir).filter(f => f.toLowerCase().endsWith('.svg'))] *)
Definition svg_files (dir : gmap string stats) : list string :=
  List.filter (fun f => endsWith (toLowerCase f) ".svg")
    (fst <$> map_to_list dir).

(** SELECT filename, original_name, size, uploaded_at FROM images
    WHERE filename = ANY($1) *)
Definition select_any (files : list string) (t : table) : list row :=
  List.filter (fun r => existsb (String.eqb (row_filename r)) files) (rows t).

(** [Object.fromEntries(dbRows.map(r => [r.filename, r]))]: of two entries
    with one key the later one stays.  The keys looked up end in .svg, so
    none of them is a property of [Object.prototype]. *)
Definition fromEntries (dbRows : list row) : gmap string row :=
  foldl (fun m r => <[row_filename r := r]> m) ∅ dbRows.

(** One element of [imageList].  A BIGINT comes from the driver as its
    decimal string, which is truthy whatever the number. *)
Definition list_entry (req : request) (dbMap : gmap string row)
    (dir : gmap string stats) (f : string) : json :=
  let st := default (Stats [] 0) (dir !! f) in
  let imageUrl := imageUrl req f in
  let meta := dbMap !! f in
  JObj [("filename", JStr f);
        ("originalName", JStr (or_string (meta ≫= original_name) f));
        ("url", JStr imageUrl);
        ("directUrl", JStr imageUrl);
        ("size",
         match meta ≫= row_size with
         | Some n => JStr (pretty n)
         | None => JNum (stat_size st)
         end);
        ("uploadedAt",
         match meta ≫= uploaded_at with
         | Some t => JDate t
         | None => JDate (birthtime st)
         end)].

(** GET /images/list *)
Definition list_handler (req : request) (q : fault) (s : state) : response :=
  let files := svg_files (uploads s) in
  let dbRows :=
    match q with
    | None => select_any files (db s)
    | Some _ => [] (* console.error('DB fetch error:', ...) *)
    end in
  let dbMap := fromEntries dbRows in
  let imageList := list_entry req dbMap (uploads s) <$> files in
  res_json (JObj [("success", JBool true);
                  ("count", JNum (N.of_nat (length imageList)));
                  ("images", JArr imageList)]).

(** The requests that change the state. *)
Inductive op :=
  | Upload (req : request) (now : time) (q : fault) (upload : option part)
  | Delete (q : fault) (name : string).

Definition step (s : state) (o : op) : state :=
  match o with
  | Upload req now q upload => fst (post_upload req now q upload s)
  | Delete q name => fst (delete_handler q name s)
  end.

Definition run (ops : list op) : state := foldl step boot ops.

Definition run_in (dir : list string) (disk : gmap (list string) entry)
    (ops : list op) : state :=
  foldl step (boot_in dir disk) ops.

(** GET /api/images/:filename.  [result.rows[0]] is undefined when no row
    has the name, and [meta] stays undefined when the query rejects. *)
Definition api_handler (req : request) (q : fault) (name : string) (s : state)
    : response :=
  match existing s name with
  | None =>
      res_status_json 404
        (JObj [("success", JBool false); ("message", JStr "Image not found")])
  | Some filePath =>
      let stats := statSync filePath in
      let imageUrl := imageUrl req name in
      let meta :=
        match q with
        | None => head (select_where row_filename name (rows (db s)))
        | Some _ => None (* console.error('DB fetch single error:', ...) *)
        end in
      res_json
        (JObj [("success", JBool true);
               ("data",
                JObj [("filename", JStr name);
                      ("originalName",
                       JStr (or_string (meta ≫= original_name) name));
                      ("url", JStr imageUrl);
                      ("directUrl", JStr imageUrl);
                      ("size",
                       match meta ≫= row_size with
                       | Some n => JStr (pretty n)
                       | None => JNum (fst stats)
                       end);
                      ("uploadedAt",
                       match meta ≫= uploaded_at with
                       | Some t => JDate t
                       | None => JDate (snd stats)
                       end)])])
  end.

(** GET /images/<segment>, [segment] being the segment decoded.
    [express.static] is mounted on /images before the routes: it answers
    with the file of that name when there is one (leaving out names that
    begin with a dot) and hands on otherwise; the only GET route under
    /images is /images/list, which Express matches in any case of the
    letters.  (Express matches the route on the segment as it is written:
    this is for a segment that is written without percent escapes or does
    not spell list.) *)
Inductive answer :=
  | Static (content : buffer) (* the file, sent by express.static *)
  | Routed (r : response)     (* a route's handler answered *)
  | Unrouted.                 (* no route: Express answers 404 itself *)

Definition dotfile (segment : string) : bool :=
  match segment with
  | String "."%char (String _ _) => true
  | _ => false
  end.

Definition get_images (req : request) (q : fault) (segment : string)
    (s : state) : answer :=
  match (if dotfile segment then None else uploads s !! segment) with
  | Some st => Static (data st)
  | None =>
      if String.eqb (toLowerCase segment) "list"
      then Routed (list_handler req q s)
      else Unrouted
  end.

End Filesystem.

(** * The inline variant *)

Module Inline.

(** [req.file] as the memory storage fills it in. *)
Record file := File {
  originalname : string;
  mimetype : string;
  file_size : N;       (* req.file.size *)
  file_buffer : buffer (* req.file.buffer *)
}.

(** A row of [images]: the columns of the filesystem variant, and content
    TEXT, mime_type TEXT DEFAULT 'image/svg+xml'. *)
Record row := Row {
  id : N;
  row_filename : string;
  original_name : option string;
  row_size : option N;
  content : option text;
  mime_type : option string;
  uploaded_at : option time
}.

Record table := Table {
  rows : list row;
  serial : N
}.

(** What [initDb] may find. *)
Inductive database :=
  | NoTable
  | Legacy (t : Filesystem.table) (* the table of the filesystem variant *)
  | Current (t : table).

(** ALTER TABLE images ADD COLUMN content TEXT;
    ALTER TABLE images ADD COLUMN mime_type TEXT DEFAULT 'image/svg+xml' *)
Definition add_columns (r : Filesystem.row) : row :=
  Row (Filesystem.id r) (Filesystem.row_filename r)
    (Filesystem.original_name r) (Filesystem.row_size r)
    None (Some svg_mime) (Filesystem.uploaded_at r).

(** [initDb]: CREATE TABLE IF NOT EXISTS, then the columns are added when
    SELECT content FROM images fails. *)
Definition initDb (d : database) : table :=
  match d with
  | NoTable => Table [] 1
  | Legacy t => Table (add_columns <$> Filesystem.rows t) (Filesystem.serial t)
  | Current t => t
  end.

(** INSERT INTO images (filename, original_name, size, content, mime_type)
    VALUES ($1, $2, $3, $4, $5) ON CONFLICT (filename) DO UPDATE SET
    original_name = EXCLUDED.original_name, size = EXCLUDED.size,
    content = EXCLUDED.content, uploaded_at = NOW().
    The sequence moves on whether the row is inserted or updated. *)
Definition do_update (now : time) (original : string) (sz : N) (svg : text)
    (r : row) : row :=
  Row (id r) (row_filename r) (Some original) (Some sz) (Some svg)
    (mime_type r) (Some now).

Definition upsert (now : time) (name original : string) (sz : N)
    (svg : text) (mime : string) (t : table) : table :=
  Table
    (on_conflict_update row_filename name (do_update now original sz svg)
       (Row (serial t) name (Some original) (Some sz) (Some svg) (Some mime)
          (Some now))
       (rows t))
    (serial t + 1).

(** DELETE FROM images WHERE filename = $1 RETURNING filename: the table
    left and [result.rowCount]. *)
Definition delete_returning (name : string) (t : table) : table * N :=
  (Table (delete_where row_filename name (rows t)) (serial t),
   N.of_nat (length (select_where row_filename name (rows t)))).

(** SELECT ... FROM images WHERE filename = $1 *)
Definition select_named (name : string) (t : table) : list row :=
  select_where row_filename name (rows t).

(** ORDER BY uploaded_at DESC; a NULL sorts before every timestamp.  Of
    the orders the statement allows [order_by_uploaded_at_desc] is one: the
    database may put rows with equal timestamps in any order. *)
Definition later_eq (a b : option time) : bool :=
  match a, b with
  | None, _ => true
  | Some _, None => false
  | Some x, Some y => y <=? x
  end.

Definition newer_first (r1 r2 : row) : Prop :=
  later_eq (uploaded_at r1) (uploaded_at r2).

Definition order_by_uploaded_at_desc (l : list row) : list row :=
  merge_sort newer_first l.

Definition memoryStorage (p : part) : file :=
  File (part_name p) (part_mimetype p) (byteLength (part_data p))
    (part_data p).

(** The route's handler of POST /upload. *)
Definition upload_handler (req : request) (now : time) (q : fault)
    (f : option file) (t : table) : table * response :=
  match f with
  | None =>
      (t, res_status_json 400
            (JObj [("success", JBool false);
                   ("message", JStr "No file uploaded or invalid file type")]))
  | Some f =>
      let svgContent := toString_utf8 (file_buffer f) in
      let filename := originalname f in
      if negb (includes svgContent (code_points "<svg"))
         || negb (includes svgContent (code_points "</svg>"))
      then
        (t, res_status_json 400
              (JObj [("success", JBool false);
                     ("message", JStr "Invalid SVG file format")]))
      else
        let imageUrl := imageUrl req filename in
        match q with
        | Some _ =>
            (t, res_status_json 500
                  (JObj [("success", JBool false);
                         ("message", JStr "Database error while saving image")]))
        | None =>
            (upsert now filename (originalname f) (file_size f) svgContent
               svg_mime t,
             res_json
               (JObj [("success", JBool true);
                      ("message", JStr "SVG image uploaded successfully");
                      ("data",
                       JObj [("filename", JStr filename);
                             ("originalName", JStr (originalname f));
                             ("size", JNum (file_size f));
                             ("url", JStr imageUrl);
                             ("directUrl", JStr imageUrl)])]))
        end
  end.

(** POST /upload: [upload.single('image')], then the handler or the error
    handling middleware.  The memory storage leaves nothing behind. *)
Definition post_upload (req : request) (now : time) (q : fault)
    (upload : option part) (t : table) : table * response :=
  match multer_filter upload with
  | Rejected e => (t, error_middleware e)
  | TooLarge _ => (t, error_middleware limit_file_size)
  | Skipped => upload_handler req now q None t
  | Accepted p => upload_handler req now q (Some (memoryStorage p)) t
  end.

(** [parseInt(row.size)]: the BIGINT comes as its decimal string and is
    read as a number; NULL gives NaN, which [res.json] writes as null. *)
Definition parseInt (sz : option N) : json :=
  match sz with
  | Some n => JNum (to_double n)
  | None => JNull
  end.

Definition json_date (t : option time) : json :=
  match t with
  | Some t => JDate t
  | None => JNull
  end.

(** One element of [imageList]. *)
Definition list_entry (req : request) (r : row) : json :=
  let imageUrl := imageUrl req (row_filename r) in
  JObj [("filename", JStr (row_filename r));
        ("originalName", JStr (or_string (original_name r) (row_filename r)));
        ("url", JStr imageUrl);
        ("directUrl", JStr imageUrl);
        ("size", parseInt (row_size r));
        ("uploadedAt", json_date (uploaded_at r))].

(** GET /images/list once the query is answered with [result_rows]. *)
Definition list_response (req : request) (result_rows : list row)
    : response :=
  let imageList := list_entry req <$> result_rows in
  res_json (JObj [("success", JBool true);
                  ("count", JNum (N.of_nat (length imageList)));
                  ("images", JArr imageList)]).

(** GET /images/list.  The query's answer is taken to be
    [order_by_uploaded_at_desc]; rows uploaded at the same time may come
    in any order, and the handler then answers [list_response] of that
    order. *)
Definition list_handler (req : request) (q : fault) (t : table) : response :=
  match q with
  | Some msg =>
      res_status_json 500
        (JObj [("success", JBool false);
               ("message", JStr "Error fetching image list");
               ("error", JStr msg)])
  | None => list_response req (order_by_uploaded_at_desc (rows t))
  end.

(** DELETE /images/:filename *)
Definition delete_handler (q : fault) (name : string) (t : table)
    : table * response :=
  match q with
  | Some msg =>
      (t, res_status_json 500
            (JObj [("success", JBool false);
                   ("message", JStr "Error deleting image");
                   ("error", JStr msg)]))
  | None =>
      let '(t', rowCount) := delete_returning name t in
      if rowCount =? 0 then
        (t', res_status_json 404
               (JObj [("success", JBool false);
                      ("message", JStr "Image not found")]))
      else
        (t', res_json (JObj [("success", JBool true);
                             ("message", JStr "Image deleted successfully")]))
  end.

(** [!image.content]: NULL and the empty string are falsy. *)
Definition no_content (c : option text) : bool :=
  match c with
  | None | Some [] => true
  | Some (_ :: _) => false
  end.

(** GET /images/:filename *)
Definition serve_handler (q : fault) (name : string) (t : table) : response :=
  match q with
  | Some msg =>
      res_status_json 500
        (JObj [("success", JBool false);
               ("message", JStr "Error serving image");
               ("error", JStr msg)])
  | None =>
      match select_named name t with
      | [] =>
          res_status_json 404
            (JObj [("success", JBool false);
                   ("message", JStr "Image not found")])
      | image :: _ =>
          if no_content (content image) then
            res_status_json 404
              (JObj [("success", JBool false);
                     ("message",
                      JStr "Image content not available. Please re-upload the image.")])
          else
            Response 200
              [("Content-Type", or_string (mime_type image) svg_mime);
               ("Cache-Control", "public, max-age=31536000")]
              (Send (default [] (content image)))
      end
  end.

(** GET /images/<segment>, [segment] being the segment decoded: the route
    [/images/list] is registered before [/images/:filename], and Express
    matches it in any case of the letters.  (Express matches the route on
    the segment as it is written: this is for a segment that is written
    without percent escapes or does not spell list.) *)
Definition get_images (req : request) (q : fault) (segment : string)
    (t : table) : response :=
  if String.eqb (toLowerCase segment) "list" then list_handler req q t
  else serve_handler q segment t.

(** POST /upload for any body: what [multer_single] makes of its file
    parts. *)
Definition post_form (req : request) (now : time) (q : fault)
    (files : list (string * part)) (t : table) : table * response :=
  match multer_single files with
  | Single upload => post_upload req now q upload t
  | Unexpected _ => (t, error_middleware limit_unexpected_file)
  end.

(** The requests that change the table. *)
Inductive op :=
  | Upload (req : request) (now : time) (q : fault) (upload : option part)
  | Delete (q : fault) (name : string).

Definition step (t : table) (o : op) : table :=
  match o with
  | Upload req now q upload => fst (post_upload req now q upload t)
  | Delete q name => fst (delete_handler q name t)
  end.

(** The tables the service can be in: booted on a fresh database or on
    what the filesystem variant left, then any requests. *)
Definition boot (legacy : option (list Filesystem.op)) : table :=
  initDb match legacy with
         | None => NoTable
         | Some ops => Legacy (Filesystem.db (Filesystem.run ops))
         end.

Definition run (legacy : option (list Filesystem.op)) (ops : list op)
    : table :=
  foldl step (boot legacy) ops.

(** GET /api/images/:filename *)
Definition api_handler (req : request) (q : fault) (name : string) (t : table)
    : response :=
  match q with
  | Some msg =>
      res_status_json 500
        (JObj [("success", JBool false);
               ("message", JStr "Error fetching image");
               ("error", JStr msg)])
  | None =>
      match select_named name t with
      | [] =>
          res_status_json 404
            (JObj [("success", JBool false);
                   ("message", JStr "Image not found")])
      | row :: _ =>
          let imageUrl := imageUrl req name in
          res_json
            (JObj [("success", JBool true);
                   ("data",
                    JObj [("filename", JStr name);
                          ("originalName",
                           JStr (or_string (original_name row) name));
                          ("url", JStr imageUrl);
                          ("directUrl", JStr imageUrl);
                          ("size", parseInt (row_size row));
                          ("uploadedAt", json_date (uploaded_at row))])])
      end
  end.

(** GET /debug/images: SELECT filename, original_name, size,
    LENGTH(content) as content_length, uploaded_at FROM images ORDER BY
    uploaded_at DESC, the rows sent as the driver gives them (a BIGINT as its
    decimal string, LENGTH as a number of characters). *)
Definition debug_row (r : row) : json :=
  JObj [("filename", JStr (row_filename r));
        ("original_name",
         match original_name r with
         | Some s => JStr s
         | None => JNull
         end);
        ("size",
         match row_size r with
         | Some n => JStr (pretty n)
         | None => JNull
         end);
        ("content_length",
         match content r with
         | Some svg => JNum (N.of_nat (length svg))
         | None => JNull
         end);
        ("uploaded_at", json_date (uploaded_at r))].

Definition debug_response (result_rows : list row) : response :=
  let images := debug_row <$> result_rows in
  res_json (JObj [("success", JBool true);
                  ("count", JNum (N.of_nat (length images)));
                  ("images", JArr images)]).

Definition debug_handler (q : fault) (t : table) : response :=
  match q with
  | Some msg =>
      res_status_json 500
        (JObj [("success", JBool false); ("error", JStr msg)])
  | None => debug_response (order_by_uploaded_at_desc (rows t))
  end.

End Inline.

(** * Vocabulary of the properties *)

(** [needle] occurs in [s]: what [s.includes(needle)] decides. *)
Definition contains (s needle : text) : Prop :=
  exists before after, s = before ++ needle ++ after.

(** A text file: every character a Unicode scalar value. *)
Definition is_text (s : text) : bool :=
  forallb (fun c => (c <? 0x110000) && negb (is_surrogate c)) s.

(** The part is announced as SVG or named as one. *)
Definition is_svg (p : part) : Prop :=
  part_mimetype p = svg_mime \/ endsWith (toLowerCase (part_name p)) ".svg" = true.

(** The invariant of the inline variant's table: UNIQUE (filename), and the
    MIME type every row is created with. *)
Definition mime_is_svg (r : Inline.row) : Prop :=
  Inline.mime_type r = Some svg_mime.

Definition table_ok (t : Inline.table) : Prop :=
  unique Inline.row_filename (Inline.rows t)
  /\ Forall mime_is_svg (Inline.rows t).

(** The answers the handlers give. *)
Definition not_found : response :=
  res_status_json 404
    (JObj [("success", JBool false); ("message", JStr "Image not found")]).

Definition served (mime : string) (svg : text) : response :=
  Response 200
    [("Content-Type", mime); ("Cache-Control", "public, max-age=31536000")]
    (Send svg).

Definition only_svg_allowed : response :=
  res_status_json 500
    (JObj [("success", JBool false);
           ("message", JStr "Only SVG files are allowed!")]).

Definition file_too_large : response :=
  res_status_json 400
    (JObj [("success", JBool false);
           ("message", JStr "File too large. Maximum size is 5MB.")]).

Definition invalid_svg : response :=
  res_status_json 400
    (JObj [("success", JBool false);
           ("message", JStr "Invalid SVG file format")]).

Definition database_error : response :=
  res_status_json 500
    (JObj [("success", JBool false);
           ("message", JStr "Database error while saving image")]).

Definition deleted : response :=
  res_json (JObj [("success", JBool true);
                  ("message", JStr "Image deleted successfully")]).

(** [j.k] for an object [j], and the object a response carries. *)
Definition field (k : string) (j : json) : option json :=
  match j with
  | JObj fields => snd <$> List.find (fun kv => String.eqb (fst kv) k) fields
  | _ => None
  end.

Definition json_body (r : response) : json :=
  match payload r with
  | Json j => j
  | Send _ => JNull
  end.

(** A base name: one segment of a path, neither [.] nor [..], without
    NUL. *)
Definition base_name (name : string) : bool :=
  negb (String.eqb name "") && negb (String.eqb name ".")
  && negb (String.eqb name "..")
  && negb (existsb (Ascii.eqb "/") (list_ascii_of_string name))
  && negb (Filesystem.has_nul name).

(** The request names its file by a base name. *)
Definition fs_base_named (o : Filesystem.op) : Prop :=
  match o with
  | Filesystem.Upload _ _ _ (Some p) => base_name (part_name p) = true
  | Filesystem.Upload _ _ _ None => True
  | Filesystem.Delete _ name => base_name name = true
  end.

(** Every file of [uploads/] is stored under a base name. *)
Definition keys_are_base_names (s : Filesystem.state) : Prop :=
  forall name, is_Some (Filesystem.uploads s !! name) -> base_name name = true.

(** The request uploads a file under [name]. *)
Definition inline_uploads_of (name : string) (o : Inline.op) : Prop :=
  match o with
  | Inline.Upload _ _ _ (Some p) => part_name p = name
  | _ => False
  end.

Definition fs_uploads_of (name : string) (o : Filesystem.op) : Prop :=
  match o with
  | Filesystem.Upload _ _ _ (Some p) => part_name p = name
  | _ => False
  end.

(** What an element of [images] tells of an image. *)
Record listed := Listed {
  listed_filename : string;
  listed_originalName : string;
  listed_url : string;
  listed_size : json;
  listed_uploadedAt : json
}.

Definition shows (e : json) (i : listed) : Prop :=
  field "filename" e = Some (JStr (listed_filename i))
  /\ field "originalName" e = Some (JStr (listed_originalName i))
  /\ field "url" e = Some (JStr (listed_url i))
  /\ field "directUrl" e = Some (JStr (listed_url i))
  /\ field "size" e = Some (listed_size i)
  /\ field "uploadedAt" e = Some (listed_uploadedAt i).

(** The address an image is served at. *)
Definition url_of (req : request) (name : string) : string :=
  protocol req +:+ "://" +:+ host req +:+ "/images/" +:+ name.

(** [r1] was uploaded no earlier than [r2]; NULL counts as latest. *)
Definition not_older (r1 r2 : Inline.row) : Prop :=
  match Inline.uploaded_at r1, Inline.uploaded_at r2 with
  | None, _ => True
  | Some _, None => False
  | Some t1, Some t2 => t2 <= t1
  end.

(** The parts of an answer: [data] of an upload or a fetch, [images] and
    [count] of a listing. *)
Definition data_of (r : response) : json :=
  default JNull (field "data" (json_body r)).

Definition images_of (r : response) : list json :=
  match field "images" (json_body r) with
  | Some (JArr images) => images
  | _ => []
  end.

Definition count_of (r : response) : option json :=
  field "count" (json_body r).

(** An element of [images] is about the file [name]. *)
Definition lists (r : response) (name : string) : Prop :=
  exists e, e ∈ images_of r /\ field "filename" e = Some (JStr name).

(** What a client of the inline variant knows from the status codes alone:
    a name is stored once an upload of it was answered with 200 and until a
    delete of it is answered with 200.  The table is run alongside. *)
Definition client_step (known : Inline.table * gset string) (o : Inline.op)
    : Inline.table * gset string :=
  match o with
  | Inline.Upload req now q upload =>
      let out := Inline.post_upload req now q upload (fst known) in
      (fst out,
       match upload with
       | Some p =>
           if status (snd out) =? 200 then {[part_name p]} ∪ snd known
           else snd known
       | None => snd known
       end)
  | Inline.Delete q name =>
      let out := Inline.delete_handler q name (fst known) in
      (fst out,
       if status (snd out) =? 200 then snd known ∖ {[name]} else snd known)
  end.

Definition client_view (ops : list Inline.op) : Inline.table * gset string :=
  foldl client_step (Inline.boot None, ∅) ops.

(** The filenames of the rows, as a set. *)
Definition names_of (t : Inline.table) : gset string :=
  list_to_set (Inline.row_filename <$> Inline.rows t).

(** A row as an upload to the inline variant writes it. *)
Definition complete (r : Inline.row) : Prop :=
  Inline.original_name r = Some (Inline.row_filename r)
  /\ (exists n, Inline.row_size r = Some n)
  /\ (exists svg, Inline.content r = Some svg
        /\ contains svg (code_points "<svg")
        /\ contains svg (code_points "</svg>"))
  /\ Inline.mime_type r = Some svg_mime
  /\ (exists t, Inline.uploaded_at r = Some t).

Definition content_not_available : response :=
  res_status_json 404
    (JObj [("success", JBool false);
           ("message",
            JStr "Image content not available. Please re-upload the image.")]).

(** The request's query was answered by the database. *)
Definition fs_answered (o : Filesystem.op) : Prop :=
  match o with
  | Filesystem.Upload _ _ q _ => q = None
  | Filesystem.Delete q _ => q = None
  end.

(** The name ends in .svg, in any mix of upper and lower case. *)
Definition svg_suffix (name : string) : Prop :=
  exists stem a b c,
    name = stem +:+ String "." (String a (String b (String c "")))
    /\ (a = "s" \/ a = "S")%char
    /\ (b = "v" \/ b = "V")%char
    /\ (c = "g" \/ c = "G")%char.

(** A sequence the UTF-8 decoder has begun ends in a scalar value whatever
    bytes the decoder accepts next: [k] bytes are still to come, [c] holds
    the bits read, the next byte has to lie between [lo] and [hi]. *)
Fixpoint ends_in_scalar (k : nat) (c lo hi : N) : Prop :=
  match k with
  | O => scalar_value c
  | S k' =>
      forall b, lo <= b <= hi -> ends_in_scalar k' (c * 64 + (b - 0x80)) 0x80 0xBF
  end.

Definition decoder_ok (d : decoder) : Prop :=
  exists k, bytes_needed d = N.of_nat (S k)
            /\ ends_in_scalar (S k) (code_point d) (lower d) (upper d).

(** * Facts *)

(** ** Examples of the string functions *)

Example toString_ascii :
  toString_utf8 [60; 115; 118; 103; 62] = code_points "<svg>".
Proof. reflexivity. Qed.

Example toString_euro : toString_utf8 [0xE2; 0x82; 0xAC] = [0x20AC].
Proof. reflexivity. Qed.

Example toString_latin1 :
  toString_utf8 [60; 0xE9; 62] = [60; replacement; 62].
Proof. reflexivity. Qed.

Example toString_truncated :
  toString_utf8 [0xF0; 0x9F; 0x98] = [replacement].
Proof. reflexivity. Qed.

Example encode_emoji : utf8_encode [0x1F600] = [0xF0; 0x9F; 0x98; 0x80].
Proof. reflexivity. Qed.

Example endsWith_svg : endsWith (toLowerCase "Logo.SVG") ".svg" = true.
Proof. reflexivity. Qed.

Example endsWith_short : endsWith "svg" ".svg" = false.
Proof. reflexivity. Qed.

(** ** The UTF-8 round trip *)

Lemma utf8_lead_1 (b : byte) : b <= 0x7F -> utf8_lead b = Some (inl b).
Proof. intros H. unfold utf8_lead. by destruct (N.leb_spec b 0x7F); [ | lia ]. Qed.

Lemma utf8_lead_2 (b : byte) :
  0xC2 <= b <= 0xDF ->
  utf8_lead b = Some (inr (Decoder (b - 0xC0) 1 0x80 0xBF)).
Proof.
  intros H. unfold utf8_lead.
  destruct (N.leb_spec b 0x7F); [ lia | ].
  destruct (N.leb_spec 0xC2 b), (N.leb_spec b 0xDF); done || lia.
Qed.

Lemma utf8_lead_3 (b : byte) :
  0xE0 <= b <= 0xEF ->
  utf8_lead b =
    Some (inr (Decoder (b - 0xE0) 2
                 (if b =? 0xE0 then 0xA0 else 0x80)
                 (if b =? 0xED then 0x9F else 0xBF))).
Proof.
  intros H. unfold utf8_lead.
  destruct (N.leb_spec b 0x7F); [ lia | ].
  destruct (N.leb_spec 0xC2 b), (N.leb_spec b 0xDF); try lia; cbn [andb].
  all: destruct (N.leb_spec 0xE0 b), (N.leb_spec b 0xEF); done || lia.
Qed.

Lemma utf8_lead_4 (b : byte) :
  0xF0 <= b <= 0xF4 ->
  utf8_lead b =
    Some (inr (Decoder (b - 0xF0) 3
                 (if b =? 0xF0 then 0x90 else 0x80)
                 (if b =? 0xF4 then 0x8F else 0xBF))).
Proof.
  intros H. unfold utf8_lead.
  destruct (N.leb_spec b 0x7F); [ lia | ].
  destruct (N.leb_spec 0xC2 b), (N.leb_spec b 0xDF); try lia; cbn [andb].
  all: destruct (N.leb_spec 0xE0 b), (N.leb_spec b 0xEF); try lia; cbn [andb].
  all: destruct (N.leb_spec 0xF0 b), (N.leb_spec b 0xF4); done || lia.
Qed.

(** A continuation byte in range is taken into the code point. *)
Lemma utf8_decode_continue (d : decoder) (b : byte) (bs : buffer) :
  lower d <= b <= upper d ->
  utf8_decode (Some d) (b :: bs) =
    if bytes_needed d =? 1
    then (code_point d * 64 + (b - 0x80)) :: utf8_decode None bs
    else utf8_decode
           (Some (Decoder (code_point d * 64 + (b - 0x80))
                    (bytes_needed d - 1) 0x80 0xBF)) bs.
Proof.
  intros [Hl Hu]. cbn [utf8_decode].
  destruct (N.leb_spec (lower d) b); [ | lia ].
  by destruct (N.leb_spec b (upper d)); [ | lia ].
Qed.

Lemma utf8_decode_start (b : byte) (bs : buffer) :
  utf8_decode None (b :: bs) =
    match utf8_lead b with
    | Some (inl c) => c :: utf8_decode None bs
    | Some (inr d) => utf8_decode (Some d) bs
    | None => replacement :: utf8_decode None bs
    end.
Proof. reflexivity. Qed.

Lemma split64 (c : N) :
  exists q r, c = 64 * q + r /\ r < 64 /\ c / 64 = q /\ c mod 64 = r.
Proof.
  exists (c / 64), (c mod 64). split; [ apply N.div_mod; lia | ].
  split; [ apply N.mod_lt; lia | done ].
Qed.

Lemma utf8_decode_encode_cp (c : N) (bs : buffer) :
  scalar_value c ->
  utf8_decode None (utf8_encode_cp c ++ bs) = c :: utf8_decode None bs.
Proof.
  intros [Hmax Hsur].
  unfold utf8_encode_cp.
  assert (is_surrogate c = false) as ->.
  { unfold is_surrogate. apply andb_false_iff.
    destruct (N.leb_spec 0xD800 c), (N.leb_spec c 0xDFFF); auto.
    exfalso; apply Hsur; lia. }
  cbv zeta.
  replace (c / 262144) with (c / 64 / 64 / 64) by (rewrite !N.Div0.div_div; done).
  replace (c / 4096) with (c / 64 / 64) by (rewrite !N.Div0.div_div; done).
  destruct (split64 c) as (q1 & r1 & E1 & L1 & -> & ->).
  destruct (split64 q1) as (q2 & r2 & E2 & L2 & -> & ->).
  destruct (split64 q2) as (q3 & r3 & E3 & L3 & -> & ->).
  assert (~ (0xD800 <= c /\ c <= 0xDFFF)) as Hsur' by lia. clear Hsur.
  destruct (N.ltb_spec c 0x80); [ | destruct (N.ltb_spec c 0x800);
         [ | destruct (N.ltb_spec c 0x10000) ] ]; cbn [app].
  - rewrite utf8_decode_start, utf8_lead_1 by lia. done.
  - rewrite utf8_decode_start, utf8_lead_2 by lia.
    rewrite utf8_decode_continue by (cbn; lia). cbn. f_equal. lia.
  - rewrite utf8_decode_start, utf8_lead_3 by lia.
    rewrite utf8_decode_continue.
    2: { cbn [lower upper].
         destruct (N.eqb_spec (0xE0 + q2) 0xE0), (N.eqb_spec (0xE0 + q2) 0xED); lia. }
    cbn [bytes_needed code_point N.eqb Pos.eqb].
    rewrite utf8_decode_continue by (cbn; lia). cbn. f_equal. lia.
  - rewrite utf8_decode_start, utf8_lead_4 by lia.
    rewrite utf8_decode_continue.
    2: { cbn [lower upper].
         destruct (N.eqb_spec (0xF0 + q3) 0xF0), (N.eqb_spec (0xF0 + q3) 0xF4); lia. }
    cbn [bytes_needed code_point N.eqb Pos.eqb].
    rewrite utf8_decode_continue by (cbn; lia).
    change (3 - 1) with 2; change (2 =? 1) with false; cbv iota.
    rewrite utf8_decode_continue by (cbn; lia). cbn. f_equal. lia.
Qed.

Lemma utf8_decode_encode (s : text) :
  Forall scalar_value s -> toString_utf8 (utf8_encode s) = s.
Proof.
  unfold toString_utf8, utf8_encode.
  induction 1 as [ | c s Hc _ IH ]; [ done | ].
  cbn [flat_map]. by rewrite utf8_decode_encode_cp, IH.
Qed.

(** A payload in another encoding does not come back as it went: the
    byte E9 (an e with acute accent in Latin-1) is decoded to U+FFFD and
    written out as EF BF BD. *)
Example latin1_is_altered :
  utf8_encode (toString_utf8 [60; 0xE9; 62]) = [60; 0xEF; 0xBF; 0xBD; 62].
Proof. reflexivity. Qed.

(** ** Facts on the statements *)

Section UniqueFacts.
Context {R : Type} (key : R -> string).

Local Abbreviation named := (named key).
Local Abbreviation select_where := (select_where key).
Local Abbreviation delete_where := (delete_where key).
Local Abbreviation on_conflict_update := (on_conflict_update key).
Local Abbreviation unique := (unique key).

Lemma named_true (name : string) (r : R) : named name r = true <-> key r = name.
Proof. apply String.eqb_eq. Qed.

Lemma named_false (name : string) (r : R) : named name r = false <-> key r <> name.
Proof. apply String.eqb_neq. Qed.

Lemma existsb_named (name : string) (l : list R) :
  existsb (named name) l = true <-> exists r, r ∈ l /\ key r = name.
Proof.
  rewrite existsb_exists. split; intros (r & Hin & Hr); exists r.
  - by rewrite list_elem_of_In, <- named_true.
  - by rewrite <- list_elem_of_In, named_true.
Qed.

Lemma existsb_named_false (name : string) (l : list R) :
  existsb (named name) l = false <-> forall r, r ∈ l -> key r <> name.
Proof.
  rewrite <- not_true_iff_false, existsb_named. split.
  - intros H r Hin Hr. apply H. by exists r.
  - intros H (r & Hin & Hr). by apply (H r).
Qed.

Lemma select_where_none (name : string) (l : list R) :
  (forall r, r ∈ l -> key r <> name) -> select_where name l = [].
Proof.
  induction l as [ | x l IH ]; intros H; [ done | ].
  cbn. rewrite (proj2 (named_false name x)) by (apply H; left).
  apply IH. intros r Hr. apply H. by right.
Qed.

Lemma select_where_elem (name : string) (l : list R) (r : R) :
  r ∈ select_where name l <-> r ∈ l /\ key r = name.
Proof.
  unfold select_where. by rewrite !list_elem_of_In, filter_In, named_true.
Qed.

(** Under UNIQUE the key names one row. *)
Lemma select_where_unique (name : string) (l : list R) (r : R) :
  unique l -> r ∈ l -> key r = name -> select_where name l = [r].
Proof.
  unfold unique. induction l as [ | x l IH ]; intros Hu Hin Hr.
  - by apply elem_of_nil in Hin.
  - rewrite fmap_cons in Hu. apply NoDup_cons in Hu as [Hx Hu].
    apply elem_of_cons in Hin as [-> | Hin].
    + cbn. rewrite (proj2 (named_true name x)) by done. f_equal.
      apply select_where_none. intros y Hy Hk. apply Hx.
      rewrite Hr, <- Hk. by apply list_elem_of_fmap_2.
    + cbn. destruct (named name x) eqn:Hn; [ | by apply IH ].
      exfalso. apply Hx. apply named_true in Hn. rewrite Hn, <- Hr.
      by apply list_elem_of_fmap_2.
Qed.

Lemma delete_where_elem (name : string) (l : list R) (r : R) :
  r ∈ delete_where name l <-> r ∈ l /\ key r <> name.
Proof.
  unfold delete_where.
  by rewrite !list_elem_of_In, filter_In, negb_true_iff, named_false.
Qed.

Lemma delete_where_unique (name : string) (l : list R) :
  unique l -> unique (delete_where name l).
Proof.
  unfold unique. induction l as [ | x l IH ]; [ done | ].
  rewrite fmap_cons. intros [Hx Hu]%NoDup_cons. cbn.
  destruct (named name x); cbn; [ by apply IH | ].
  apply NoDup_cons. split; [ | by apply IH ].
  intros (y & Hk & Hy)%list_elem_of_fmap. apply Hx.
  apply delete_where_elem in Hy as [Hy _]. rewrite Hk.
  by apply list_elem_of_fmap_2.
Qed.

Lemma length_select_delete (name : string) (l : list R) :
  (length (select_where name l) + length (delete_where name l))%nat = length l.
Proof.
  unfold select_where, delete_where.
  induction l as [ | x l IH ]; [ done | ].
  cbn. destruct (named name x); cbn; lia.
Qed.

Section Upsert.
Context (name : string) (update : R -> R) (fresh : R).
Hypothesis update_key : forall r, key (update r) = key r.
Hypothesis fresh_key : key fresh = name.

Lemma on_conflict_update_keys (l : list R) :
  key <$> on_conflict_update name update fresh l =
    if existsb (named name) l then key <$> l else (key <$> l) ++ [name].
Proof.
  unfold on_conflict_update. destruct (existsb (named name) l).
  - rewrite <- list_fmap_compose. apply list_fmap_ext.
    intros _ r _. cbn. by destruct (named name r).
  - by rewrite fmap_app, <- fresh_key.
Qed.

Lemma on_conflict_update_unique (l : list R) :
  unique l -> unique (on_conflict_update name update fresh l).
Proof.
  unfold unique. rewrite on_conflict_update_keys. intros Hu.
  destruct (existsb (named name) l) eqn:He; [ done | ].
  apply NoDup_app. split; [ done | ]. split; [ | apply NoDup_singleton ].
  intros k (r & Hk & Hr)%list_elem_of_fmap Hn%list_elem_of_singleton.
  apply (proj1 (existsb_named_false name l) He r Hr). congruence.
Qed.

Lemma select_on_conflict_update (l : list R) :
  select_where name (on_conflict_update name update fresh l) =
    if existsb (named name) l then update <$> select_where name l
    else [fresh].
Proof.
  unfold on_conflict_update. destruct (existsb (named name) l) eqn:He.
  - clear He. induction l as [ | x l IH ]; [ done | ].
    cbn. destruct (named name x) eqn:Hn; cbn.
    + unfold named at 1. rewrite update_key. fold (named name x).
      rewrite Hn. cbn. f_equal. apply IH.
    + rewrite Hn. apply IH.
  - unfold select_where. rewrite List.filter_app. cbn.
    rewrite (proj2 (named_true name fresh) fresh_key).
    fold (select_where name l).
    rewrite select_where_none; [ done | ].
    by apply existsb_named_false.
Qed.

Lemma select_on_conflict_update_ne (other : string) (l : list R) :
  other <> name ->
  select_where other (on_conflict_update name update fresh l) =
    select_where other l.
Proof.
  intros Hne. unfold on_conflict_update.
  destruct (existsb (named name) l).
  - induction l as [ | x l IH ]; [ done | ].
    cbn. destruct (named name x) eqn:Hn.
    + unfold named at 1. rewrite update_key. fold (named other x).
      apply named_true in Hn.
      rewrite (proj2 (named_false other x)) by congruence. apply IH.
    + destruct (named other x); [ f_equal | ]; apply IH.
  - unfold select_where. rewrite List.filter_app. cbn.
    rewrite (proj2 (named_false other fresh)) by congruence.
    apply app_nil_r.
Qed.

Lemma length_on_conflict_update (l : list R) :
  length (on_conflict_update name update fresh l) =
    if existsb (named name) l then length l else S (length l).
Proof.
  unfold on_conflict_update. destruct (existsb (named name) l).
  - apply length_map.
  - rewrite length_app. cbn. lia.
Qed.
End Upsert.

Lemma select_delete_where (name : string) (l : list R) :
  select_where name (delete_where name l) = [].
Proof.
  apply select_where_none. by intros r [_ Hr]%delete_where_elem.
Qed.

Lemma delete_where_Forall (P : R -> Prop) (name : string) (l : list R) :
  Forall P l -> Forall P (delete_where name l).
Proof.
  rewrite !Forall_forall. intros H r Hr. apply H.
  by apply delete_where_elem in Hr as [Hr _].
Qed.

Lemma on_conflict_update_Forall (P : R -> Prop) (name : string)
    (update : R -> R) (fresh : R) (l : list R) :
  (forall r, P r -> P (update r)) -> P fresh ->
  Forall P l -> Forall P (on_conflict_update name update fresh l).
Proof.
  intros Hup Hfresh Hl. unfold on_conflict_update.
  destruct (existsb _ l).
  - induction Hl as [ | x l Hx _ IH ]; cbn; [ done | ].
    constructor; [ | done ]. destruct (named name x); auto.
  - apply Forall_app. split; [ done | ]. by constructor.
Qed.

End UniqueFacts.

(** ** What [includes] decides *)

Lemma startsWith_spec (needle s : text) :
  startsWith needle s = true <-> exists after, s = needle ++ after.
Proof.
  revert s. induction needle as [ | n needle IH ]; intros s; cbn.
  - split; [ by exists s | done ].
  - destruct s as [ | c s ]; [ split; [ done | by intros [? ?] ] | ].
    rewrite andb_true_iff, N.eqb_eq, IH. split.
    + intros [-> [after ->]]. by exists after.
    + intros [after [= -> ->]]. split; [ done | by exists after ].
Qed.

Lemma includes_spec (s needle : text) :
  includes s needle = true <-> contains s needle.
Proof.
  unfold contains. induction s as [ | c s IH ]; cbn.
  - rewrite orb_false_r, startsWith_spec. split.
    + intros [after H]. by exists [], after.
    + intros (before & after & H). symmetry in H.
      apply app_eq_nil in H as [-> H]. by exists after.
  - rewrite orb_true_iff, startsWith_spec, IH. split.
    + intros [[after H] | (before & after & H)].
      * by exists [], after.
      * exists (c :: before), after. by rewrite H.
    + intros ([ | c' before] & after & H).
      * left. by exists after.
      * right. injection H as -> ->. by exists before, after.
Qed.

Lemma includes_nonempty (s needle : text) :
  needle <> [] -> includes s needle = true -> s <> [].
Proof.
  intros Hn [before [after H]]%includes_spec ->. symmetry in H.
  apply app_eq_nil in H as [_ H]. by apply app_eq_nil in H as [H _].
Qed.

(** ** The file filter and the size limit *)

Lemma fileFilter_accepts (p : part) : is_svg p -> fileFilter p = inr true.
Proof.
  unfold is_svg, fileFilter. intros [H | H].
  - by rewrite (proj2 (String.eqb_eq _ _) H).
  - rewrite H. by rewrite orb_true_r.
Qed.

Lemma fileFilter_rejects (p : part) :
  ~ is_svg p -> fileFilter p = inl (Error "Only SVG files are allowed!").
Proof.
  unfold is_svg, fileFilter. intros H.
  destruct (String.eqb_spec (part_mimetype p) svg_mime) as [Hm | _];
    [ by destruct H; left | ].
  destruct (endsWith _ _); [ by destruct H; right | done ].
Qed.

Lemma is_svg_dec (p : part) : {is_svg p} + {~ is_svg p}.
Proof.
  unfold is_svg.
  destruct (String.eqb_spec (part_mimetype p) svg_mime) as [Hm | Hm];
    [ by left; left | ].
  destruct (endsWith (toLowerCase (part_name p)) ".svg") eqn:He;
    [ by left; right | ].
  right. by intros [? | ?].
Qed.

Lemma multer_filter_cases (p : part) :
  multer_filter (Some p) =
    if is_svg_dec p then
      if fileSize <? byteLength (part_data p) then TooLarge p else Accepted p
    else Rejected (Error "Only SVG files are allowed!").
Proof.
  unfold multer_filter. destruct (is_svg_dec p) as [H | H].
  - by rewrite fileFilter_accepts.
  - by rewrite fileFilter_rejects.
Qed.

(** ** Strings *)

Lemma append_cons (c : ascii) (a b : string) :
  String c a +:+ b = String c (a +:+ b).
Proof. reflexivity. Qed.

Lemma substring_all (s : string) : String.substring 0 (String.length s) s = s.
Proof. induction s as [ | c s IH ]; cbn; [ done | by rewrite IH ]. Qed.

Lemma substring_split (s : string) (m : nat) :
  (m <= String.length s)%nat ->
  s = String.substring 0 m s +:+ String.substring m (String.length s - m) s.
Proof.
  revert m. induction s as [ | c s IH ]; intros m Hm.
  - cbn in Hm. assert (m = 0%nat) as -> by lia. done.
  - destruct m as [ | m ].
    + cbn [String.substring String.append]. cbn [String.length Nat.sub].
      by rewrite substring_all.
    + cbn in Hm. cbn. rewrite append_cons. f_equal. apply IH. lia.
Qed.

Lemma substring_append (pre suf : string) :
  String.substring (String.length pre) (String.length suf) (pre +:+ suf) = suf.
Proof.
  induction pre as [ | c pre IH ]; [ apply substring_all | ].
  by rewrite append_cons.
Qed.

Lemma string_length_append (a b : string) :
  String.length (a +:+ b) = (String.length a + String.length b)%nat.
Proof.
  induction a as [ | c a IH ]; [ done | ].
  rewrite append_cons. cbn. by rewrite IH.
Qed.

Lemma endsWith_spec (s suffix : string) :
  endsWith s suffix = true <-> exists stem, s = stem +:+ suffix.
Proof.
  unfold endsWith. rewrite andb_true_iff, Nat.leb_le, String.eqb_eq. split.
  - intros [Hk Hsub].
    exists (String.substring 0 (String.length s - String.length suffix) s).
    pose proof (substring_split s (String.length s - String.length suffix))
      as H.
    replace (String.length s - (String.length s - String.length suffix))%nat
      with (String.length suffix) in H by lia.
    rewrite Hsub in H. apply H. lia.
  - intros [stem ->]. rewrite string_length_append. split; [ lia | ].
    replace (String.length stem + String.length suffix - String.length suffix)%nat
      with (String.length stem) by lia.
    apply substring_append.
Qed.

(** ** JavaScript numbers *)

Lemma to_double_small (n : N) : n < 2 ^ 53 -> to_double n = n.
Proof.
  intros H. unfold to_double.
  destruct (N.leb_spec (N.size n) 53) as [ | Hbits ]; [ done | ].
  exfalso. destruct (N.eq_dec n 0) as [-> | Hn]; [ done | ].
  pose proof (N.size_le n) as Hle.
  assert (2 ^ 54 <= 2 ^ N.size n) by (apply N.pow_le_mono_r; lia).
  change (2 ^ 54) with (2 * 2 ^ 53) in *. lia.
Qed.

Example to_double_rounds :
  to_double 9007199254740993 = 9007199254740992
  /\ to_double 9007199254740995 = 9007199254740996.
Proof. by vm_compute. Qed.

Lemma fileSize_double (n : N) : n <= fileSize -> to_double n = n.
Proof.
  intros H. apply to_double_small.
  assert (fileSize < 2 ^ 53) by (by vm_compute). lia.
Qed.

(** ** Paths *)

Lemma append_assoc_cons (a : string) (c : ascii) (b : string) :
  (a +:+ String c "") +:+ b = a +:+ String c b.
Proof.
  induction a as [ | d a IH ]; [ done | ].
  rewrite !append_cons. by rewrite IH.
Qed.

Lemma no_slash_cons (c : ascii) (name : string) :
  existsb (Ascii.eqb "/") (list_ascii_of_string (String c name)) = false ->
  Ascii.eqb c "/" = false
  /\ existsb (Ascii.eqb "/") (list_ascii_of_string name) = false.
Proof.
  cbn. rewrite orb_false_iff. intros [Hc H]. split; [ | done ].
  by rewrite Ascii.eqb_sym.
Qed.

Lemma split_slash_segment (current name : string) :
  existsb (Ascii.eqb "/") (list_ascii_of_string name) = false ->
  Filesystem.split_slash current name = [current +:+ name].
Proof.
  revert current. induction name as [ | c name IH ]; intros current H.
  - cbn. f_equal. induction current as [ | d current IHc ]; [ done | ].
    rewrite append_cons. by rewrite <- IHc.
  - apply no_slash_cons in H as [Hc H]. cbn [Filesystem.split_slash].
    rewrite Hc, IH by done. by rewrite append_assoc_cons.
Qed.

Lemma base_name_spec (name : string) :
  base_name name = true ->
  name <> "" /\ name <> "." /\ name <> ".."
  /\ existsb (Ascii.eqb "/") (list_ascii_of_string name) = false.
Proof.
  unfold base_name. rewrite !andb_true_iff, !negb_true_iff, !String.eqb_neq.
  tauto.
Qed.

Lemma base_name_no_nul (name : string) :
  base_name name = true -> Filesystem.has_nul name = false.
Proof.
  unfold base_name. rewrite !andb_true_iff, !negb_true_iff. tauto.
Qed.

Lemma path_join_base (dir : list string) (name : string) :
  base_name name = true -> Filesystem.path_join dir name = dir ++ [name].
Proof.
  intros H. apply base_name_spec in H as (H0 & H1 & H2 & Hs).
  unfold Filesystem.path_join. rewrite split_slash_segment by done.
  change ("" +:+ name) with name. cbn.
  apply String.eqb_neq in H0, H1, H2. by rewrite H0, H1, H2.
Qed.

Lemma under_app (dir rest : list string) :
  Filesystem.under dir (dir ++ rest) = Some rest.
Proof.
  induction dir as [ | d dir IH ]; [ done | ].
  cbn. by rewrite String.eqb_refl.
Qed.

Lemma under_sibling (dir rest : list string) (a b : string) :
  a <> b -> Filesystem.under (dir ++ [a]) (dir ++ b :: rest) = None.
Proof.
  intros Hab. induction dir as [ | d dir IH ]; cbn.
  - apply String.eqb_neq in Hab. by rewrite Hab.
  - by rewrite String.eqb_refl.
Qed.

Lemma no_slash_append (a b : string) :
  existsb (Ascii.eqb "/") (list_ascii_of_string (a +:+ b))
  = existsb (Ascii.eqb "/") (list_ascii_of_string a)
    || existsb (Ascii.eqb "/") (list_ascii_of_string b).
Proof.
  induction a as [ | c a IH ]; [ done | ].
  rewrite append_cons. cbn. by rewrite IH, orb_assoc.
Qed.

Lemma base_name_no_trailing_slash (name : string) :
  base_name name = true -> endsWith name "/" = false.
Proof.
  intros H. apply base_name_spec in H as (_ & _ & _ & Hs).
  apply not_true_is_false. intros [stem ->]%endsWith_spec.
  rewrite no_slash_append in Hs. apply orb_false_iff in Hs as [_ Hs].
  by cbn in Hs.
Qed.

(** [path.join(uploadsDir, name)] of a base name is the file of that name
    in [uploads/]. *)
Lemma existing_kept (s : Filesystem.state) (name : string)
    (st : Filesystem.stats) :
  Filesystem.uploads s !! name = Some st ->
  Filesystem.existing s name = Some (Filesystem.Kept name st).
Proof. intros H. unfold Filesystem.existing. by rewrite H. Qed.

Lemma locate_base (s : Filesystem.state) (name : string) :
  base_name name = true ->
  Filesystem.locate s name
  = Filesystem.Kept name <$> Filesystem.uploads s !! name.
Proof.
  intros H. unfold Filesystem.locate.
  by rewrite base_name_no_nul, path_join_base, under_app,
    base_name_no_trailing_slash.
Qed.

Lemma existing_base (s : Filesystem.state) (name : string) :
  base_name name = true ->
  Filesystem.existing s name
  = Filesystem.Kept name <$> Filesystem.uploads s !! name.
Proof.
  intros H. unfold Filesystem.existing. rewrite locate_base by done.
  by destruct (Filesystem.uploads s !! name).
Qed.

(** With base names for keys, what exists is what the joined path finds. *)
Lemma existing_locate (s : Filesystem.state) (name : string) :
  keys_are_base_names s ->
  Filesystem.existing s name = Filesystem.locate s name.
Proof.
  intros Hkeys. unfold Filesystem.existing.
  destruct (Filesystem.uploads s !! name) as [st | ] eqn:Hst; [ | done ].
  rewrite locate_base, Hst; [ done | ]. apply Hkeys. by rewrite Hst.
Qed.

(** What a joined path can come out at. *)
Lemma existing_cases (s : Filesystem.state) (name : string) :
  Filesystem.existing s name = None
  \/ (exists base st,
        Filesystem.existing s name = Some (Filesystem.Kept base st)
        /\ Filesystem.uploads s !! base = Some st
        /\ (is_Some (Filesystem.uploads s !! name) -> base = name))
  \/ (exists path e,
        Filesystem.existing s name = Some (Filesystem.Other path e)
        /\ Filesystem.uploads s !! name = None).
Proof.
  unfold Filesystem.existing, Filesystem.locate.
  destruct (Filesystem.uploads s !! name) as [st | ] eqn:Hst.
  { right. left. by exists name, st. }
  destruct (Filesystem.has_nul name); [ by left | ].
  destruct (Filesystem.under _ _) as [[ | base [ | ]] | ].
  2: { destruct (endsWith name "/"); [ by left | ].
       destruct (Filesystem.uploads s !! base) as [st | ] eqn:Hb;
         [ | by left ].
       right. left. exists base, st. cbn. split; [ done | ].
       split; [ done | ]. by intros [? ?]. }
  all: destruct (Filesystem.beside s !! _) as [e | ]; [ | by left ].
  all: destruct (_ && _); [ by left | ].
  all: right; right; by eexists _, _.
Qed.

(** DELETE /images/:filename, case by case. *)
Lemma fs_delete_cases (q : fault) (name : string) (s : Filesystem.state) :
  let out := Filesystem.delete_handler q name s in
  let t := match q with
           | None => Filesystem.delete_row name (Filesystem.db s)
           | Some _ => Filesystem.db s
           end in
  (Filesystem.existing s name = None /\ out = (s, not_found))
  \/ (exists base st,
        Filesystem.existing s name = Some (Filesystem.Kept base st)
        /\ Filesystem.uploads s !! base = Some st
        /\ (is_Some (Filesystem.uploads s !! name) -> base = name)
        /\ out = (Filesystem.State t (delete base (Filesystem.uploads s))
                    (Filesystem.dirname s) (Filesystem.beside s), deleted))
  \/ (exists path e,
        Filesystem.existing s name = Some (Filesystem.Other path e)
        /\ Filesystem.uploads s !! name = None
        /\ out = match Filesystem.unlink_error e with
                 | Some message =>
                     (s, res_status_json 500
                           (JObj [("success", JBool false);
                                  ("message", JStr "Error deleting image");
                                  ("error", JStr message)]))
                 | None =>
                     (Filesystem.State t (Filesystem.uploads s)
                        (Filesystem.dirname s)
                        (delete path (Filesystem.beside s)), deleted)
                 end).
Proof.
  intros out t. subst out. unfold Filesystem.delete_handler.
  destruct (existing_cases s name)
    as [H | [(base & st & H & Hb & Hn) | (path & e & H & Hn)]]; rewrite H.
  - by left.
  - right. left. by exists base, st.
  - right. right. exists path, e. split; [ done | ]. split; [ done | ].
    cbn. by destruct (Filesystem.unlink_error e).
Qed.

Lemma fs_delete_db (q : fault) (name : string) (s : Filesystem.state) :
  let t := Filesystem.db (fst (Filesystem.delete_handler q name s)) in
  t = Filesystem.db s \/ t = Filesystem.delete_row name (Filesystem.db s).
Proof.
  cbn. destruct (fs_delete_cases q name s)
    as [[_ ->] | [(base & st & _ & _ & _ & ->) | (path & e & _ & _ & ->)]].
  - by left.
  - destruct q; cbn; auto.
  - destruct (Filesystem.unlink_error e), q; cbn; auto.
Qed.

(** A delete removes files, and stores none. *)
Lemma fs_delete_uploads (q : fault) (name other : string)
    (s : Filesystem.state) :
  let dir := Filesystem.uploads (fst (Filesystem.delete_handler q name s)) in
  dir !! other = None \/ dir !! other = Filesystem.uploads s !! other.
Proof.
  cbn. destruct (fs_delete_cases q name s)
    as [[_ ->] | [(base & st & _ & _ & _ & ->) | (path & e & _ & _ & ->)]].
  - by right.
  - cbn. destruct (decide (base = other)) as [-> | Hne].
    + left. apply lookup_delete_eq.
    + right. by apply lookup_delete_ne.
  - right. by destruct (Filesystem.unlink_error e).
Qed.

(** ** Invariants of the filesystem variant *)

Lemma fs_upsert_unique (now : time) (name original : string) (sz : N)
    (t : Filesystem.table) :
  unique Filesystem.row_filename (Filesystem.rows t) ->
  unique Filesystem.row_filename
    (Filesystem.rows (Filesystem.upsert now name original sz t)).
Proof. intros H. by apply on_conflict_update_unique. Qed.

Lemma fs_step_unique (s : Filesystem.state) (o : Filesystem.op) :
  unique Filesystem.row_filename (Filesystem.rows (Filesystem.db s)) ->
  unique Filesystem.row_filename
    (Filesystem.rows (Filesystem.db (Filesystem.step s o))).
Proof.
  intros H. destruct o as [req now q upload | q name]; cbn.
  - unfold Filesystem.post_upload.
    destruct (multer_filter upload) as [e | | p | p]; cbn; try done.
    destruct q; cbn; [ done | by apply fs_upsert_unique ].
  - destruct (fs_delete_db q name s) as [-> | ->]; [ done | ].
    by apply delete_where_unique.
Qed.

Lemma foldl_invariant {A B} (P : A -> Prop) (f : A -> B -> A) (l : list B) (a : A) :
  (forall a b, P a -> P (f a b)) -> P a -> P (foldl f a l).
Proof.
  intros Hf. revert a. induction l as [ | b l IH ]; intros a Ha; cbn; auto.
Qed.

Lemma fs_run_unique (ops : list Filesystem.op) :
  unique Filesystem.row_filename
    (Filesystem.rows (Filesystem.db (Filesystem.run ops))).
Proof.
  unfold Filesystem.run.
  apply (foldl_invariant
           (fun s => unique Filesystem.row_filename
                       (Filesystem.rows (Filesystem.db s)))).
  - intros s o. apply fs_step_unique.
  - apply NoDup_nil_2.
Qed.

(** ** Invariants of the inline variant *)

Lemma inline_upsert_ok (now : time) (name original : string) (sz : N)
    (svg : text) (t : Inline.table) :
  table_ok t -> table_ok (Inline.upsert now name original sz svg svg_mime t).
Proof.
  intros [Hu Hm]. split; cbn.
  - by apply on_conflict_update_unique.
  - by apply on_conflict_update_Forall.
Qed.

Lemma inline_delete_ok (name : string) (t : Inline.table) :
  table_ok t -> table_ok (fst (Inline.delete_returning name t)).
Proof.
  intros [Hu Hm]. split; cbn.
  - by apply delete_where_unique.
  - by apply delete_where_Forall.
Qed.

Lemma inline_upload_handler_ok (req : request) (now : time) (q : fault)
    (f : option Inline.file) (t : Inline.table) :
  table_ok t -> table_ok (fst (Inline.upload_handler req now q f t)).
Proof.
  intros H. unfold Inline.upload_handler.
  destruct f as [f | ]; [ | done ].
  destruct (negb _ || negb _); [ done | ].
  destruct q; [ done | by apply inline_upsert_ok ].
Qed.

Lemma inline_step_ok (t : Inline.table) (o : Inline.op) :
  table_ok t -> table_ok (Inline.step t o).
Proof.
  intros H. destruct o as [req now q upload | q name]; cbn.
  - unfold Inline.post_upload.
    destruct (multer_filter upload); try done;
      by apply inline_upload_handler_ok.
  - unfold Inline.delete_handler. destruct q; [ done | ].
    pose proof (inline_delete_ok name t H) as H'.
    destruct (Inline.delete_returning name t) as [t' n].
    by destruct (n =? 0).
Qed.

Lemma inline_boot_ok (legacy : option (list Filesystem.op)) :
  table_ok (Inline.boot legacy).
Proof.
  destruct legacy as [ops | ]; cbn.
  - split.
    + unfold unique, Inline.boot, Inline.initDb, Inline.rows.
      rewrite <- list_fmap_compose. apply (fs_run_unique ops).
    + apply Forall_fmap, Forall_forall. by intros r _.
  - split; [ apply NoDup_nil_2 | constructor ].
Qed.

Lemma inline_run_ok (legacy : option (list Filesystem.op))
    (ops : list Inline.op) :
  table_ok (Inline.run legacy ops).
Proof.
  unfold Inline.run. apply (foldl_invariant table_ok).
  - apply inline_step_ok.
  - apply inline_boot_ok.
Qed.

(** ** Texts *)

Lemma is_text_spec (s : text) : is_text s = true -> Forall scalar_value s.
Proof.
  unfold is_text. rewrite forallb_forall, Forall_forall.
  intros H c Hc%list_elem_of_In. specialize (H c Hc).
  apply andb_true_iff in H as [Hmax Hsur].
  apply N.ltb_lt in Hmax. apply negb_true_iff in Hsur.
  split; [ done | ]. intros [Hl Hu]. unfold is_surrogate in Hsur.
  apply andb_false_iff in Hsur as [Hsur | Hsur]; apply N.leb_gt in Hsur; lia.
Qed.

(** ** Serving an image *)

Lemma serve_missing (name : string) (t : Inline.table) :
  (forall r, r ∈ Inline.rows t -> Inline.row_filename r <> name) ->
  Inline.serve_handler None name t = not_found.
Proof.
  intros H. unfold Inline.serve_handler, Inline.select_named.
  by rewrite select_where_none.
Qed.

Lemma serve_row (name : string) (t : Inline.table) (r : Inline.row) :
  unique Inline.row_filename (Inline.rows t) ->
  r ∈ Inline.rows t -> Inline.row_filename r = name ->
  Inline.serve_handler None name t =
    match Inline.content r with
    | None | Some [] =>
        res_status_json 404
          (JObj [("success", JBool false);
                 ("message",
                  JStr "Image content not available. Please re-upload the image.")])
    | Some svg => served (or_string (Inline.mime_type r) svg_mime) svg
    end.
Proof.
  intros Hu Hr Hn. unfold Inline.serve_handler, Inline.select_named.
  rewrite (select_where_unique _ name _ r Hu Hr Hn).
  by destruct (Inline.content r) as [[ | c svg] | ].
Qed.

Lemma serve_after_upsert (now : time) (name original : string) (sz : N)
    (svg : text) (t : Inline.table) :
  table_ok t -> svg <> [] ->
  Inline.serve_handler None name
    (Inline.upsert now name original sz svg svg_mime t) =
  served svg_mime svg.
Proof.
  intros Hok Hsvg.
  pose proof (inline_upsert_ok now name original sz svg t Hok) as [Hu Hm].
  assert (exists r, r ∈ Inline.rows (Inline.upsert now name original sz svg svg_mime t)
                    /\ Inline.row_filename r = name
                    /\ Inline.content r = Some svg) as (r & Hr & Hn & Hc).
  { assert (exists r, select_where Inline.row_filename name
              (Inline.rows (Inline.upsert now name original sz svg svg_mime t))
              = [r] /\ Inline.content r = Some svg) as (r & Hsel & Hc).
    { cbn [Inline.upsert Inline.rows].
      rewrite select_on_conflict_update by done.
      destruct (existsb _ (Inline.rows t)) eqn:He; [ | by eexists ].
      apply existsb_named in He as (r & Hr & Hn).
      rewrite (select_where_unique _ name _ r (proj1 Hok) Hr Hn).
      by eexists. }
    assert (r ∈ select_where Inline.row_filename name
              (Inline.rows (Inline.upsert now name original sz svg svg_mime t)))
      as [Hr Hn]%select_where_elem by (rewrite Hsel; by left).
    by exists r. }
  rewrite (serve_row name _ r Hu Hr Hn), Hc.
  rewrite Forall_forall in Hm. rewrite (Hm r Hr).
  by destruct svg.
Qed.

(** A POST /upload answered with 200 went through the filter, the limit,
    the check of the text and the database. *)
Lemma inline_upload_200 (req : request) (now : time) (q : fault)
    (upload : option part) (t : Inline.table) :
  status (snd (Inline.post_upload req now q upload t)) = 200 ->
  exists p,
    upload = Some p /\ is_svg p /\ byteLength (part_data p) <= fileSize
    /\ includes (toString_utf8 (part_data p)) (code_points "<svg") = true
    /\ includes (toString_utf8 (part_data p)) (code_points "</svg>") = true
    /\ q = None
    /\ fst (Inline.post_upload req now q upload t) =
         Inline.upsert now (part_name p) (part_name p)
           (byteLength (part_data p)) (toString_utf8 (part_data p)) svg_mime t.
Proof.
  unfold Inline.post_upload. destruct upload as [p | ]; [ | done ].
  rewrite multer_filter_cases.
  destruct (is_svg_dec p) as [Hsvg | Hsvg]; [ | done ].
  destruct (N.ltb_spec fileSize (byteLength (part_data p))) as [Hbig | Hfit];
    [ done | ].
  unfold Inline.upload_handler. cbn [Inline.memoryStorage Inline.file_buffer
    Inline.originalname Inline.file_size].
  destruct (includes _ (code_points "<svg")) eqn:H1; [ | done ].
  destruct (includes _ (code_points "</svg>")) eqn:H2; [ | done ].
  cbn [negb orb]. destruct q as [msg | ]; [ done | ].
  intros _. by exists p.
Qed.

(** ** Upload, then fetch *)

(** C1 as stated fails: the upload handler keeps the text that
    [buffer.toString('utf8')] reads, and [res.send] writes that text out as
    UTF-8.  A well-formed SVG in ISO-8859-1 is taken with 200, and its byte
    E9 comes back as EF BF BD. *)
Lemma latin1_upload_counterexample :
  let req := Request "https" "img.example" in
  let head := code_points "<?xml version='1.0' encoding='ISO-8859-1'?><svg xmlns='http://www.w3.org/2000/svg'><title>caf" in
  let tail := code_points "</title></svg>" in
  let p := Part "a.svg" svg_mime (head ++ [0xE9] ++ tail) in
  let out := Inline.post_upload req 1 None (Some p) (Inline.boot None) in
  let r := Inline.get_images req None "a.svg" (fst out) in
  status (snd out) = 200
  /\ status r = 200
  /\ wire r = Some (head ++ [0xEF; 0xBF; 0xBD] ++ tail)
  /\ wire r <> Some (part_data p).
Proof. intros req head tail p out r. by vm_compute. Qed.

(** C1, amended.  An upload under the name a.svg whose bytes are UTF-8
    text, answered with 200 by the inline variant in any state it can be
    in, is followed by a GET /images/a.svg that answers 200 with, byte for
    byte, what was uploaded.  The handler sets Content-Type image/svg+xml,
    and what goes out is image/svg+xml; charset=utf-8. *)
Theorem upload_then_fetch_roundtrip (legacy : option (list Filesystem.op))
    (ops : list Inline.op) (req req' : request) (now : time) (q : fault)
    (p : part) (svg : text) :
  part_name p = "a.svg" ->
  Forall scalar_value svg ->
  part_data p = utf8_encode svg ->
  status (snd (Inline.post_upload req now q (Some p) (Inline.run legacy ops)))
    = 200 ->
  let t' := fst (Inline.post_upload req now q (Some p) (Inline.run legacy ops)) in
  let r := Inline.get_images req' None "a.svg" t' in
  status r = 200
  /\ getHeader "Content-Type" r = Some "image/svg+xml"
  /\ sent_content_type r = "image/svg+xml; charset=utf-8"
  /\ payload r = Send svg
  /\ wire r = Some (part_data p).
Proof.
  intros Hname Hsvg Hdata H200 t' r.
  apply inline_upload_200 in H200
    as (p' & [= <-] & _ & _ & Hopen & _ & _ & Ht').
  subst t' r. rewrite Ht', Hname. unfold Inline.get_images.
  change (String.eqb (toLowerCase "a.svg") "list") with false. cbn match.
  rewrite serve_after_upsert.
  - unfold toString_utf8. rewrite Hdata, utf8_decode_encode by done.
    by repeat split.
  - apply inline_run_ok.
  - by apply (includes_nonempty _ (code_points "<svg")).
Qed.

Lemma upload_then_fetch_roundtrip_witness :
  let p := Part "a.svg" "image/svg+xml" (utf8_encode (code_points "<svg></svg>")) in
  let req := Request "https" "img.example" in
  let t' := fst (Inline.post_upload req 7 None (Some p) (Inline.run None [])) in
  let r := Inline.get_images req None "a.svg" t' in
  status r = 200
  /\ sent_content_type r = "image/svg+xml; charset=utf-8"
  /\ wire r = Some (part_data p).
Proof.
  intros p req t' r.
  destruct (upload_then_fetch_roundtrip None [] req req 7 None p
              (code_points "<svg></svg>") eq_refl)
    as (Hstatus & _ & Htype & _ & Hwire);
    [ by apply is_text_spec | reflexivity | reflexivity | ].
  split; [ exact Hstatus | ]. split; [ exact Htype | exact Hwire ].
Defined.

(** C5.  GET /images/:filename in the inline variant, the query answered:
    404 when no row has the name; 404 when the row's content is NULL or
    empty; otherwise 200 with the row's MIME type as Content-Type
    (image/svg+xml when that is NULL or empty), Cache-Control public,
    max-age=31536000, and the stored text as the body. *)
Theorem serve_handler_contract (t : Inline.table) (name : string) :
  unique Inline.row_filename (Inline.rows t) ->
  let r := Inline.serve_handler None name t in
  ((forall x, x ∈ Inline.rows t -> Inline.row_filename x <> name) ->
   status r = 404)
  /\ (forall x, x ∈ Inline.rows t -> Inline.row_filename x = name ->
      match Inline.content x with
      | None | Some [] => status r = 404
      | Some svg =>
          status r = 200
          /\ getHeader "Content-Type" r =
               Some match Inline.mime_type x with
                    | None | Some "" => "image/svg+xml"
                    | Some mime => mime
                    end
          /\ getHeader "Cache-Control" r = Some "public, max-age=31536000"
          /\ payload r = Send svg
      end).
Proof.
  intros Hu r. subst r. split.
  - intros Hnone. by rewrite serve_missing.
  - intros x Hx Hn. rewrite (serve_row name t x Hu Hx Hn).
    destruct (Inline.content x) as [[ | c svg] | ]; try done.
    cbn. repeat split.
    destruct (Inline.mime_type x) as [[ | a m] | ]; done.
Qed.

Lemma serve_handler_contract_witness :
  let t := Inline.Table
             [Inline.Row 1 "a.svg" (Some "a.svg") (Some 6)
                (Some (code_points "<svg/>")) None (Some 3);
              Inline.Row 2 "old.svg" (Some "old.svg") (Some 9) None
                (Some "image/svg+xml") (Some 1)] 3 in
  unique Inline.row_filename (Inline.rows t)
  /\ status (Inline.serve_handler None "b.svg" t) = 404
  /\ status (Inline.serve_handler None "old.svg" t) = 404
  /\ status (Inline.serve_handler None "a.svg" t) = 200
  /\ getHeader "Content-Type" (Inline.serve_handler None "a.svg" t)
       = Some "image/svg+xml"
  /\ payload (Inline.serve_handler None "a.svg" t)
       = Send (code_points "<svg/>").
Proof.
  intros t.
  assert (unique Inline.row_filename (Inline.rows t)) as Hu by compute_done.
  split; [ exact Hu | ].
  split; [ | split ].
  - apply (serve_handler_contract t "b.svg" Hu). intros x Hx. set_unfold in Hx.
    by destruct Hx as [-> | [-> | []]].
  - by apply (proj2 (serve_handler_contract t "old.svg" Hu)
                (Inline.Row 2 "old.svg" (Some "old.svg") (Some 9) None
                   (Some "image/svg+xml") (Some 1)));
      [ repeat constructor | ].
  - pose proof (proj2 (serve_handler_contract t "a.svg" Hu)
                  (Inline.Row 1 "a.svg" (Some "a.svg") (Some 6)
                     (Some (code_points "<svg/>")) None (Some 3))
                  ltac:(repeat constructor) eq_refl) as (H1 & H2 & _ & H4).
    by repeat split.
Defined.

(** C10.  In every state the inline variant can be in, whatever MIME types
    the clients announced, every row holds mime_type image/svg+xml, an
    upload leaves it so, and GET /images/:filename, when it serves an image,
    serves it with that Content-Type. *)
Theorem uploaded_rows_are_svg (legacy : option (list Filesystem.op))
    (ops : list Inline.op) :
  let t := Inline.run legacy ops in
  (forall r, r ∈ Inline.rows t -> Inline.mime_type r = Some "image/svg+xml")
  /\ (forall req now q p r,
        r ∈ Inline.rows (fst (Inline.post_upload req now q (Some p) t)) ->
        Inline.mime_type r = Some "image/svg+xml")
  /\ (forall name,
        getHeader "Content-Type" (Inline.serve_handler None name t) =
          if status (Inline.serve_handler None name t) =? 200
          then Some "image/svg+xml" else None).
Proof.
  intros t. pose proof (inline_run_ok legacy ops) as Hok. fold t in Hok.
  split; [ | split ].
  - destruct Hok as [_ Hm]. by rewrite Forall_forall in Hm.
  - intros req now q p r.
    pose proof (inline_step_ok t (Inline.Upload req now q (Some p)) Hok)
      as [_ Hm].
    rewrite Forall_forall in Hm. apply Hm.
  - intros name. destruct Hok as [Hu Hm]. rewrite Forall_forall in Hm.
    destruct (existsb (named Inline.row_filename name) (Inline.rows t)) eqn:He.
    + apply existsb_named in He as (r & Hr & Hn).
      rewrite (serve_row name t r Hu Hr Hn), (Hm r Hr).
      by destruct (Inline.content r) as [[ | c svg] | ].
    + rewrite serve_missing; [ done | ]. by apply existsb_named_false.
Qed.

Lemma uploaded_rows_are_svg_witness :
  let req := Request "https" "img.example" in
  let a := Part "a.svg" "text/plain" (utf8_encode (code_points "<svg></svg>")) in
  let t := Inline.run None [Inline.Upload req 1 None (Some a)] in
  Forall (fun r => Inline.mime_type r = Some "image/svg+xml") (Inline.rows t)
  /\ getHeader "Content-Type" (Inline.serve_handler None "a.svg" t)
       = Some "image/svg+xml".
Proof.
  intros req a t.
  destruct (uploaded_rows_are_svg None [Inline.Upload req 1 None (Some a)])
    as (Hrows & _ & Hserve).
  split.
  - by apply Forall_forall.
  - apply (Hserve "a.svg").
Defined.

(** ** Answers of the upload route *)

Lemma inline_rejected (req : request) (now : time) (q : fault) (p : part)
    (t : Inline.table) :
  ~ is_svg p -> Inline.post_upload req now q (Some p) t = (t, only_svg_allowed).
Proof.
  intros H. unfold Inline.post_upload. rewrite multer_filter_cases.
  by destruct (is_svg_dec p).
Qed.

Lemma fs_rejected (req : request) (now : time) (q : fault) (p : part)
    (s : Filesystem.state) :
  ~ is_svg p -> Filesystem.post_upload req now q (Some p) s = (s, only_svg_allowed).
Proof.
  intros H. unfold Filesystem.post_upload. rewrite multer_filter_cases.
  by destruct (is_svg_dec p).
Qed.

Lemma inline_too_large (req : request) (now : time) (q : fault) (p : part)
    (t : Inline.table) :
  is_svg p -> fileSize < byteLength (part_data p) ->
  Inline.post_upload req now q (Some p) t = (t, file_too_large).
Proof.
  intros H Hbig. unfold Inline.post_upload. rewrite multer_filter_cases.
  destruct (is_svg_dec p); [ | done ].
  by rewrite (proj2 (N.ltb_lt _ _) Hbig).
Qed.

Lemma fs_too_large (req : request) (now : time) (q : fault) (p : part)
    (s : Filesystem.state) :
  is_svg p -> fileSize < byteLength (part_data p) ->
  Filesystem.post_upload req now q (Some p) s =
    (Filesystem.State (Filesystem.db s)
       (delete (part_name p) (Filesystem.uploads s))
       (Filesystem.dirname s) (Filesystem.beside s),
     file_too_large).
Proof.
  intros H Hbig. unfold Filesystem.post_upload. rewrite multer_filter_cases.
  destruct (is_svg_dec p); [ | done ].
  by rewrite (proj2 (N.ltb_lt _ _) Hbig).
Qed.

Lemma inline_accepted (req : request) (now : time) (q : fault) (p : part)
    (t : Inline.table) :
  is_svg p -> byteLength (part_data p) <= fileSize ->
  Inline.post_upload req now q (Some p) t =
    Inline.upload_handler req now q (Some (Inline.memoryStorage p)) t.
Proof.
  intros H Hfit. unfold Inline.post_upload. rewrite multer_filter_cases.
  destruct (is_svg_dec p); [ | done ].
  by rewrite (proj2 (N.ltb_ge _ _) Hfit).
Qed.

Lemma fs_accepted (req : request) (now : time) (q : fault) (p : part)
    (s : Filesystem.state) :
  is_svg p -> byteLength (part_data p) <= fileSize ->
  Filesystem.post_upload req now q (Some p) s =
    (Filesystem.State
       (fst (Filesystem.upload_handler req now q
               (Some (Filesystem.stored p)) (Filesystem.db s)))
       (Filesystem.diskStorage now p (Filesystem.uploads s))
       (Filesystem.dirname s) (Filesystem.beside s),
     snd (Filesystem.upload_handler req now q
            (Some (Filesystem.stored p)) (Filesystem.db s))).
Proof.
  intros H Hfit. unfold Filesystem.post_upload. rewrite multer_filter_cases.
  destruct (is_svg_dec p); [ | done ].
  by rewrite (proj2 (N.ltb_ge _ _) Hfit).
Qed.

Lemma inline_invalid_svg (req : request) (now : time) (q : fault)
    (f : Inline.file) (t : Inline.table) :
  ~ (contains (toString_utf8 (Inline.file_buffer f)) (code_points "<svg")
     /\ contains (toString_utf8 (Inline.file_buffer f)) (code_points "</svg>")) ->
  Inline.upload_handler req now q (Some f) t = (t, invalid_svg).
Proof.
  intros H. unfold Inline.upload_handler.
  destruct (includes _ (code_points "<svg")) eqn:H1; [ | done ].
  destruct (includes _ (code_points "</svg>")) eqn:H2; [ | done ].
  destruct H. by rewrite <- !includes_spec.
Qed.

Lemma inline_database_error (req : request) (now : time) (msg : string)
    (f : Inline.file) (t : Inline.table) :
  contains (toString_utf8 (Inline.file_buffer f)) (code_points "<svg") ->
  contains (toString_utf8 (Inline.file_buffer f)) (code_points "</svg>") ->
  Inline.upload_handler req now (Some msg) (Some f) t = (t, database_error).
Proof.
  intros H1%includes_spec H2%includes_spec. unfold Inline.upload_handler.
  by rewrite H1, H2.
Qed.

(** C7.  The inline variant's upload handler answers a file whose text,
    decoded as UTF-8, does not contain both <svg and </svg> with 400 and
    the message Invalid SVG file format; the table is left as it was and no
    query is made (the answer does not depend on the database), also when
    the file came through the whole route. *)
Theorem invalid_svg_rejected (req : request) (now : time) (q : fault)
    (f : Inline.file) (t : Inline.table) :
  ~ (contains (toString_utf8 (Inline.file_buffer f)) (code_points "<svg")
     /\ contains (toString_utf8 (Inline.file_buffer f)) (code_points "</svg>")) ->
  Inline.upload_handler req now q (Some f) t =
    (t, Response 400 []
          (Json (JObj [("success", JBool false);
                       ("message", JStr "Invalid SVG file format")])))
  /\ (forall p, Inline.memoryStorage p = f -> is_svg p ->
        byteLength (part_data p) <= fileSize ->
        Inline.post_upload req now q (Some p) t =
          (t, Response 400 []
                (Json (JObj [("success", JBool false);
                             ("message", JStr "Invalid SVG file format")])))).
Proof.
  intros H. split.
  - by apply inline_invalid_svg.
  - intros p <- Hsvg Hfit. rewrite inline_accepted by done.
    by apply inline_invalid_svg.
Qed.

Lemma invalid_svg_rejected_witness :
  let p := Part "notes.svg" "image/svg+xml"
             (utf8_encode (code_points "<svg>never closed")) in
  let req := Request "https" "img.example" in
  Inline.post_upload req 7 None (Some p) (Inline.boot None) =
    (Inline.boot None,
     Response 400 []
       (Json (JObj [("success", JBool false);
                    ("message", JStr "Invalid SVG file format")]))).
Proof.
  intros p req.
  refine (proj2 (invalid_svg_rejected req 7 None (Inline.memoryStorage p)
                   (Inline.boot None) _) p eq_refl _ _).
  - rewrite <- !includes_spec. by intros [_ H].
  - by left.
  - by vm_compute.
Defined.

Lemma byteLength_repeat (b : byte) (n : N) :
  byteLength (repeat b (N.to_nat n)) = n.
Proof. unfold byteLength. by rewrite repeat_length, N2Nat.id. Qed.

(** C3.  What the code does with a file that is no SVG (its MIME type is
    not image/svg+xml and its lowered name does not end in .svg): the file
    filter's error goes to the error handling middleware, which answers 500
    with the filter's message, in both variants; the table and the uploads
    directory are left as they were. *)
Theorem non_svg_upload_answer (req : request) (now : time) (q : fault)
    (p : part) :
  part_mimetype p <> "image/svg+xml" ->
  endsWith (toLowerCase (part_name p)) ".svg" = false ->
  (forall t, Inline.post_upload req now q (Some p) t =
     (t, Response 500 []
           (Json (JObj [("success", JBool false);
                        ("message", JStr "Only SVG files are allowed!")]))))
  /\ (forall s, Filesystem.post_upload req now q (Some p) s =
        (s, Response 500 []
              (Json (JObj [("success", JBool false);
                           ("message", JStr "Only SVG files are allowed!")])))).
Proof.
  intros Hmime Hname.
  assert (~ is_svg p) as H
    by (intros [E | E]; [ by apply Hmime | by rewrite Hname in E ]).
  split; intros; [ by apply inline_rejected | by apply fs_rejected ].
Qed.

Lemma non_svg_upload_answer_witness :
  let p := Part "photo.png" "image/png" [137; 80; 78; 71] in
  let req := Request "https" "img.example" in
  status (snd (Inline.post_upload req 7 None (Some p) (Inline.boot None))) = 500
  /\ status (snd (Filesystem.post_upload req 7 None (Some p) Filesystem.boot)) = 500.
Proof.
  intros p req.
  destruct (non_svg_upload_answer req 7 None p) as [Hi Hf]; [ done | done | ].
  by rewrite Hi, Hf.
Defined.

(** C8 as stated fails: a file over 5 MiB that the file filter turns down
    is answered by the filter's error, 500 Only SVG files are allowed!, not
    by 400 File too large. *)
Lemma oversize_upload_counterexample :
  let p := Part "photo.png" "image/png" (repeat 0 (N.to_nat 5242881)) in
  let req := Request "https" "img.example" in
  5 * 1024 * 1024 < byteLength (part_data p)
  /\ Inline.post_upload req 7 None (Some p) (Inline.boot None) =
       (Inline.boot None,
        Response 500 []
          (Json (JObj [("success", JBool false);
                       ("message", JStr "Only SVG files are allowed!")])))
  /\ status (snd (Inline.post_upload req 7 None (Some p) (Inline.boot None)))
       <> 400.
Proof.
  intros p req.
  assert (~ is_svg p) as H by (by intros [? | ?]).
  split; [ | split ].
  - cbn [part_data p]. by rewrite byteLength_repeat.
  - by apply inline_rejected.
  - by rewrite inline_rejected.
Qed.

(** C8, amended.  An upload that the file filter lets through and that is
    larger than 5 MiB is answered with 400 and the message File too large.
    Maximum size is 5MB.; nothing of it remains: the inline variant's table
    is as it was, and in the filesystem variant the table is as it was and
    no file stands under the upload's name. *)
Theorem oversize_svg_rejected (req : request) (now : time) (q : fault)
    (p : part) :
  is_svg p ->
  5 * 1024 * 1024 < byteLength (part_data p) ->
  (forall t, Inline.post_upload req now q (Some p) t =
     (t, Response 400 []
           (Json (JObj [("success", JBool false);
                        ("message", JStr "File too large. Maximum size is 5MB.")]))))
  /\ (forall s,
        snd (Filesystem.post_upload req now q (Some p) s) =
          Response 400 []
            (Json (JObj [("success", JBool false);
                         ("message", JStr "File too large. Maximum size is 5MB.")]))
        /\ Filesystem.db (fst (Filesystem.post_upload req now q (Some p) s))
             = Filesystem.db s
        /\ Filesystem.uploads (fst (Filesystem.post_upload req now q (Some p) s))
             !! part_name p = None
        /\ (forall other, other <> part_name p ->
              Filesystem.uploads (fst (Filesystem.post_upload req now q (Some p) s))
                !! other = Filesystem.uploads s !! other)).
Proof.
  intros Hsvg Hbig. split.
  - intros t. by apply inline_too_large.
  - intros s. rewrite fs_too_large by done. cbn. repeat split.
    + apply lookup_delete_eq.
    + intros other Hne. by apply lookup_delete_ne.
Qed.

Lemma oversize_svg_rejected_witness :
  let p := Part "big.svg" "image/svg+xml" (repeat 32 (N.to_nat 5242881)) in
  let req := Request "https" "img.example" in
  is_svg p
  /\ 5 * 1024 * 1024 < byteLength (part_data p)
  /\ status (snd (Inline.post_upload req 7 None (Some p) (Inline.boot None))) = 400.
Proof.
  intros p req.
  assert (is_svg p) as Hsvg by (by left).
  assert (5 * 1024 * 1024 < byteLength (part_data p)) as Hbig
    by (cbn [part_data p]; by rewrite byteLength_repeat).
  split; [ done | ]. split; [ done | ].
  by rewrite (proj1 (oversize_svg_rejected req 7 None p Hsvg Hbig)).
Defined.

(** C4.  When the upsert of an upload fails, the inline variant answers
    500 with the message Database error while saving image and success
    false; the filesystem variant, which has written the file by then,
    answers 200 with success true and leaves the table as it was. *)
Theorem upsert_failure_answers (req : request) (now : time) (msg : string)
    (p : part) :
  is_svg p ->
  byteLength (part_data p) <= fileSize ->
  (contains (toString_utf8 (part_data p)) (code_points "<svg") ->
   contains (toString_utf8 (part_data p)) (code_points "</svg>") ->
   forall t,
     Inline.post_upload req now (Some msg) (Some p) t =
       (t, Response 500 []
             (Json (JObj [("success", JBool false);
                          ("message", JStr "Database error while saving image")]))))
  /\ (forall s,
        let out := Filesystem.post_upload req now (Some msg) (Some p) s in
        status (snd out) = 200
        /\ field "success" (json_body (snd out)) = Some (JBool true)
        /\ field "message" (json_body (snd out))
             = Some (JStr "SVG image uploaded successfully")
        /\ Filesystem.db (fst out) = Filesystem.db s
        /\ Filesystem.data <$> (Filesystem.uploads (fst out) !! part_name p)
             = Some (part_data p)).
Proof.
  intros Hsvg Hfit. split.
  - intros H1 H2 t. rewrite inline_accepted by done.
    by apply inline_database_error.
  - intros s out. subst out. rewrite fs_accepted by done. cbn.
    repeat split. unfold Filesystem.diskStorage. by rewrite lookup_insert_eq.
Qed.

Lemma upsert_failure_answers_witness :
  let p := Part "a.svg" "image/svg+xml" (utf8_encode (code_points "<svg></svg>")) in
  let req := Request "https" "img.example" in
  status (snd (Inline.post_upload req 7 (Some "connection refused") (Some p)
                 (Inline.boot None))) = 500
  /\ status (snd (Filesystem.post_upload req 7 (Some "connection refused")
                    (Some p) Filesystem.boot)) = 200.
Proof.
  intros p req.
  destruct (upsert_failure_answers req 7 "connection refused" p) as [Hi Hf].
  - by left.
  - by vm_compute.
  - split.
    + rewrite Hi; [ done | | ]; by apply includes_spec.
    + apply (Hf Filesystem.boot).
Defined.

(** ** Deleting *)

Lemma rowCount_zero (name : string) (t : Inline.table) :
  snd (Inline.delete_returning name t) = 0 <->
  forall r, r ∈ Inline.rows t -> Inline.row_filename r <> name.
Proof.
  cbn. split.
  - intros H r Hr Hn.
    assert (r ∈ select_where Inline.row_filename name (Inline.rows t)) as Hsel
      by (by apply select_where_elem).
    destruct (select_where _ _ _); [ by apply elem_of_nil in Hsel | done ].
  - intros H. by rewrite select_where_none.
Qed.

Lemma inline_delete_answer (name : string) (t : Inline.table) :
  Inline.delete_handler None name t =
    (fst (Inline.delete_returning name t),
     if snd (Inline.delete_returning name t) =? 0 then not_found else deleted).
Proof.
  unfold Inline.delete_handler.
  destruct (Inline.delete_returning name t) as [t' n]. cbn.
  by destruct (n =? 0).
Qed.

Lemma inline_delete_twice (name : string) (t : Inline.table) :
  snd (Inline.delete_handler None name (fst (Inline.delete_handler None name t)))
    = not_found.
Proof.
  rewrite !inline_delete_answer. cbn [fst snd].
  assert (snd (Inline.delete_returning name
                 (fst (Inline.delete_returning name t))) = 0) as Hzero.
  { apply rowCount_zero. cbn. by intros r [_ Hr]%delete_where_elem. }
  by rewrite Hzero.
Qed.

Lemma foldl_invariant_in {A B} (P : A -> Prop) (Q : B -> Prop)
    (f : A -> B -> A) (l : list B) (a : A) :
  (forall a b, Q b -> P a -> P (f a b)) -> Forall Q l -> P a -> P (foldl f a l).
Proof.
  intros Hf Hl. revert a. induction Hl as [ | b l Hb _ IH ]; intros a Ha; cbn; auto.
Qed.

Lemma on_conflict_update_absent {R} (key : R -> string) (name other : string)
    (update : R -> R) (fresh : R) (l : list R) :
  (forall r, key (update r) = key r) -> key fresh = other -> other <> name ->
  name ∉ key <$> l ->
  name ∉ key <$> on_conflict_update key other update fresh l.
Proof.
  intros Hup Hfresh Hne Hl. rewrite on_conflict_update_keys by done.
  destruct (existsb _ l); [ done | ].
  rewrite elem_of_app, list_elem_of_singleton. by intros [? | ?].
Qed.

Lemma delete_where_absent {R} (key : R -> string) (name other : string)
    (l : list R) :
  name ∉ key <$> l -> name ∉ key <$> delete_where key other l.
Proof.
  intros Hl (r & Hk & [Hr _]%delete_where_elem)%list_elem_of_fmap.
  apply Hl. rewrite Hk. by apply list_elem_of_fmap_2.
Qed.

Lemma inline_never_uploaded (name : string) (ops : list Inline.op) :
  Forall (fun o => ~ inline_uploads_of name o) ops ->
  name ∉ Inline.row_filename <$> Inline.rows (Inline.run None ops).
Proof.
  unfold Inline.run. intros Hops.
  refine (foldl_invariant_in
            (fun t => name ∉ Inline.row_filename <$> Inline.rows t)
            _ _ _ _ _ Hops _).
  - intros t [req now q upload | q other] Ho Ht; cbn.
    + unfold Inline.post_upload, multer_filter.
      destruct upload as [p | ]; [ | done ].
      destruct (fileFilter p) as [e | [ | ]]; try done.
      destruct (_ <? _); [ done | ].
      unfold Inline.upload_handler. destruct (negb _ || negb _); [ done | ].
      destruct q; [ done | ]. cbn.
      by apply on_conflict_update_absent.
    + destruct q as [msg | ]; [ done | ].
      rewrite inline_delete_answer. cbn. by apply delete_where_absent.
  - cbn. apply not_elem_of_nil.
Qed.

Lemma fs_never_uploaded_from (name : string) (s0 : Filesystem.state)
    (ops : list Filesystem.op) :
  Filesystem.uploads s0 !! name = None ->
  Forall (fun o => ~ fs_uploads_of name o) ops ->
  Filesystem.uploads (foldl Filesystem.step s0 ops) !! name = None.
Proof.
  intros H0 Hops.
  refine (foldl_invariant_in (fun s => Filesystem.uploads s !! name = None)
            _ _ _ _ _ Hops H0).
  intros s [req now q upload | q other] Ho Hs; cbn.
  - unfold Filesystem.post_upload, multer_filter.
    destruct upload as [p | ]; [ | done ].
    destruct (fileFilter p) as [e | [ | ]]; try done.
    destruct (_ <? _); cbn.
    + rewrite lookup_delete. by case_decide.
    + unfold Filesystem.diskStorage. rewrite lookup_insert_ne; [ done | ].
      intros E. by apply Ho.
  - destruct (fs_delete_uploads q other name s) as [H | H]; [ done | ].
    cbn in H. by rewrite H.
Qed.

Lemma fs_never_uploaded (name : string) (ops : list Filesystem.op) :
  Forall (fun o => ~ fs_uploads_of name o) ops ->
  Filesystem.uploads (Filesystem.run ops) !! name = None.
Proof. by apply fs_never_uploaded_from. Qed.

(** The filesystem variant's delete of a base name. *)
Lemma fs_delete_missing (q : fault) (name : string) (s : Filesystem.state) :
  base_name name = true -> Filesystem.uploads s !! name = None ->
  Filesystem.delete_handler q name s = (s, not_found).
Proof.
  intros Hb Hs. unfold Filesystem.delete_handler.
  by rewrite existing_base, Hs.
Qed.

Lemma fs_delete_stored (q : fault) (name : string) (s : Filesystem.state) :
  is_Some (Filesystem.uploads s !! name) ->
  Filesystem.delete_handler q name s =
    (Filesystem.State
       match q with
       | None => Filesystem.delete_row name (Filesystem.db s)
       | Some _ => Filesystem.db s
       end
       (delete name (Filesystem.uploads s))
       (Filesystem.dirname s) (Filesystem.beside s),
     deleted).
Proof.
  intros [st Hs]. unfold Filesystem.delete_handler.
  by rewrite (existing_kept _ _ _ Hs).
Qed.

(** The route parameter ../server.js leads out of [uploads/], to the file
    beside it. *)
Lemma existing_server_js (s : Filesystem.state) :
  Filesystem.uploads s !! "../server.js" = None ->
  Filesystem.existing s "../server.js"
  = Filesystem.Other (Filesystem.dirname s ++ ["server.js"])
      <$> Filesystem.beside s !! (Filesystem.dirname s ++ ["server.js"]).
Proof.
  intros Hs. unfold Filesystem.existing, Filesystem.locate. rewrite Hs.
  change (Filesystem.has_nul "../server.js") with false.
  change (endsWith "../server.js" "/") with false.
  unfold Filesystem.path_join, Filesystem.uploadsDir.
  change (Filesystem.split_slash "" "../server.js") with [".."; "server.js"].
  cbn [Filesystem.walk String.eqb Ascii.eqb Bool.eqb orb].
  rewrite removelast_last.
  rewrite (under_sibling (Filesystem.dirname s) [] "uploads" "server.js")
    by done.
  by destruct (Filesystem.beside s !! _).
Qed.

(** The route parameter . is [uploads/] itself. *)
Lemma existing_dot (s : Filesystem.state) :
  Filesystem.uploads s !! "." = None ->
  Filesystem.existing s "."
  = Filesystem.Other (Filesystem.uploadsDir s)
      <$> Filesystem.beside s !! Filesystem.uploadsDir s.
Proof.
  intros Hs. unfold Filesystem.existing, Filesystem.locate. rewrite Hs.
  change (Filesystem.has_nul ".") with false.
  change (endsWith "." "/") with false.
  unfold Filesystem.path_join.
  change (Filesystem.split_slash "" ".") with ["."].
  cbn [Filesystem.walk String.eqb Ascii.eqb Bool.eqb orb].
  pose proof (under_app (Filesystem.uploadsDir s) []) as H.
  rewrite app_nil_r in H. rewrite H.
  by destruct (Filesystem.beside s !! _).
Qed.

(** C6.  DELETE /images/:filename.  Inline variant, for every name: the
    answer is 404 exactly when the statement's rowCount is 0, which is
    exactly when no row has the name; otherwise it is 200 with success true
    and the message Image deleted successfully; a second delete answers
    404; a name that was never uploaded answers 404.  Filesystem variant,
    for a base name: 404 when [uploads/] has no file of the name, otherwise
    the same 200; a second delete answers 404; a name that was never
    uploaded answers 404, wherever the service is installed.  Filesystem
    variant, for a name that is a path: the handler joins it to the
    directory unchecked, so a delete of ../server.js, never uploaded, is
    answered 200 and removes the file server.js beside [uploads/] (when the
    service may remove it), and a delete of . is answered 500 with the
    message of the error that [fs.unlinkSync] throws for the directory. *)
Theorem delete_contract (name : string) :
  (forall t,
     let out := Inline.delete_handler None name t in
     let rowCount := snd (Inline.delete_returning name t) in
     (status (snd out) = 404 <-> rowCount = 0)
     /\ (rowCount = 0 <->
         forall r, r ∈ Inline.rows t -> Inline.row_filename r <> name)
     /\ (rowCount <> 0 ->
         snd out =
           Response 200 []
             (Json (JObj [("success", JBool true);
                          ("message", JStr "Image deleted successfully")])))
     /\ status (snd (Inline.delete_handler None name (fst out))) = 404)
  /\ (forall ops,
        Forall (fun o => ~ inline_uploads_of name o) ops ->
        status (snd (Inline.delete_handler None name (Inline.run None ops)))
          = 404)
  /\ (forall q q' s,
        base_name name = true ->
        let out := Filesystem.delete_handler q name s in
        (Filesystem.uploads s !! name = None ->
         status (snd out) = 404 /\ fst out = s)
        /\ (is_Some (Filesystem.uploads s !! name) ->
            snd out =
              Response 200 []
                (Json (JObj [("success", JBool true);
                             ("message", JStr "Image deleted successfully")])))
        /\ status (snd (Filesystem.delete_handler q' name (fst out))) = 404)
  /\ (forall q dir disk ops,
        base_name name = true ->
        Forall (fun o => ~ fs_uploads_of name o) ops ->
        status (snd (Filesystem.delete_handler q name
                       (Filesystem.run_in dir disk ops)))
          = 404)
  /\ (forall q s e,
        let server_js := Filesystem.dirname s ++ ["server.js"] in
        Filesystem.uploads s !! "../server.js" = None ->
        Filesystem.beside s !! server_js = Some e ->
        Filesystem.unlink_error e = None ->
        let out := Filesystem.delete_handler q "../server.js" s in
        snd out =
          Response 200 []
            (Json (JObj [("success", JBool true);
                         ("message", JStr "Image deleted successfully")]))
        /\ Filesystem.beside (fst out) !! server_js = None
        /\ Filesystem.uploads (fst out) = Filesystem.uploads s)
  /\ (forall q s e message,
        Filesystem.uploads s !! "." = None ->
        Filesystem.beside s !! Filesystem.uploadsDir s = Some e ->
        Filesystem.unlink_error e = Some message ->
        let out := Filesystem.delete_handler q "." s in
        out = (s, Response 500 []
                    (Json (JObj [("success", JBool false);
                                 ("message", JStr "Error deleting image");
                                 ("error", JStr message)])))).
Proof.
  split; [ | split; [ | split; [ | split; [ | split ] ] ] ].
  - intros t out rowCount. subst out rowCount.
    split; [ | split; [ | split ] ].
    + rewrite inline_delete_answer. cbn [snd].
      destruct (N.eqb_spec (snd (Inline.delete_returning name t)) 0) as [E | E];
        by split.
    + apply rowCount_zero.
    + intros H. rewrite inline_delete_answer. cbn [snd].
      by destruct (N.eqb_spec (snd (Inline.delete_returning name t)) 0).
    + by rewrite inline_delete_twice.
  - intros ops Hops. rewrite inline_delete_answer. cbn [snd].
    assert (snd (Inline.delete_returning name (Inline.run None ops)) = 0) as ->;
      [ | done ].
    apply rowCount_zero. intros r Hr Hn.
    apply (inline_never_uploaded name ops Hops).
    rewrite <- Hn. by apply list_elem_of_fmap_2.
  - intros q q' s Hb out. subst out.
    destruct (Filesystem.uploads s !! name) as [st | ] eqn:Hs.
    + rewrite fs_delete_stored by (by rewrite Hs).
      cbn [fst snd]. split; [ done | ]. split; [ done | ].
      rewrite fs_delete_missing; [ done | done | ]. apply lookup_delete_eq.
    + rewrite fs_delete_missing by done.
      cbn [fst snd]. split; [ done | ]. split; [ by intros [? ?] | ].
      by rewrite fs_delete_missing.
  - intros q dir disk ops Hb Hops. rewrite fs_delete_missing; [ done .. | ].
    by apply fs_never_uploaded_from.
  - intros q s e server_js Hs He Hfile out. subst out server_js.
    unfold Filesystem.delete_handler.
    rewrite existing_server_js, He by done. cbn. rewrite Hfile. cbn.
    split; [ done | ]. split; [ apply lookup_delete_eq | done ].
  - intros q s e message Hs He Hdir out. subst out.
    unfold Filesystem.delete_handler.
    rewrite existing_dot, He by done. cbn. by rewrite Hdir.
Qed.

Lemma delete_contract_witness :
  let req := Request "https" "img.example" in
  let a := Part "a.svg" "image/svg+xml" (utf8_encode (code_points "<svg></svg>")) in
  let t := Inline.run None [Inline.Upload req 1 None (Some a)] in
  let s := Filesystem.run [Filesystem.Upload req 1 None (Some a)] in
  let gone := fst (Filesystem.delete_handler None "../server.js" s) in
  status (snd (Inline.delete_handler None "a.svg" t)) = 200
  /\ status (snd (Inline.delete_handler None "a.svg"
                    (fst (Inline.delete_handler None "a.svg" t)))) = 404
  /\ status (snd (Inline.delete_handler None "b.svg" t)) = 404
  /\ status (snd (Filesystem.delete_handler None "a.svg" s)) = 200
  /\ status (snd (Filesystem.delete_handler None "a.svg"
                    (fst (Filesystem.delete_handler None "a.svg" s)))) = 404
  /\ status (snd (Filesystem.delete_handler None "b.svg" s)) = 404
  /\ status (snd (Filesystem.delete_handler None "../server.js" s)) = 200
  /\ Filesystem.beside s !! ["app"; "server.js"]
     = Some (Filesystem.Entry false 20480 0 None)
  /\ Filesystem.beside gone !! ["app"; "server.js"] = None
  /\ status (snd (Filesystem.delete_handler None "." s)) = 500.
Proof.
  intros req a t s gone.
  destruct (delete_contract "a.svg") as (Hi & _ & Hf & _).
  destruct (delete_contract "b.svg") as (_ & Hi' & _ & Hf' & Hjs & Hdot).
  destruct (Hi t) as (_ & _ & H200 & H404).
  destruct (Hf None None s eq_refl) as (_ & G200 & G404).
  destruct (Hjs None s (Filesystem.Entry false 20480 0 None))
    as (J200 & Jgone & _); [ by vm_compute .. | ].
  pose proof (Hdot None s Filesystem.a_directory _ eq_refl eq_refl eq_refl)
    as D500.
  split; [ by rewrite H200 | ]. split; [ exact H404 | ].
  split; [ apply (Hi' [Inline.Upload req 1 None (Some a)]);
           by repeat constructor | ].
  split; [ rewrite G200; [ done | by vm_compute; eexists ] | ].
  split; [ exact G404 | ].
  split; [ apply (Hf' None ["app"] (Filesystem.beside Filesystem.boot)
                    [Filesystem.Upload req 1 None (Some a)]);
           [ done | by repeat constructor ] | ].
  split; [ by rewrite J200 | ].
  split; [ by vm_compute | ].
  split; [ exact Jgone | by rewrite D500 ].
Defined.

(** ** Installations *)

Lemma fs_run_in_unique (dir : list string)
    (disk : gmap (list string) Filesystem.entry) (ops : list Filesystem.op) :
  unique Filesystem.row_filename
    (Filesystem.rows (Filesystem.db (Filesystem.run_in dir disk ops))).
Proof.
  unfold Filesystem.run_in.
  apply (foldl_invariant
           (fun s => unique Filesystem.row_filename
                       (Filesystem.rows (Filesystem.db s)))).
  - intros s o. apply fs_step_unique.
  - apply NoDup_nil_2.
Qed.

Lemma fs_step_keys (s : Filesystem.state) (o : Filesystem.op) :
  fs_base_named o -> keys_are_base_names s ->
  keys_are_base_names (Filesystem.step s o).
Proof.
  intros Ho Hs name. destruct o as [req now q upload | q other];
    cbn [Filesystem.step].
  - unfold Filesystem.post_upload.
    destruct upload as [p | ]; [ | apply Hs ].
    rewrite multer_filter_cases. destruct (is_svg_dec p); [ | apply Hs ].
    destruct (_ <? _); cbn.
    + rewrite lookup_delete. case_decide; [ by intros [? ?] | apply Hs ].
    + unfold Filesystem.diskStorage. rewrite lookup_insert.
      case_decide as E; [ by rewrite <- E | apply Hs ].
  - destruct (fs_delete_uploads q other name s) as [H | H]; cbn in H;
      rewrite H; [ by intros [? ?] | apply Hs ].
Qed.

(** Requests with base names keep [uploads/] to files with base names. *)
Lemma fs_run_in_keys (dir : list string)
    (disk : gmap (list string) Filesystem.entry) (ops : list Filesystem.op) :
  Forall fs_base_named ops ->
  keys_are_base_names (Filesystem.run_in dir disk ops).
Proof.
  intros Hops. unfold Filesystem.run_in.
  refine (foldl_invariant_in keys_are_base_names _ _ _ _ _ Hops _).
  - intros s o Ho Hs. by apply fs_step_keys.
  - intros name [st Hst]. cbn in Hst. by rewrite lookup_empty in Hst.
Qed.

(** What requests with base names leave in the table and in [uploads/] is
    the same wherever the service is installed. *)
Lemma fs_step_same (s1 s2 : Filesystem.state) (o : Filesystem.op) :
  fs_base_named o ->
  Filesystem.db s1 = Filesystem.db s2 ->
  Filesystem.uploads s1 = Filesystem.uploads s2 ->
  Filesystem.db (Filesystem.step s1 o) = Filesystem.db (Filesystem.step s2 o)
  /\ Filesystem.uploads (Filesystem.step s1 o)
     = Filesystem.uploads (Filesystem.step s2 o).
Proof.
  intros Ho Hdb Hup. destruct o as [req now q upload | q name];
    cbn [Filesystem.step].
  - unfold Filesystem.post_upload.
    destruct (multer_filter upload) as [e | | p | p]; cbn.
    + done.
    + by rewrite Hdb, Hup.
    + by rewrite Hdb, Hup.
    + by rewrite Hdb, Hup.
  - cbn in Ho. unfold Filesystem.delete_handler.
    rewrite !existing_base by done. rewrite Hup.
    destruct (Filesystem.uploads s2 !! name); cbn; [ | done ].
    by rewrite Hdb, Hup.
Qed.

Lemma fs_run_in_same (dir : list string)
    (disk : gmap (list string) Filesystem.entry) (ops : list Filesystem.op) :
  Forall fs_base_named ops ->
  Filesystem.db (Filesystem.run_in dir disk ops)
    = Filesystem.db (Filesystem.run ops)
  /\ Filesystem.uploads (Filesystem.run_in dir disk ops)
     = Filesystem.uploads (Filesystem.run ops).
Proof.
  unfold Filesystem.run_in, Filesystem.run.
  generalize (Filesystem.boot_in dir disk) Filesystem.boot
    (eq_refl : Filesystem.db (Filesystem.boot_in dir disk)
               = Filesystem.db Filesystem.boot)
    (eq_refl : Filesystem.uploads (Filesystem.boot_in dir disk)
               = Filesystem.uploads Filesystem.boot).
  induction ops as [ | o ops IH ]; intros s1 s2 Hdb Hup Hops; [ done | ].
  inversion_clear Hops as [ | ? ? Ho Hrest ]. cbn [foldl].
  destruct (fs_step_same s1 s2 o Ho Hdb Hup) as [Hdb' Hup'].
  by apply IH.
Qed.

(** ** Uploading a name again *)

Lemma inline_reupload (now : time) (name original : string) (sz : N)
    (svg : text) (t : Inline.table) (old : Inline.row) :
  unique Inline.row_filename (Inline.rows t) ->
  old ∈ Inline.rows t -> Inline.row_filename old = name ->
  let t' := Inline.upsert now name original sz svg svg_mime t in
  Inline.select_named name t' =
    [Inline.Row (Inline.id old) name (Some original) (Some sz) (Some svg)
       (Inline.mime_type old) (Some now)]
  /\ length (Inline.rows t') = length (Inline.rows t).
Proof.
  intros Hu Hold Hn t'. subst t'. unfold Inline.select_named.
  cbn [Inline.upsert Inline.rows].
  assert (existsb (named Inline.row_filename name) (Inline.rows t) = true) as He
    by (apply existsb_named; by exists old).
  rewrite select_on_conflict_update, length_on_conflict_update, He by done.
  rewrite (select_where_unique _ name _ old Hu Hold Hn).
  by rewrite <- Hn.
Qed.

Lemma fs_reupload (now : time) (name original : string) (sz : N)
    (t : Filesystem.table) (old : Filesystem.row) :
  unique Filesystem.row_filename (Filesystem.rows t) ->
  old ∈ Filesystem.rows t -> Filesystem.row_filename old = name ->
  let t' := Filesystem.upsert now name original sz t in
  select_where Filesystem.row_filename name (Filesystem.rows t') =
    [Filesystem.Row (Filesystem.id old) name (Some original) (Some sz)
       (Filesystem.uploaded_at old)]
  /\ length (Filesystem.rows t') = length (Filesystem.rows t).
Proof.
  intros Hu Hold Hn t'. subst t'. cbn [Filesystem.upsert Filesystem.rows].
  assert (existsb (named Filesystem.row_filename name) (Filesystem.rows t) = true)
    as He by (apply existsb_named; by exists old).
  rewrite select_on_conflict_update, length_on_conflict_update, He by done.
  rewrite (select_where_unique _ name _ old Hu Hold Hn).
  by rewrite <- Hn.
Qed.

(** C2 as stated fails in the filesystem variant: a.svg uploaded at time 1
    and again, with other content, at time 2 leaves the one row with the
    new size and with uploaded_at still 1; the row has no content. *)
Lemma reupload_timestamp_counterexample :
  let req := Request "https" "img.example" in
  let first := Part "a.svg" "image/svg+xml" (utf8_encode (code_points "<svg></svg>")) in
  let second := Part "a.svg" "image/svg+xml" (utf8_encode (code_points "<svg> </svg>")) in
  let s := Filesystem.run [Filesystem.Upload req 1 None (Some first);
                           Filesystem.Upload req 2 None (Some second)] in
  part_data first <> part_data second
  /\ Filesystem.rows (Filesystem.db s) =
       [Filesystem.Row 1 "a.svg" (Some "a.svg") (Some 12) (Some 1)]
  /\ ~ (forall r, r ∈ Filesystem.rows (Filesystem.db s) ->
          Filesystem.uploaded_at r = Some 2).
Proof.
  intros req first second s.
  assert (Filesystem.rows (Filesystem.db s) =
            [Filesystem.Row 1 "a.svg" (Some "a.svg") (Some 12) (Some 1)]) as Hrows
    by (by vm_compute).
  split; [ by vm_compute | ]. split; [ done | ].
  intros H. specialize (H (Filesystem.Row 1 "a.svg" (Some "a.svg") (Some 12) (Some 1))).
  rewrite Hrows in H. by specialize (H ltac:(left)).
Qed.

(** C2, amended.  In both variants, in every state the service can be in,
    no two rows have one filename.  Uploading a name that has a row keeps
    it the one row of that name, with the id it had: in the inline variant
    with the original name, size and content of the new upload and
    uploaded_at the time of the upload; in the filesystem variant with the
    original name and size of the new upload, the file under uploads/
    holding the new content. *)
Theorem upsert_semantics :
  (forall legacy ops,
     unique Inline.row_filename (Inline.rows (Inline.run legacy ops)))
  /\ (forall ops,
        unique Filesystem.row_filename
          (Filesystem.rows (Filesystem.db (Filesystem.run ops))))
  /\ (forall legacy ops req now q p old,
        let t := Inline.run legacy ops in
        let out := Inline.post_upload req now q (Some p) t in
        old ∈ Inline.rows t -> Inline.row_filename old = part_name p ->
        status (snd out) = 200 ->
        Inline.select_named (part_name p) (fst out) =
          [Inline.Row (Inline.id old) (part_name p) (Some (part_name p))
             (Some (byteLength (part_data p)))
             (Some (toString_utf8 (part_data p)))
             (Inline.mime_type old) (Some now)]
        /\ length (Inline.rows (fst out)) = length (Inline.rows t))
  /\ (forall ops req now p old,
        let s := Filesystem.run ops in
        let out := Filesystem.post_upload req now None (Some p) s in
        old ∈ Filesystem.rows (Filesystem.db s) ->
        Filesystem.row_filename old = part_name p ->
        status (snd out) = 200 ->
        (exists new,
           select_where Filesystem.row_filename (part_name p)
             (Filesystem.rows (Filesystem.db (fst out))) = [new]
           /\ Filesystem.id new = Filesystem.id old
           /\ Filesystem.original_name new = Some (part_name p)
           /\ Filesystem.row_size new = Some (byteLength (part_data p)))
        /\ length (Filesystem.rows (Filesystem.db (fst out)))
             = length (Filesystem.rows (Filesystem.db s))
        /\ Filesystem.data <$> (Filesystem.uploads (fst out) !! part_name p)
             = Some (part_data p)).
Proof.
  split; [ | split; [ | split ] ].
  - intros legacy ops. apply inline_run_ok.
  - apply fs_run_unique.
  - intros legacy ops req now q p old t out Hold Hn H200. subst out.
    apply inline_upload_200 in H200 as (p' & [= <-] & _ & _ & _ & _ & _ & ->).
    apply inline_reupload; [ apply inline_run_ok | done | done ].
  - intros ops req now p old s out Hold Hn H200. subst out.
    revert H200. unfold Filesystem.post_upload. rewrite multer_filter_cases.
    destruct (is_svg_dec p); [ | done ].
    destruct (_ <? _); [ done | ]. cbn. intros _.
    destruct (fs_reupload now (part_name p) (part_name p)
                (byteLength (part_data p)) (Filesystem.db s) old
                (fs_run_unique ops) Hold Hn) as [Hsel Hlen].
    split; [ | split ].
    + eexists. split; [ exact Hsel | done ].
    + exact Hlen.
    + unfold Filesystem.diskStorage. by rewrite lookup_insert_eq.
Qed.

Lemma upsert_semantics_witness :
  let req := Request "https" "img.example" in
  let first := Part "a.svg" "image/svg+xml" (utf8_encode (code_points "<svg></svg>")) in
  let second := Part "a.svg" "text/plain" (utf8_encode (code_points "<svg> </svg>")) in
  let t := Inline.run None [Inline.Upload req 1 None (Some first)] in
  let s := Filesystem.run [Filesystem.Upload req 1 None (Some first)] in
  Inline.select_named "a.svg" (fst (Inline.post_upload req 2 None (Some second) t)) =
    [Inline.Row 1 "a.svg" (Some "a.svg") (Some 12)
       (Some (code_points "<svg> </svg>")) (Some "image/svg+xml") (Some 2)]
  /\ Filesystem.data <$>
       (Filesystem.uploads (fst (Filesystem.post_upload req 2 None (Some second) s))
          !! "a.svg") = Some (part_data second).
Proof.
  intros req first second t s.
  destruct upsert_semantics as (_ & _ & Hi & Hf). split.
  - refine (proj1 (Hi None [Inline.Upload req 1 None (Some first)] req 2 None second
                     (Inline.Row 1 "a.svg" (Some "a.svg") (Some 11)
                        (Some (code_points "<svg></svg>")) (Some "image/svg+xml")
                        (Some 1)) _ _ _)).
    + left.
    + reflexivity.
    + reflexivity.
  - refine (proj2 (proj2 (Hf [Filesystem.Upload req 1 None (Some first)] req 2 second
                     (Filesystem.Row 1 "a.svg" (Some "a.svg") (Some 11) (Some 1))
                     _ _ _))).
    + left.
    + reflexivity.
    + reflexivity.
Defined.

(** ** Listing *)

Lemma later_eq_total (a b : option time) : Inline.later_eq a b = true \/ Inline.later_eq b a = true.
Proof.
  destruct a as [x | ], b as [y | ]; cbn; auto.
  destruct (N.leb_spec y x); [ by left | right ]. apply N.leb_le. lia.
Qed.

Lemma later_eq_trans (a b c : option time) :
  Inline.later_eq a b = true -> Inline.later_eq b c = true -> Inline.later_eq a c = true.
Proof.
  destruct a as [x | ], b as [y | ], c as [z | ]; cbn; try done.
  rewrite !N.leb_le. lia.
Qed.

Lemma newer_first_sorted (l : list Inline.row) :
  StronglySorted Inline.newer_first (Inline.order_by_uploaded_at_desc l)
  /\ Inline.order_by_uploaded_at_desc l ≡ₚ l.
Proof.
  split; [ | apply merge_sort_Permutation ].
  apply StronglySorted_merge_sort.
  - intros r1 r2 r3. unfold Inline.newer_first. rewrite !Is_true_true.
    apply later_eq_trans.
  - intros r1 r2. unfold Inline.newer_first. rewrite !Is_true_true.
    apply later_eq_total.
Qed.

Lemma inline_list_entry_shows (req : request) (r : Inline.row) :
  shows (Inline.list_entry req r)
    (Listed (Inline.row_filename r)
       match Inline.original_name r with
       | None | Some "" => Inline.row_filename r
       | Some original => original
       end
       (url_of req (Inline.row_filename r))
       match Inline.row_size r with
       | Some n => JNum (to_double n)
       | None => JNull
       end
       match Inline.uploaded_at r with
       | Some t => JDate t
       | None => JNull
       end).
Proof.
  unfold shows. cbn. repeat split.
  by destruct (Inline.original_name r) as [[ | a o] | ].
Qed.

(** The rows [dbMap] holds. *)
Lemma fromEntries_absent (l : list Filesystem.row) (m : gmap string Filesystem.row)
    (f : string) :
  (forall r, r ∈ l -> Filesystem.row_filename r <> f) ->
  foldl (fun m r => <[Filesystem.row_filename r := r]> m) m l !! f = m !! f.
Proof.
  revert m. induction l as [ | x l IH ]; intros m H; [ done | ].
  cbn. rewrite IH by (intros r Hr; apply H; by right).
  apply lookup_insert_ne, H. by left.
Qed.

Lemma fromEntries_present (l : list Filesystem.row) (m : gmap string Filesystem.row)
    (r : Filesystem.row) :
  unique Filesystem.row_filename l -> r ∈ l ->
  foldl (fun m r => <[Filesystem.row_filename r := r]> m) m l
    !! Filesystem.row_filename r = Some r.
Proof.
  unfold unique. revert m. induction l as [ | x l IH ]; intros m Hu Hr.
  - by apply elem_of_nil in Hr.
  - rewrite fmap_cons in Hu. apply NoDup_cons in Hu as [Hx Hu].
    cbn. apply elem_of_cons in Hr as [-> | Hr]; [ | by apply IH ].
    rewrite fromEntries_absent; [ apply lookup_insert_eq | ].
    intros y Hy Hk. apply Hx. rewrite <- Hk. by apply list_elem_of_fmap_2.
Qed.

Lemma select_any_elem (files : list string) (t : Filesystem.table)
    (r : Filesystem.row) :
  r ∈ Filesystem.select_any files t <->
  r ∈ Filesystem.rows t /\ Filesystem.row_filename r ∈ files.
Proof.
  unfold Filesystem.select_any.
  rewrite (list_elem_of_In (List.filter _ _) r), filter_In, existsb_exists.
  rewrite <- list_elem_of_In. split.
  - intros [Hr (f & Hf%list_elem_of_In & ->%String.eqb_eq)]. by split.
  - intros [Hr Hf]. split; [ done | ]. exists (Filesystem.row_filename r).
    split; [ by apply list_elem_of_In | apply String.eqb_refl ].
Qed.

Lemma filter_unique {R} (key : R -> string) (P : R -> bool) (l : list R) :
  unique key l -> unique key (List.filter P l).
Proof.
  unfold unique. induction l as [ | x l IH ]; [ done | ].
  rewrite fmap_cons. intros [Hx Hu]%NoDup_cons. cbn.
  destruct (P x); cbn; [ | by apply IH ].
  apply NoDup_cons. split; [ | by apply IH ].
  intros (y & Hk & Hy)%list_elem_of_fmap. apply Hx. rewrite Hk.
  apply list_elem_of_fmap_2.
  apply list_elem_of_In in Hy. apply filter_In in Hy as [Hy _].
  by apply list_elem_of_In.
Qed.

Lemma svg_files_elem (dir : gmap string Filesystem.stats) (f : string) :
  f ∈ Filesystem.svg_files dir <->
  is_Some (dir !! f) /\ endsWith (toLowerCase f) ".svg" = true.
Proof.
  unfold Filesystem.svg_files. rewrite list_elem_of_In, filter_In.
  rewrite <- list_elem_of_In, list_elem_of_fmap. split.
  - intros [([k st] & -> & Hk%elem_of_map_to_list) He]. by split; [ exists st | ].
  - intros [[st Hst] He]. split; [ | done ]. exists (f, st).
    split; [ done | by apply elem_of_map_to_list ].
Qed.

Lemma svg_files_NoDup (dir : gmap string Filesystem.stats) :
  NoDup (Filesystem.svg_files dir).
Proof.
  unfold Filesystem.svg_files.
  pose proof (NoDup_fst_map_to_list dir) as H.
  induction H as [ | f l Hf _ IH ]; cbn; [ constructor | ].
  destruct (endsWith _ _); [ | done ].
  constructor; [ | done ]. intros Hin. apply Hf.
  apply list_elem_of_In in Hin. apply filter_In in Hin as [Hin _].
  by apply list_elem_of_In.
Qed.

Lemma newer_first_not_older (r1 r2 : Inline.row) :
  Inline.newer_first r1 r2 -> not_older r1 r2.
Proof.
  unfold Inline.newer_first, not_older, Inline.later_eq.
  destruct (Inline.uploaded_at r1), (Inline.uploaded_at r2); try done.
  intros H%Is_true_true. by apply N.leb_le.
Qed.

Lemma StronglySorted_weaken {A} (R R' : A -> A -> Prop) (l : list A) :
  (forall x y, R x y -> R' x y) -> StronglySorted R l -> StronglySorted R' l.
Proof.
  intros HR. induction 1 as [ | x l _ IH Hx ]; constructor; [ done | ].
  rewrite Forall_forall in *. auto.
Qed.

Lemma fs_list_entry_fallback (req : request) (dbMap : gmap string Filesystem.row)
    (dir : gmap string Filesystem.stats) (f : string) (st : Filesystem.stats) :
  dir !! f = Some st -> dbMap !! f = None ->
  shows (Filesystem.list_entry req dbMap dir f)
    (Listed f f (url_of req f) (JNum (Filesystem.stat_size st))
       (JDate (Filesystem.birthtime st))).
Proof.
  intros Hst Hmeta. unfold shows, Filesystem.list_entry. rewrite Hst, Hmeta.
  cbn. by repeat split.
Qed.

Lemma fs_list_entry_meta (req : request) (dbMap : gmap string Filesystem.row)
    (dir : gmap string Filesystem.stats) (f : string) (st : Filesystem.stats)
    (r : Filesystem.row) :
  dir !! f = Some st -> dbMap !! f = Some r ->
  shows (Filesystem.list_entry req dbMap dir f)
    (Listed f
       match Filesystem.original_name r with
       | None | Some "" => f
       | Some original => original
       end
       (url_of req f)
       match Filesystem.row_size r with
       | Some n => JStr (pretty n)
       | None => JNum (Filesystem.stat_size st)
       end
       (JDate match Filesystem.uploaded_at r with
              | Some t => t
              | None => Filesystem.birthtime st
              end)).
Proof.
  intros Hst Hmeta. unfold shows, Filesystem.list_entry. rewrite Hst, Hmeta.
  cbn. repeat split.
  - by destruct (Filesystem.original_name r) as [[ | a o] | ].
  - by destruct (Filesystem.uploaded_at r).
Qed.

Lemma fs_dbMap_absent (q : fault) (s : Filesystem.state) (f : string) :
  q <> None
  \/ (forall r, r ∈ Filesystem.rows (Filesystem.db s) ->
        Filesystem.row_filename r <> f) ->
  Filesystem.fromEntries
    match q with
    | None => Filesystem.select_any (Filesystem.svg_files (Filesystem.uploads s))
                (Filesystem.db s)
    | Some _ => []
    end !! f = None.
Proof.
  intros H. unfold Filesystem.fromEntries.
  destruct q as [msg | ]; [ done | ]. destruct H as [H | H]; [ done | ].
  rewrite fromEntries_absent; [ done | ].
  intros r [Hr _]%select_any_elem. by apply H.
Qed.

Lemma fs_dbMap_present (s : Filesystem.state) (r : Filesystem.row) :
  unique Filesystem.row_filename (Filesystem.rows (Filesystem.db s)) ->
  r ∈ Filesystem.rows (Filesystem.db s) ->
  Filesystem.row_filename r ∈ Filesystem.svg_files (Filesystem.uploads s) ->
  Filesystem.fromEntries
    (Filesystem.select_any (Filesystem.svg_files (Filesystem.uploads s))
       (Filesystem.db s)) !! Filesystem.row_filename r = Some r.
Proof.
  intros Hu Hr Hf. apply fromEntries_present.
  - by apply filter_unique.
  - by apply select_any_elem.
Qed.

(** The filesystem variant mounts [express.static] on /images before the
    routes, where the inline variant registers /images/list before
    /images/:filename.  Once a file named list is stored (announced as
    image/svg+xml it passes the file filter), GET /images/list is answered
    with that file and no image is listed, a.svg included, which the list
    handler would show. *)
Lemma list_shadowed_by_file :
  let req := Request "https" "img.example" in
  let svg := utf8_encode (code_points "<svg></svg>") in
  let s := Filesystem.run
             [Filesystem.Upload req 1 None (Some (Part "a.svg" svg_mime svg));
              Filesystem.Upload req 2 None (Some (Part "list" svg_mime svg))] in
  Filesystem.get_images req None "list" s = Filesystem.Static svg
  /\ lists (Filesystem.list_handler req None s) "a.svg".
Proof.
  intros req svg s. split; [ vm_compute; reflexivity | ].
  eexists. split; [ vm_compute; by repeat constructor | reflexivity ].
Qed.

(** C9.  GET /images/list answers with one object per known image, each
    with filename, originalName, url, directUrl, size and uploadedAt.
    Inline variant: the request reaches the list handler, the images are
    the rows in an order the query allows, the newest first; whatever that
    order, originalName is the filename when the row has none and size is
    the row's size read as a number.  Filesystem variant, as long as
    [uploads/] holds no file named list: the request reaches the list
    handler, the images are the .svg files under [uploads/]; for a file
    with no row (or with the database unreachable) originalName is the
    filename and size and uploadedAt are those of the file; for a file with
    a row they are the row's where the row has them.  Filesystem variant,
    with a file named list in [uploads/]: the request is answered with that
    file, and nothing is listed. *)
Theorem list_contract (req : request) :
  (forall t,
     exists sorted,
       sorted ≡ₚ Inline.rows t
       /\ StronglySorted not_older sorted
       /\ Inline.get_images req None "list" t = Inline.list_response req sorted)
  /\ (forall t sorted,
        sorted ≡ₚ Inline.rows t ->
        exists images,
          Inline.list_response req sorted =
            Response 200 []
              (Json (JObj [("success", JBool true);
                           ("count", JNum (N.of_nat (length (Inline.rows t))));
                           ("images", JArr images)]))
          /\ Forall2
               (fun r e =>
                  shows e
                    (Listed (Inline.row_filename r)
                       match Inline.original_name r with
                       | None | Some "" => Inline.row_filename r
                       | Some original => original
                       end
                       (url_of req (Inline.row_filename r))
                       match Inline.row_size r with
                       | Some n => JNum (to_double n)
                       | None => JNull
                       end
                       match Inline.uploaded_at r with
                       | Some t => JDate t
                       | None => JNull
                       end))
               sorted images)
  /\ (forall q s,
        Filesystem.uploads s !! "list" = None ->
        exists files images,
          NoDup files
          /\ (forall f, f ∈ files <->
                is_Some (Filesystem.uploads s !! f)
                /\ endsWith (toLowerCase f) ".svg" = true)
          /\ Filesystem.get_images req q "list" s =
               Filesystem.Routed
                 (Response 200 []
                    (Json (JObj [("success", JBool true);
                                 ("count", JNum (N.of_nat (length files)));
                                 ("images", JArr images)])))
          /\ Forall2
               (fun f e =>
                  forall st, Filesystem.uploads s !! f = Some st ->
                    ((q <> None
                      \/ (forall r, r ∈ Filesystem.rows (Filesystem.db s) ->
                            Filesystem.row_filename r <> f)) ->
                     shows e
                       (Listed f f (url_of req f)
                          (JNum (to_double (byteLength (Filesystem.data st))))
                          (JDate (Filesystem.birthtime st))))
                    /\ (forall r,
                          q = None ->
                          unique Filesystem.row_filename
                            (Filesystem.rows (Filesystem.db s)) ->
                          r ∈ Filesystem.rows (Filesystem.db s) ->
                          Filesystem.row_filename r = f ->
                          shows e
                            (Listed f
                               match Filesystem.original_name r with
                               | None | Some "" => f
                               | Some original => original
                               end
                               (url_of req f)
                               match Filesystem.row_size r with
                               | Some n => JStr (pretty n)
                               | None =>
                                   JNum (to_double
                                           (byteLength (Filesystem.data st)))
                               end
                               (JDate match Filesystem.uploaded_at r with
                                      | Some t => t
                                      | None => Filesystem.birthtime st
                                      end))))
               files images)
  /\ (forall q s st,
        Filesystem.uploads s !! "list" = Some st ->
        Filesystem.get_images req q "list" s
        = Filesystem.Static (Filesystem.data st)).
Proof.
  split; [ | split; [ | split ] ].
  - intros t.
    destruct (newer_first_sorted (Inline.rows t)) as [Hsorted Hperm].
    exists (Inline.order_by_uploaded_at_desc (Inline.rows t)).
    split; [ done | ].
    split; [ by apply (StronglySorted_weaken _ _ _ newer_first_not_older) | ].
    done.
  - intros t sorted Hperm.
    exists (Inline.list_entry req <$> sorted). split.
    + unfold Inline.list_response, res_json.
      by rewrite length_fmap, (Permutation_length Hperm).
    + apply Forall2_fmap_r, Forall_Forall2_diag, Forall_forall.
      intros r _. apply inline_list_entry_shows.
  - intros q s Hlist.
    exists (Filesystem.svg_files (Filesystem.uploads s)),
      (Filesystem.list_entry req
         (Filesystem.fromEntries
            match q with
            | None => Filesystem.select_any
                        (Filesystem.svg_files (Filesystem.uploads s))
                        (Filesystem.db s)
            | Some _ => []
            end)
         (Filesystem.uploads s) <$> Filesystem.svg_files (Filesystem.uploads s)).
    split; [ apply svg_files_NoDup | ].
    split; [ apply svg_files_elem | ].
    split.
    + unfold Filesystem.get_images. cbn [Filesystem.dotfile]. rewrite Hlist.
      change (String.eqb (toLowerCase "list") "list") with true. cbn match.
      unfold Filesystem.list_handler, res_json. by rewrite length_fmap.
    + apply Forall2_fmap_r, Forall_Forall2_diag, Forall_forall.
      intros f Hf st Hst. split.
      * intros Hno. apply fs_list_entry_fallback; [ done | ].
        by apply fs_dbMap_absent.
      * intros r -> Hu Hr <-. apply fs_list_entry_meta; [ done | ].
        by apply fs_dbMap_present.
  - intros q s st Hlist. unfold Filesystem.get_images.
    cbn [Filesystem.dotfile]. by rewrite Hlist.
Qed.

Lemma list_contract_witness :
  let req := Request "https" "img.example" in
  let a := Part "a.svg" "image/svg+xml" (utf8_encode (code_points "<svg></svg>")) in
  let b := Part "b.svg" "image/svg+xml" (utf8_encode (code_points "<svg> </svg>")) in
  let t := Inline.run None [Inline.Upload req 1 None (Some a);
                            Inline.Upload req 2 None (Some b)] in
  let s := Filesystem.run [Filesystem.Upload req 1 None (Some a);
                           Filesystem.Upload req 2 (Some "timeout") (Some b)] in
  let shadowed :=
    fst (Filesystem.post_upload req 3 None
           (Some (Part "list" "image/svg+xml" (part_data a))) s) in
  (exists sorted images,
     sorted ≡ₚ Inline.rows t
     /\ StronglySorted not_older sorted
     /\ Inline.get_images req None "list" t =
          Response 200 []
            (Json (JObj [("success", JBool true); ("count", JNum 2);
                         ("images", JArr images)])))
  /\ (exists files images,
        Filesystem.get_images req None "list" s =
          Filesystem.Routed
            (Response 200 []
               (Json (JObj [("success", JBool true);
                            ("count", JNum (N.of_nat (length files)));
                            ("images", JArr images)])))
        /\ "b.svg" ∈ files)
  /\ Filesystem.get_images req None "list" shadowed
     = Filesystem.Static (part_data a).
Proof.
  intros req a b t s shadowed.
  destruct (list_contract req) as (Hroute & Hi & Hf & Hshadow).
  split; [ | split; [ | by apply (Hshadow None shadowed
                                    (Filesystem.Stats (part_data a) 3)) ] ].
  - destruct (Hroute t) as (sorted & Hperm & Hsorted & Hans).
    destruct (Hi t sorted Hperm) as (images & Himages & _).
    exists sorted, images. split; [ exact Hperm | ]. split; [ exact Hsorted | ].
    rewrite Hans. exact Himages.
  - destruct (Hf None s) as (files & images & _ & Hfiles & Hans & _);
      [ reflexivity | ].
    exists files, images. split; [ exact Hans | ].
    apply Hfiles. split; [ | reflexivity ]. vm_compute. eexists. reflexivity.
Defined.

(** * Further properties of the handlers *)

(** ** What an upload can do *)

Lemma error_middleware_status (e : error) :
  status (error_middleware e) = 400 \/ status (error_middleware e) = 500.
Proof.
  destruct e as [code msg | msg]; cbn; [ | by right ].
  destruct (String.eqb code "LIMIT_FILE_SIZE"); [ by left | by right ].
Qed.

Lemma inline_upload_handler_outcome (req : request) (now : time) (q : fault)
    (f : option Inline.file) (t : Inline.table) :
  let out := Inline.upload_handler req now q f t in
  (status (snd out) = 200 \/ status (snd out) = 400 \/ status (snd out) = 500)
  /\ (status (snd out) <> 200 -> fst out = t).
Proof.
  unfold Inline.upload_handler. destruct f as [f | ]; [ | cbn; tauto ].
  destruct (negb _ || negb _); [ cbn; tauto | ].
  destruct q; cbn; tauto.
Qed.

Lemma upload_changes_only_on_200_aux (req : request) (now : time) (q : fault)
    (upload : option part) (t : Inline.table) :
  let out := Inline.post_upload req now q upload t in
  (status (snd out) = 200 \/ status (snd out) = 400 \/ status (snd out) = 500)
  /\ (status (snd out) <> 200 -> fst out = t).
Proof.
  unfold Inline.post_upload.
  destruct (multer_filter upload) as [e | | p | p];
    try apply inline_upload_handler_outcome.
  - cbn [fst snd]. split; [ | done ].
    destruct (error_middleware_status e); auto.
  - cbn. tauto.
Qed.

(** X2.  POST /upload answers 200, 400 or 500 and nothing else, in both
    variants; the table is changed only by an upload that is answered with
    200; and whether the inline variant accepts an upload does not depend
    on what is stored. *)
Theorem upload_changes_only_on_200 (req : request) (now : time) (q : fault)
    (upload : option part) :
  (forall t,
     let out := Inline.post_upload req now q upload t in
     (status (snd out) = 200 \/ status (snd out) = 400 \/ status (snd out) = 500)
     /\ (status (snd out) <> 200 -> fst out = t))
  /\ (forall t t',
        status (snd (Inline.post_upload req now q upload t)) =
        status (snd (Inline.post_upload req now q upload t')))
  /\ (forall s,
        let out := Filesystem.post_upload req now q upload s in
        (status (snd out) = 200 \/ status (snd out) = 400 \/ status (snd out) = 500)
        /\ (status (snd out) <> 200 -> Filesystem.db (fst out) = Filesystem.db s)).
Proof.
  split; [ | split ].
  - intros t. apply upload_changes_only_on_200_aux.
  - intros t t'. unfold Inline.post_upload, Inline.upload_handler.
    destruct (multer_filter upload) as [e | | p | p]; try done.
    destruct (negb _ || negb _); [ done | ]. by destruct q.
  - intros s. unfold Filesystem.post_upload.
    destruct (multer_filter upload) as [e | | p | p]; cbn.
    + split; [ | done ]. destruct (error_middleware_status e); auto.
    + tauto.
    + tauto.
    + tauto.
Qed.

(** ** What the inline handlers read of the table *)

Lemma inline_serve_select (q : fault) (name : string) (t t' : Inline.table) :
  Inline.select_named name t' = Inline.select_named name t ->
  Inline.serve_handler q name t' = Inline.serve_handler q name t.
Proof. intros H. unfold Inline.serve_handler. by rewrite H. Qed.

Lemma inline_api_select (req : request) (q : fault) (name : string)
    (t t' : Inline.table) :
  Inline.select_named name t' = Inline.select_named name t ->
  Inline.api_handler req q name t' = Inline.api_handler req q name t.
Proof. intros H. unfold Inline.api_handler. by rewrite H. Qed.

Lemma inline_upload_select_ne (req : request) (now : time) (q : fault)
    (p : part) (other : string) (t : Inline.table) :
  other <> part_name p ->
  Inline.select_named other (fst (Inline.post_upload req now q (Some p) t)) =
    Inline.select_named other t.
Proof.
  intros Hne. unfold Inline.post_upload.
  destruct (multer_filter (Some p)) as [e | | p' | p'] eqn:Hm; try done.
  assert (p' = p) as ->.
  { unfold multer_filter in Hm. destruct (fileFilter p) as [ | [ | ]]; try done.
    destruct (_ <? _); by inversion Hm. }
  unfold Inline.upload_handler.
  destruct (negb _ || negb _); [ done | ]. destruct q; [ done | ].
  by apply select_on_conflict_update_ne.
Qed.

Lemma inline_delete_select_ne (q : fault) (name other : string)
    (t : Inline.table) :
  other <> name ->
  Inline.select_named other (fst (Inline.delete_handler q name t)) =
    Inline.select_named other t.
Proof.
  intros Hne. destruct q as [msg | ]; [ done | ].
  rewrite inline_delete_answer. cbn [fst]. unfold Inline.select_named. cbn.
  induction (Inline.rows t) as [ | x l IH ]; [ done | ].
  cbn. destruct (named Inline.row_filename name x) eqn:Hn; cbn.
  - apply named_true in Hn.
    rewrite (proj2 (named_false Inline.row_filename other x)) by congruence.
    apply IH.
  - destruct (named Inline.row_filename other x); [ f_equal | ]; apply IH.
Qed.

(** X3.  In the inline variant an upload and a delete touch the image of
    their own name only: for every other name the row, and so the answers
    of GET /images/:filename and GET /api/images/:filename, stay as they
    were. *)
Theorem other_images_untouched (req req' : request) (now : time)
    (q q' : fault) (p : part) (name other : string) (t : Inline.table) :
  other <> part_name p ->
  other <> name ->
  let uploaded := fst (Inline.post_upload req now q (Some p) t) in
  let deleted := fst (Inline.delete_handler q name t) in
  Inline.select_named other uploaded = Inline.select_named other t
  /\ Inline.serve_handler q' other uploaded = Inline.serve_handler q' other t
  /\ Inline.api_handler req' q' other uploaded = Inline.api_handler req' q' other t
  /\ Inline.select_named other deleted = Inline.select_named other t
  /\ Inline.serve_handler q' other deleted = Inline.serve_handler q' other t
  /\ Inline.api_handler req' q' other deleted = Inline.api_handler req' q' other t.
Proof.
  intros Hp Hn uploaded deleted.
  pose proof (inline_upload_select_ne req now q p other t Hp) as Hu.
  pose proof (inline_delete_select_ne q name other t Hn) as Hd.
  repeat split;
    done || by apply inline_serve_select || by apply inline_api_select.
Qed.

Lemma other_images_untouched_witness :
  let req := Request "https" "img.example" in
  let a := Part "a.svg" "image/svg+xml" (utf8_encode (code_points "<svg></svg>")) in
  let b := Part "b.svg" "image/svg+xml" (utf8_encode (code_points "<svg> </svg>")) in
  let t := Inline.run None [Inline.Upload req 1 None (Some a)] in
  Inline.serve_handler None "a.svg" (fst (Inline.post_upload req 2 None (Some b) t))
    = Inline.serve_handler None "a.svg" t
  /\ Inline.serve_handler None "a.svg" (fst (Inline.delete_handler None "b.svg" t))
       = Inline.serve_handler None "a.svg" t.
Proof.
  intros req a b t.
  destruct (other_images_untouched req req 2 None None b "b.svg" "a.svg" t)
    as (_ & Hu & _ & _ & Hd & _); [ done | done | ].
  by split.
Defined.

(** ** Fetching the metadata *)

Lemma inline_select_after_upsert (now : time) (name original : string)
    (sz : N) (svg : text) (mime : string) (t : Inline.table) :
  exists r rest,
    Inline.select_named name (Inline.upsert now name original sz svg mime t)
      = r :: rest
    /\ Inline.original_name r = Some original
    /\ Inline.row_size r = Some sz
    /\ Inline.content r = Some svg
    /\ Inline.uploaded_at r = Some now.
Proof.
  unfold Inline.select_named. cbn [Inline.upsert Inline.rows].
  rewrite select_on_conflict_update by done.
  destruct (existsb _ (Inline.rows t)) eqn:He; [ | by eexists _, _ ].
  apply existsb_named in He as (r & Hr & Hn).
  assert (r ∈ select_where Inline.row_filename name (Inline.rows t)) as Hsel
    by (by apply select_where_elem).
  destruct (select_where _ _ _) as [ | x rest ];
    [ by apply elem_of_nil in Hsel | ].
  by eexists _, _.
Qed.

(** X4.  In the inline variant, after an upload that was answered with 200,
    GET /api/images/:filename for the uploaded name answers 200 with the
    metadata of that upload: filename and originalName the uploaded name,
    size the number of bytes sent, uploadedAt the time of the upload, url
    and directUrl the address under /images/; filename, originalName and
    size are those the upload's own answer gave. *)
Theorem upload_then_fetch_metadata (req req' : request) (now : time)
    (q : fault) (p : part) (t : Inline.table) :
  status (snd (Inline.post_upload req now q (Some p) t)) = 200 ->
  let out := Inline.post_upload req now q (Some p) t in
  Inline.api_handler req' None (part_name p) (fst out) =
    Response 200 []
      (Json (JObj [("success", JBool true);
                   ("data",
                    JObj [("filename", JStr (part_name p));
                          ("originalName", JStr (part_name p));
                          ("url", JStr (url_of req' (part_name p)));
                          ("directUrl", JStr (url_of req' (part_name p)));
                          ("size", JNum (byteLength (part_data p)));
                          ("uploadedAt", JDate now)])]))
  /\ data_of (snd out) =
       JObj [("filename", JStr (part_name p));
             ("originalName", JStr (part_name p));
             ("size", JNum (byteLength (part_data p)));
             ("url", JStr (url_of req (part_name p)));
             ("directUrl", JStr (url_of req (part_name p)))].
Proof.
  intros H200 out. subst out.
  pose proof H200 as H.
  apply inline_upload_200 in H as (p' & [= <-] & Hsvg & Hfit & H1 & H2 & -> & Ht').
  split.
  - rewrite Ht'.
    destruct (inline_select_after_upsert now (part_name p) (part_name p)
                (byteLength (part_data p)) (toString_utf8 (part_data p))
                svg_mime t) as (r & rest & Hsel & Ho & Hs & _ & Hu).
    unfold Inline.api_handler. rewrite Hsel, Ho, Hs, Hu.
    cbn [Inline.parseInt]. rewrite (fileSize_double _ Hfit). cbn.
    unfold or_string. by destruct (String.eqb _ _) eqn:E;
      [ apply String.eqb_eq in E; rewrite E | ].
  - rewrite inline_accepted by done. unfold Inline.upload_handler.
    cbn [Inline.memoryStorage Inline.file_buffer]. by rewrite H1, H2.
Qed.

Lemma upload_then_fetch_metadata_witness :
  let req := Request "https" "img.example" in
  let a := Part "a.svg" "image/svg+xml" (utf8_encode (code_points "<svg></svg>")) in
  field "size"
    (data_of (Inline.api_handler req None "a.svg"
                (fst (Inline.post_upload req 7 None (Some a) (Inline.boot None)))))
    = Some (JNum 11).
Proof.
  intros req a.
  destruct (upload_then_fetch_metadata req req 7 None a (Inline.boot None)
              eq_refl) as [H _].
  change (part_name a) with "a.svg" in H. by rewrite H.
Defined.

(** What GET /images/list names. *)
Lemma inline_list_lists (req : request) (t : Inline.table) (name : string) :
  lists (Inline.list_handler req None t) name <->
  exists r, r ∈ Inline.rows t /\ Inline.row_filename r = name.
Proof.
  unfold lists, images_of. cbn. split.
  - intros (e & (r & -> & Hr)%list_elem_of_fmap & He). cbn in He.
    exists r. split; [ | by injection He ].
    by rewrite <- (proj2 (newer_first_sorted (Inline.rows t))).
  - intros (r & Hr & <-). exists (Inline.list_entry req r). split; [ | done ].
    apply list_elem_of_fmap_2.
    by rewrite (proj2 (newer_first_sorted (Inline.rows t))).
Qed.

(** X5.  In the inline variant, once DELETE /images/:filename has run its
    statement, the name is gone from every read: GET /api/images/:filename
    and GET /images/:filename answer 404 Image not found, and GET
    /images/list does not name it. *)
Theorem deleted_is_gone (req : request) (name : string) (t : Inline.table) :
  let t' := fst (Inline.delete_handler None name t) in
  Inline.api_handler req None name t' =
    Response 404 []
      (Json (JObj [("success", JBool false); ("message", JStr "Image not found")]))
  /\ Inline.serve_handler None name t' =
       Response 404 []
         (Json (JObj [("success", JBool false);
                      ("message", JStr "Image not found")]))
  /\ ~ lists (Inline.list_handler req None t') name.
Proof.
  intros t'. subst t'. rewrite inline_delete_answer. cbn [fst].
  assert (Inline.select_named name (fst (Inline.delete_returning name t)) = [])
    as Hsel by apply select_delete_where.
  split; [ | split ].
  - unfold Inline.api_handler. by rewrite Hsel.
  - unfold Inline.serve_handler. by rewrite Hsel.
  - rewrite inline_list_lists. intros (r & Hr & Hn).
    by apply delete_where_elem in Hr as [_ Hr].
Qed.

(** ** The listing and the status codes *)

Lemma names_of_elem (t : Inline.table) (name : string) :
  name ∈ names_of t <-> exists r, r ∈ Inline.rows t /\ Inline.row_filename r = name.
Proof.
  unfold names_of. rewrite elem_of_list_to_set, list_elem_of_fmap.
  split; intros (r & H1 & H2); exists r; by split.
Qed.

Lemma names_of_upsert (now : time) (name original : string) (sz : N)
    (svg : text) (mime : string) (t : Inline.table) :
  names_of (Inline.upsert now name original sz svg mime t) = {[name]} ∪ names_of t.
Proof.
  unfold names_of. cbn [Inline.upsert Inline.rows].
  rewrite on_conflict_update_keys by done.
  destruct (existsb _ (Inline.rows t)) eqn:He.
  - apply existsb_named in He as (r & Hr & Hn).
    assert (name ∈ Inline.row_filename <$> Inline.rows t) as Hin
      by (rewrite <- Hn; by apply list_elem_of_fmap_2).
    apply set_eq. intros k.
    rewrite elem_of_union, elem_of_singleton, !elem_of_list_to_set.
    split; [ by right | ]. by intros [-> | ?].
  - rewrite list_to_set_app_L. apply set_eq. intros k.
    rewrite !elem_of_union, !elem_of_list_to_set, list_elem_of_singleton,
      elem_of_singleton.
    tauto.
Qed.

Lemma names_of_delete (name : string) (t : Inline.table) :
  names_of (fst (Inline.delete_returning name t)) = names_of t ∖ {[name]}.
Proof.
  apply set_eq. intros k. rewrite elem_of_difference, !names_of_elem.
  rewrite not_elem_of_singleton. cbn. split.
  - intros (r & [Hr Hn]%delete_where_elem & <-). split; [ by exists r | done ].
  - intros [(r & Hr & <-) Hn]. exists r. split; [ | done ].
    by apply delete_where_elem.
Qed.

Lemma client_step_invariant (t : Inline.table) (known : gset string)
    (o : Inline.op) :
  known = names_of t ->
  fst (client_step (t, known) o) = Inline.step t o
  /\ snd (client_step (t, known) o) = names_of (Inline.step t o).
Proof.
  intros ->. destruct o as [req now q upload | q name]; cbn [client_step fst snd].
  - split; [ done | ]. cbn [Inline.step].
    destruct upload as [p | ].
    + destruct (N.eqb_spec
                  (status (snd (Inline.post_upload req now q (Some p) t))) 200)
        as [H200 | Hnot].
      * apply inline_upload_200 in H200 as (p' & [= <-] & _ & _ & _ & _ & _ & ->).
        by rewrite names_of_upsert.
      * destruct (upload_changes_only_on_200_aux req now q (Some p) t) as [_ H].
        by rewrite H.
    + by unfold Inline.post_upload.
  - split; [ done | ]. cbn [Inline.step].
    destruct q as [msg | ]; [ done | ].
    rewrite inline_delete_answer. cbn [fst snd].
    rewrite names_of_delete.
    destruct (N.eqb_spec (snd (Inline.delete_returning name t)) 0) as [E | E];
      [ | done ].
    cbn. pose proof (proj1 (rowCount_zero name t) E) as Hnone.
    apply set_eq. intros k.
    rewrite elem_of_difference, not_elem_of_singleton, !names_of_elem.
    split; [ | tauto ]. intros (r & Hr & <-). split; [ by exists r | ].
    by apply Hnone.
Qed.

Lemma client_view_invariant (ops : list Inline.op) (t : Inline.table)
    (known : gset string) :
  known = names_of t ->
  fst (foldl client_step (t, known) ops) = foldl Inline.step t ops
  /\ snd (foldl client_step (t, known) ops) = names_of (foldl Inline.step t ops).
Proof.
  revert t known. induction ops as [ | o ops IH ]; intros t known Hk; [ done | ].
  cbn [foldl].
  destruct (client_step_invariant t known o Hk) as [Ht Hs].
  destruct (client_step (t, known) o) as [t' known']. cbn [fst snd] in Ht, Hs.
  rewrite <- Ht. apply IH. by rewrite Ht.
Qed.

Lemma inline_list_count (req : request) (t : Inline.table) :
  count_of (Inline.list_handler req None t) =
    Some (JNum (N.of_nat (length (Inline.rows t)))).
Proof.
  unfold count_of. cbn.
  by rewrite length_fmap,
    (Permutation_length (proj2 (newer_first_sorted (Inline.rows t)))).
Qed.

(** X6.  The inline variant's listing is what the status codes say.  Start
    on a fresh database and keep, request by request, the names whose
    upload was answered with 200 and whose delete was not yet answered with
    200: GET /images/list names exactly those, and its count is their
    number. *)
Theorem listing_matches_status_codes (req : request) (ops : list Inline.op) :
  let t := Inline.run None ops in
  let known := snd (client_view ops) in
  fst (client_view ops) = t
  /\ (forall name, name ∈ known <-> lists (Inline.list_handler req None t) name)
  /\ count_of (Inline.list_handler req None t)
       = Some (JNum (N.of_nat (size known))).
Proof.
  intros t known. subst t known. unfold client_view, Inline.run.
  destruct (client_view_invariant ops (Inline.boot None) ∅) as [Ht Hk];
    [ reflexivity | ].
  split; [ done | ]. rewrite Hk. split.
  - intros name. rewrite inline_list_lists, names_of_elem. reflexivity.
  - rewrite inline_list_count. unfold names_of.
    rewrite size_list_to_set, length_fmap; [ done | ].
    apply (inline_run_ok None ops).
Qed.

Lemma listing_matches_status_codes_witness :
  let req := Request "https" "img.example" in
  let a := Part "a.svg" "image/svg+xml" (utf8_encode (code_points "<svg></svg>")) in
  let b := Part "b.png" "image/png" (utf8_encode (code_points "<svg></svg>")) in
  let ops := [Inline.Upload req 1 None (Some a); Inline.Upload req 2 None (Some b);
              Inline.Upload req 3 None (Some a); Inline.Delete None "c.svg"] in
  count_of (Inline.list_handler req None (Inline.run None ops)) = Some (JNum 1)
  /\ lists (Inline.list_handler req None (Inline.run None ops)) "a.svg".
Proof.
  intros req a b ops.
  destruct (listing_matches_status_codes req ops) as (_ & Hnames & Hcount).
  split.
  - rewrite Hcount. by vm_compute.
  - apply Hnames. by vm_compute.
Defined.

(** ** Every listed image can be fetched *)

Lemma on_conflict_update_Forall_named {R} (key : R -> string) (P : R -> Prop)
    (name : string) (update : R -> R) (fresh : R) (l : list R) :
  (forall r, key r = name -> P r -> P (update r)) -> P fresh ->
  Forall P l -> Forall P (on_conflict_update key name update fresh l).
Proof.
  intros Hup Hfresh Hl. unfold on_conflict_update.
  destruct (existsb _ l).
  - induction Hl as [ | x l Hx _ IH ]; cbn; [ done | ].
    constructor; [ | done ].
    destruct (named key name x) eqn:Hn; [ | done ].
    apply Hup; [ by apply named_true | done ].
  - apply Forall_app. split; [ done | ]. by constructor.
Qed.

Lemma inline_step_complete (t : Inline.table) (o : Inline.op) :
  Forall complete (Inline.rows t) -> Forall complete (Inline.rows (Inline.step t o)).
Proof.
  intros H. destruct o as [req now q upload | q name]; cbn [Inline.step].
  - destruct (N.eqb_spec
                (status (snd (Inline.post_upload req now q upload t))) 200)
      as [H200 | Hnot].
    + apply inline_upload_200 in H200
        as (p & -> & _ & _ & H1%includes_spec & H2%includes_spec & _ & ->).
      cbn [Inline.upsert Inline.rows].
      apply on_conflict_update_Forall_named; [ | | done ].
      * intros r Hr (_ & _ & _ & Hm & _). unfold complete. cbn.
        rewrite Hr. by eauto 10.
      * unfold complete. cbn. by eauto 10.
    + destruct (upload_changes_only_on_200_aux req now q upload t) as [_ Hsame].
      by rewrite Hsame.
  - destruct q as [msg | ]; [ done | ].
    rewrite inline_delete_answer. cbn. by apply delete_where_Forall.
Qed.

Lemma inline_run_complete (ops : list Inline.op) :
  Forall complete (Inline.rows (Inline.run None ops)).
Proof.
  unfold Inline.run.
  apply (foldl_invariant (fun t => Forall complete (Inline.rows t))).
  - apply inline_step_complete.
  - constructor.
Qed.

(** GET /images/<name> reaches the serve handler unless the name spells
    list. *)
Lemma inline_get_serve (req : request) (q : fault) (name : string)
    (t : Inline.table) :
  toLowerCase name <> "list" ->
  Inline.get_images req q name t = Inline.serve_handler q name t.
Proof.
  intros H. unfold Inline.get_images.
  by destruct (String.eqb_spec (toLowerCase name) "list").
Qed.

Lemma inline_get_list (req : request) (q : fault) (name : string)
    (t : Inline.table) :
  toLowerCase name = "list" ->
  Inline.get_images req q name t = Inline.list_handler req q t.
Proof. intros H. unfold Inline.get_images. by rewrite H. Qed.

(** X7.  In the inline variant, started on a fresh database, every image
    that GET /images/list names has its filename as originalName and,
    unless its name spells list in some case of the letters, can be
    fetched: GET /images/<name> answers 200 with a text that holds <svg and
    </svg>; the handler sets Content-Type image/svg+xml, which goes out as
    image/svg+xml; charset=utf-8.  An image whose name spells list is
    listed and cannot be fetched: GET /images/<name> is the listing. *)
Theorem every_listed_image_is_served (req : request) (ops : list Inline.op)
    (name : string) :
  let t := Inline.run None ops in
  lists (Inline.get_images req None "list" t) name ->
  (toLowerCase name <> "list" ->
   exists svg,
     Inline.get_images req None name t =
       Response 200
         [("Content-Type", "image/svg+xml");
          ("Cache-Control", "public, max-age=31536000")]
         (Send svg)
     /\ sent_content_type (Inline.get_images req None name t)
        = "image/svg+xml; charset=utf-8"
     /\ contains svg (code_points "<svg")
     /\ contains svg (code_points "</svg>"))
  /\ (toLowerCase name = "list" ->
      Inline.get_images req None name t = Inline.get_images req None "list" t)
  /\ field "originalName" (data_of (Inline.api_handler req None name t))
       = Some (JStr name).
Proof.
  intros t. rewrite (inline_get_list req None "list" t eq_refl).
  intros [r [Hr Hn]]%inline_list_lists.
  pose proof (inline_run_complete ops) as Hall. fold t in Hall.
  rewrite Forall_forall in Hall.
  destruct (Hall r Hr) as (Ho & _ & (svg & Hc & H1 & H2) & Hm & _).
  pose proof (proj1 (inline_run_ok None ops)) as Hu. fold t in Hu.
  split; [ | split ].
  - intros Hlist. exists svg. rewrite inline_get_serve by done.
    rewrite (serve_row name t r Hu Hr Hn), Hc, Hm.
    destruct svg as [ | c svg ]; [ | done ].
    apply includes_spec in H1. by vm_compute in H1.
  - intros Hlist. by apply inline_get_list.
  - unfold Inline.api_handler, Inline.select_named.
    rewrite (select_where_unique _ name _ r Hu Hr Hn), Ho, Hn. cbn.
    unfold or_string. by destruct (String.eqb_spec name "") as [-> | ].
Qed.

Lemma every_listed_image_is_served_witness :
  let req := Request "https" "img.example" in
  let a := Part "a.svg" "image/svg+xml" (utf8_encode (code_points "<svg></svg>")) in
  let t := Inline.run None [Inline.Upload req 1 None (Some a)] in
  lists (Inline.get_images req None "list" t) "a.svg"
  /\ status (Inline.get_images req None "a.svg" t) = 200
  /\ field "originalName" (data_of (Inline.api_handler req None "a.svg" t))
       = Some (JStr "a.svg").
Proof.
  intros req a t.
  assert (lists (Inline.get_images req None "list" t) "a.svg") as H.
  { apply inline_list_lists. eexists. split; [ left | reflexivity ]. }
  split; [ exact H | ].
  destruct (every_listed_image_is_served req
              [Inline.Upload req 1 None (Some a)] "a.svg" H)
    as (Hget & _ & Hname).
  split; [ | exact Hname ].
  destruct Hget as (svg & -> & _); [ by vm_compute | reflexivity ].
Defined.

(** ** Booting on the filesystem variant's table *)

(** X8.  When the inline variant boots on the table the filesystem variant
    left, [initDb] keeps every row: GET /images/list names each of them and
    counts them all.  Their content is NULL, so GET /images/<name>, for a
    name that does not spell list, answers 404 Image content not available.
    Please re-upload the image.; an upload of the name that is answered
    with 200 keeps the row's id and makes GET /images/<name> answer 200
    with the uploaded text. *)
Theorem legacy_rows_need_reupload (req : request)
    (legacy : list Filesystem.op) (old : Filesystem.row) :
  let t := Inline.boot (Some legacy) in
  let name := Filesystem.row_filename old in
  old ∈ Filesystem.rows (Filesystem.db (Filesystem.run legacy)) ->
  lists (Inline.get_images req None "list" t) name
  /\ count_of (Inline.get_images req None "list" t) =
       Some (JNum (N.of_nat
                     (length (Filesystem.rows
                                (Filesystem.db (Filesystem.run legacy))))))
  /\ (toLowerCase name <> "list" ->
      Inline.get_images req None name t =
        Response 404 []
          (Json (JObj [("success", JBool false);
                       ("message",
                        JStr "Image content not available. Please re-upload the image.")])))
  /\ (forall now q p,
        part_name p = name ->
        status (snd (Inline.post_upload req now q (Some p) t)) = 200 ->
        let t' := fst (Inline.post_upload req now q (Some p) t) in
        (toLowerCase name <> "list" ->
         Inline.get_images req None name t' =
           Response 200
             [("Content-Type", "image/svg+xml");
              ("Cache-Control", "public, max-age=31536000")]
             (Send (toString_utf8 (part_data p))))
        /\ Inline.id <$> Inline.select_named name t' = [Filesystem.id old]).
Proof.
  intros t name Hold. subst name.
  rewrite (inline_get_list req None "list" t eq_refl).
  assert (Inline.add_columns old ∈ Inline.rows t) as Hrow
    by (by apply list_elem_of_fmap_2).
  pose proof (inline_boot_ok (Some legacy)) as Hok. fold t in Hok.
  split; [ | split; [ | split ] ].
  - apply inline_list_lists. by exists (Inline.add_columns old).
  - rewrite inline_list_count. cbn. by rewrite length_fmap.
  - intros Hlist. rewrite inline_get_serve by done.
    by rewrite (serve_row (Filesystem.row_filename old) t
                  (Inline.add_columns old) (proj1 Hok) Hrow eq_refl).
  - intros now q p Hname H200 t'. subst t'. rewrite <- Hname.
    apply inline_upload_200 in H200 as (p' & [= <-] & _ & _ & H1 & _ & _ & ->).
    split.
    + intros Hlist. rewrite inline_get_serve by done.
      apply serve_after_upsert; [ done | ].
      by apply (includes_nonempty _ (code_points "<svg")).
    + destruct (inline_reupload now (part_name p) (part_name p)
                  (byteLength (part_data p)) (toString_utf8 (part_data p)) t
                  (Inline.add_columns old) (proj1 Hok) Hrow)
        as [Hsel _]; [ done | ].
      by rewrite Hsel.
Qed.

Lemma legacy_rows_need_reupload_witness :
  let req := Request "https" "img.example" in
  let a := Part "a.svg" "image/svg+xml" (utf8_encode (code_points "<svg></svg>")) in
  let legacy := [Filesystem.Upload req 1 None (Some a)] in
  status (Inline.get_images req None "a.svg" (Inline.boot (Some legacy))) = 404
  /\ status (Inline.get_images req None "a.svg"
               (fst (Inline.post_upload req 2 None (Some a)
                       (Inline.boot (Some legacy))))) = 200.
Proof.
  intros req a legacy.
  destruct (legacy_rows_need_reupload req legacy
              (Filesystem.Row 1 "a.svg" (Some "a.svg") (Some 11) (Some 1)))
    as (_ & _ & H404 & Hagain); [ left | ].
  split.
  - change (Filesystem.row_filename _) with "a.svg" in H404.
    by rewrite H404.
  - destruct (Hagain 2 None a eq_refl eq_refl) as [H200 _].
    change (Filesystem.row_filename _) with "a.svg" in H200.
    by rewrite H200.
Defined.

(** ** The filesystem variant's listing and files *)


Lemma fs_api_missing (req : request) (q : fault) (name : string)
    (s : Filesystem.state) :
  base_name name = true ->
  Filesystem.uploads s !! name = None ->
  Filesystem.api_handler req q name s = not_found.
Proof.
  intros Hb H. unfold Filesystem.api_handler. by rewrite existing_base, H.
Qed.






Lemma fs_list_entry_elem (req : request) (q : fault) (s : Filesystem.state)
    (f : string) :
  is_Some (Filesystem.uploads s !! f) ->
  endsWith (toLowerCase f) ".svg" = true ->
  Filesystem.list_entry req
    (Filesystem.fromEntries
       match q with
       | None => Filesystem.select_any
                   (Filesystem.svg_files (Filesystem.uploads s)) (Filesystem.db s)
       | Some _ => []
       end)
    (Filesystem.uploads s) f
  ∈ images_of (Filesystem.list_handler req q s).
Proof.
  intros Hf He. unfold images_of. cbn.
  apply list_elem_of_fmap_2. by apply svg_files_elem.
Qed.

Lemma not_list_svg (name : string) :
  endsWith (toLowerCase name) ".svg" = true -> toLowerCase name <> "list".
Proof. intros H E. by rewrite E in H. Qed.

(** GET /images/list reaches the list handler when [uploads/] holds no
    file named list. *)
Lemma fs_get_list (req : request) (q : fault) (s : Filesystem.state) :
  Filesystem.uploads s !! "list" = None ->
  Filesystem.get_images req q "list" s
  = Filesystem.Routed (Filesystem.list_handler req q s).
Proof.
  intros H. unfold Filesystem.get_images. cbn [Filesystem.dotfile].
  by rewrite H.
Qed.

(** X11.  In the filesystem variant an upload whose upsert fails is still
    listed.  For a new name ending in .svg, with no row of that name and no
    file named list under [uploads/], GET /images/list afterwards reaches
    the list handler and shows the image with originalName its filename,
    size the number of bytes of the file and uploadedAt the file's birth
    time, the time of the upload. *)
Theorem upload_without_row_is_listed_from_stat (req req' : request)
    (now : time) (msg : string) (q' : fault) (p : part) (s : Filesystem.state) :
  endsWith (toLowerCase (part_name p)) ".svg" = true ->
  byteLength (part_data p) <= fileSize ->
  Filesystem.uploads s !! part_name p = None ->
  Filesystem.uploads s !! "list" = None ->
  (forall r, r ∈ Filesystem.rows (Filesystem.db s) ->
     Filesystem.row_filename r <> part_name p) ->
  let out := Filesystem.post_upload req now (Some msg) (Some p) s in
  status (snd out) = 200
  /\ exists listing e,
       Filesystem.get_images req' q' "list" (fst out)
         = Filesystem.Routed listing
       /\ e ∈ images_of listing
       /\ shows e
            (Listed (part_name p) (part_name p) (url_of req' (part_name p))
               (JNum (byteLength (part_data p))) (JDate now)).
Proof.
  intros Hname Hfit Hnew Hlist Hnorow out. subst out.
  rewrite fs_accepted by (done || by right). cbn [fst snd].
  split; [ done | ].
  set (s' := Filesystem.State _ _ _ _).
  assert (Filesystem.uploads s' !! part_name p
          = Some (Filesystem.Stats (part_data p) now)) as Hfile.
  { subst s'. cbn. unfold Filesystem.diskStorage.
    by rewrite Hnew, lookup_insert_eq. }
  assert (Filesystem.uploads s' !! "list" = None) as Hlist'.
  { subst s'. cbn. unfold Filesystem.diskStorage.
    rewrite lookup_insert_ne; [ done | ].
    intros E. apply (not_list_svg _ Hname). by rewrite E. }
  eexists _, _. split; [ by apply fs_get_list | ]. split.
  - apply fs_list_entry_elem; [ by rewrite Hfile | done ].
  - pose proof (fs_list_entry_fallback req' _ _ _ _ Hfile
                  (fs_dbMap_absent q' s' (part_name p) (or_intror Hnorow)))
      as H.
    unfold Filesystem.stat_size in H. cbn [Filesystem.data] in H.
    by rewrite (fileSize_double _ Hfit) in H.
Qed.

Lemma upload_without_row_is_listed_from_stat_witness :
  let req := Request "https" "img.example" in
  let a := Part "a.svg" "image/svg+xml" (utf8_encode (code_points "<svg></svg>")) in
  let out := Filesystem.post_upload req 5 (Some "timeout") (Some a) Filesystem.boot in
  exists listing e,
    Filesystem.get_images req None "list" (fst out) = Filesystem.Routed listing
    /\ e ∈ images_of listing
    /\ field "size" e = Some (JNum 11)
    /\ field "uploadedAt" e = Some (JDate 5).
Proof.
  intros req a out.
  destruct (upload_without_row_is_listed_from_stat req req 5 "timeout" None a
              Filesystem.boot) as (_ & listing & e & Hget & He & Hshows).
  - reflexivity.
  - by vm_compute.
  - reflexivity.
  - reflexivity.
  - intros r Hr. by apply elem_of_nil in Hr.
  - exists listing, e. split; [ exact Hget | ]. split; [ exact He | ].
    destruct Hshows as (_ & _ & _ & _ & Hsize & Hdate). by split.
Defined.

Lemma fs_select_after_upsert (now : time) (name original : string) (sz : N)
    (t : Filesystem.table) :
  exists r,
    head (select_where Filesystem.row_filename name
            (Filesystem.rows (Filesystem.upsert now name original sz t)))
      = Some r
    /\ Filesystem.original_name r = Some original
    /\ Filesystem.row_size r = Some sz.
Proof.
  cbn [Filesystem.upsert Filesystem.rows].
  rewrite select_on_conflict_update by done.
  destruct (existsb _ (Filesystem.rows t)) eqn:He; [ | by eexists ].
  apply existsb_named in He as (r & Hr & Hn).
  assert (r ∈ select_where Filesystem.row_filename name (Filesystem.rows t))
    as Hsel by (by apply select_where_elem).
  destruct (select_where _ _ _) as [ | x rest ];
    [ by apply elem_of_nil in Hsel | ].
  by eexists.
Qed.

Lemma fs_api_kept (req : request) (q : fault) (name : string)
    (s : Filesystem.state) (st : Filesystem.stats) :
  Filesystem.uploads s !! name = Some st ->
  let meta :=
    match q with
    | None => head (select_where Filesystem.row_filename name
                      (Filesystem.rows (Filesystem.db s)))
    | Some _ => None
    end in
  Filesystem.api_handler req q name s =
    res_json
      (JObj [("success", JBool true);
             ("data",
              JObj [("filename", JStr name);
                    ("originalName",
                     JStr (or_string (meta ≫= Filesystem.original_name) name));
                    ("url", JStr (imageUrl req name));
                    ("directUrl", JStr (imageUrl req name));
                    ("size",
                     match meta ≫= Filesystem.row_size with
                     | Some n => JStr (pretty n)
                     | None => JNum (Filesystem.stat_size st)
                     end);
                    ("uploadedAt",
                     match meta ≫= Filesystem.uploaded_at with
                     | Some t => JDate t
                     | None => JDate (Filesystem.birthtime st)
                     end)])]).
Proof.
  intros H meta. unfold Filesystem.api_handler.
  by rewrite (existing_kept _ _ _ H).
Qed.

(** X12.  In the filesystem variant, after an upload that was taken and
    whose upsert succeeded, GET /api/images/:filename answers 200 with the
    uploaded name as filename and originalName.  The size it gives is the
    row's BIGINT as the driver returns it, a decimal string, where the
    upload's own answer gave the number; when the query of the fetch fails
    the size is the number again, taken from the file.  After a delete that
    found the file the fetch answers 404, the name being the base name
    multer stored the file under. *)
Theorem fs_fetch_metadata (req req' : request) (now : time) (msg : string)
    (q q' : fault) (p : part) (s : Filesystem.state) :
  is_svg p ->
  byteLength (part_data p) <= fileSize ->
  let out := Filesystem.post_upload req now None (Some p) s in
  let fetched := Filesystem.api_handler req' None (part_name p) (fst out) in
  let blind := Filesystem.api_handler req' (Some msg) (part_name p) (fst out) in
  let gone := fst (Filesystem.delete_handler q (part_name p) (fst out)) in
  status fetched = 200
  /\ field "filename" (data_of fetched) = Some (JStr (part_name p))
  /\ field "originalName" (data_of fetched) = Some (JStr (part_name p))
  /\ field "size" (data_of (snd out)) = Some (JNum (byteLength (part_data p)))
  /\ field "size" (data_of fetched)
       = Some (JStr (pretty (byteLength (part_data p))))
  /\ field "size" (data_of blind) = Some (JNum (byteLength (part_data p)))
  /\ Filesystem.uploads gone !! part_name p = None
  /\ (base_name (part_name p) = true ->
      status (Filesystem.api_handler req' q' (part_name p) gone) = 404).
Proof.
  intros Hsvg Hfit out fetched blind gone. subst fetched blind gone out.
  rewrite fs_accepted by done. cbn [fst snd].
  set (dir := Filesystem.diskStorage now p (Filesystem.uploads s)).
  assert (exists born, dir !! part_name p
                       = Some (Filesystem.Stats (part_data p) born))
    as [born Hfile] by (eexists; apply lookup_insert_eq).
  destruct (fs_select_after_upsert now (part_name p) (part_name p)
              (byteLength (part_data p)) (Filesystem.db s))
    as (r & Hsel & Ho & Hs).
  set (s' := Filesystem.State _ dir _ _).
  assert (Filesystem.uploads s' !! part_name p
          = Some (Filesystem.Stats (part_data p) born)) as Hfile' by done.
  assert (Filesystem.uploads
            (fst (Filesystem.delete_handler q (part_name p) s'))
            !! part_name p = None) as Hgone.
  { rewrite fs_delete_stored by (by rewrite Hfile').
    apply lookup_delete_eq. }
  rewrite !(fs_api_kept _ _ _ _ _ Hfile').
  unfold Filesystem.stat_size. cbn [Filesystem.data].
  rewrite (fileSize_double _ Hfit).
  assert (Filesystem.db s'
          = Filesystem.upsert now (part_name p) (part_name p)
              (byteLength (part_data p)) (Filesystem.db s)) as -> by done.
  rewrite Hsel. cbn [mbind option_bind]. rewrite Ho, Hs.
  split; [ done | ]. split; [ done | ].
  split; [ cbn; unfold or_string;
           by destruct (String.eqb_spec (part_name p) "") as [-> | ] | ].
  split; [ done | ]. split; [ done | ]. split; [ done | ].
  split; [ exact Hgone | ].
  intros Hb. by rewrite fs_api_missing.
Qed.

Lemma fs_fetch_metadata_witness :
  let req := Request "https" "img.example" in
  let a := Part "a.svg" "image/svg+xml" (utf8_encode (code_points "<svg></svg>")) in
  let out := Filesystem.post_upload req 1 None (Some a) Filesystem.boot in
  field "size" (data_of (snd out)) = Some (JNum 11)
  /\ field "size" (data_of (Filesystem.api_handler req None "a.svg" (fst out)))
       = Some (JStr "11").
Proof.
  intros req a out.
  destruct (fs_fetch_metadata req req 1 "timeout" None None a Filesystem.boot)
    as (_ & _ & _ & Hup & Hfetch & _); [ by left | by vm_compute | ].
  split; [ exact Hup | exact Hfetch ].
Defined.

(** ** The files under /images in the filesystem variant *)

(** X13.  In the filesystem variant GET /images/:filename is answered by
    the static file middleware, which stands before the routes: after an
    upload that was taken, under a name that does not begin with a dot, it
    sends the uploaded bytes as they are, whatever they are and whether or
    not the database took the metadata.  That holds for the name list too,
    where the file then answers in place of the listing; with no such file
    GET /images/list is the listing. *)
Theorem fs_upload_then_get (req req' : request) (now : time) (q q' : fault)
    (p : part) (s : Filesystem.state) :
  is_svg p ->
  byteLength (part_data p) <= fileSize ->
  Filesystem.dotfile (part_name p) = false ->
  let out := Filesystem.post_upload req now q (Some p) s in
  Filesystem.get_images req' q' (part_name p) (fst out)
    = Filesystem.Static (part_data p)
  /\ (Filesystem.uploads s !! "list" = None ->
      Filesystem.get_images req' q' "list" s
        = Filesystem.Routed (Filesystem.list_handler req' q' s)).
Proof.
  intros Hsvg Hfit Hdot out. subst out. rewrite fs_accepted by done.
  cbn [fst]. unfold Filesystem.get_images. split.
  - rewrite Hdot. cbn [Filesystem.uploads]. unfold Filesystem.diskStorage.
    by rewrite lookup_insert_eq.
  - intros Hnone. cbn [Filesystem.dotfile]. by rewrite Hnone.
Qed.

Lemma fs_upload_then_get_witness :
  let req := Request "https" "img.example" in
  let p := Part "list" "image/svg+xml" [60; 0xE9; 62] in
  Filesystem.get_images req None "list" Filesystem.boot
    = Filesystem.Routed (Filesystem.list_handler req None Filesystem.boot)
  /\ Filesystem.get_images req None "list"
       (fst (Filesystem.post_upload req 1 None (Some p) Filesystem.boot))
     = Filesystem.Static [60; 0xE9; 62].
Proof.
  intros req p.
  destruct (fs_upload_then_get req req 1 None None p Filesystem.boot)
    as [Hget Hlist]; [ by left | by vm_compute | done | ].
  split; [ by apply Hlist | exact Hget ].
Defined.

(** ** Files and rows in the filesystem variant *)

Lemma fs_upsert_keys_subset (now : time) (name original : string) (sz : N)
    (t : Filesystem.table) (f : string) :
  f = name \/ f ∈ Filesystem.row_filename <$> Filesystem.rows t ->
  f ∈ Filesystem.row_filename <$>
        Filesystem.rows (Filesystem.upsert now name original sz t).
Proof.
  cbn [Filesystem.upsert Filesystem.rows].
  rewrite on_conflict_update_keys by done.
  destruct (existsb _ (Filesystem.rows t)) eqn:He.
  - intros [-> | H]; [ | done ].
    apply existsb_named in He as (r & Hr & <-). by apply list_elem_of_fmap_2.
  - rewrite elem_of_app, list_elem_of_singleton. tauto.
Qed.

Lemma fs_step_files_have_rows (s : Filesystem.state) (o : Filesystem.op) :
  fs_answered o ->
  (forall f, is_Some (Filesystem.uploads s !! f) ->
     f ∈ Filesystem.row_filename <$> Filesystem.rows (Filesystem.db s)) ->
  forall f, is_Some (Filesystem.uploads (Filesystem.step s o) !! f) ->
    f ∈ Filesystem.row_filename <$>
          Filesystem.rows (Filesystem.db (Filesystem.step s o)).
Proof.
  intros Ho Hs f. destruct o as [req now q upload | q name];
    cbn in Ho; subst q; cbn [Filesystem.step].
  - unfold Filesystem.post_upload.
    destruct (multer_filter upload) as [e | | p | p] eqn:Hm; cbn.
    + apply Hs.
    + apply Hs.
    + rewrite lookup_delete. case_decide; [ by intros [? ?] | apply Hs ].
    + unfold Filesystem.diskStorage. rewrite lookup_insert.
      intros Hf. apply fs_upsert_keys_subset.
      case_decide; [ by left | right; by apply Hs ].
  - destruct (fs_delete_cases None name s)
      as [[_ ->] | [(base & st & _ & _ & Hsame & ->) | (path & e & _ & Hn & ->)]].
    + apply Hs.
    + cbn. rewrite lookup_delete. case_decide as Hne; [ by intros [? ?] | ].
      intros Hf. pose proof Hf as (r & -> & Hr)%Hs%list_elem_of_fmap.
      apply list_elem_of_fmap_2, delete_where_elem. split; [ done | ].
      intros E. apply Hne. rewrite E. apply Hsame. by rewrite <- E.
    + destruct (Filesystem.unlink_error e); [ apply Hs | ]. cbn.
      intros Hf. pose proof Hf as (r & -> & Hr)%Hs%list_elem_of_fmap.
      apply list_elem_of_fmap_2, delete_where_elem. split; [ done | ].
      intros E. rewrite E, Hn in Hf. by destruct Hf.
Qed.

(** X16.  In the filesystem variant, started fresh, as long as no query of
    an upload or a delete fails every file under uploads/ has its row in
    the table: the listing and the fetch then never have to fall back on
    the file's own size and time. *)
Theorem files_have_rows (ops : list Filesystem.op) (f : string) :
  Forall fs_answered ops ->
  let s := Filesystem.run ops in
  is_Some (Filesystem.uploads s !! f) ->
  exists r, r ∈ Filesystem.rows (Filesystem.db s) /\ Filesystem.row_filename r = f.
Proof.
  intros Hops s Hf. subst s.
  assert (forall f, is_Some (Filesystem.uploads (Filesystem.run ops) !! f) ->
            f ∈ Filesystem.row_filename <$>
                  Filesystem.rows (Filesystem.db (Filesystem.run ops))) as H.
  { unfold Filesystem.run.
    refine (foldl_invariant_in
              (fun s => forall f, is_Some (Filesystem.uploads s !! f) ->
                 f ∈ Filesystem.row_filename <$>
                       Filesystem.rows (Filesystem.db s))
              _ _ _ _ _ Hops _).
    - intros s o Ho Hs. by apply fs_step_files_have_rows.
    - intros g [st Hst]. cbn in Hst. by rewrite lookup_empty in Hst. }
  apply H, list_elem_of_fmap in Hf as (r & -> & Hr). by exists r.
Qed.

Lemma files_have_rows_witness :
  let req := Request "https" "img.example" in
  let a := Part "a.svg" "image/svg+xml" (utf8_encode (code_points "<svg></svg>")) in
  let s := Filesystem.run [Filesystem.Upload req 1 None (Some a);
                           Filesystem.Delete None "b.svg"] in
  exists r, r ∈ Filesystem.rows (Filesystem.db s)
            /\ Filesystem.row_filename r = "a.svg".
Proof.
  intros req a s.
  apply (files_have_rows [Filesystem.Upload req 1 None (Some a);
                          Filesystem.Delete None "b.svg"] "a.svg").
  - by repeat constructor.
  - by vm_compute; eexists.
Defined.

(** ** Names the file filter takes *)

Lemma toLowerCase_append (a b : string) :
  toLowerCase (a +:+ b) = toLowerCase a +:+ toLowerCase b.
Proof.
  induction a as [ | c a IH ]; [ done | ].
  rewrite !append_cons. cbn. by rewrite IH, append_cons.
Qed.

Lemma toLowerCase_split (s x y : string) :
  toLowerCase s = x +:+ y ->
  exists a b, s = a +:+ b /\ toLowerCase a = x /\ toLowerCase b = y.
Proof.
  revert s. induction x as [ | c x IH ]; intros s H.
  - by exists "", s.
  - rewrite append_cons in H.
    destruct s as [ | d s ]; [ done | ]. cbn in H. injection H as Hc Hs.
    destruct (IH s Hs) as (a & b & -> & Ha & Hb).
    exists (String d a), b. cbn. by rewrite Hc, Ha.
Qed.

Lemma lower_ascii_cases (c : ascii) :
  (lower_ascii c = "." <-> c = ".")%char
  /\ (lower_ascii c = "s" <-> c = "s" \/ c = "S")%char
  /\ (lower_ascii c = "v" <-> c = "v" \/ c = "V")%char
  /\ (lower_ascii c = "g" <-> c = "g" \/ c = "G")%char.
Proof.
  destruct c as [[] [] [] [] [] [] [] []]; vm_compute;
    repeat split; intros; try discriminate; auto;
    match goal with H : _ \/ _ |- _ => destruct H; discriminate end.
Qed.

Lemma endsWith_svg_spec (name : string) :
  endsWith (toLowerCase name) ".svg" = true <-> svg_suffix name.
Proof.
  rewrite endsWith_spec. unfold svg_suffix. split.
  - intros [stem H]. apply toLowerCase_split in H as (a & b & -> & _ & Hb).
    destruct b as [ | c0 [ | c1 [ | c2 [ | c3 [ | ? ? ] ] ] ] ]; try done.
    cbn in Hb. injection Hb as H0 H1 H2 H3.
    apply (proj1 (lower_ascii_cases c0)) in H0 as ->.
    apply (proj1 (proj2 (lower_ascii_cases c1))) in H1.
    apply (proj1 (proj2 (proj2 (lower_ascii_cases c2)))) in H2.
    apply (proj2 (proj2 (proj2 (lower_ascii_cases c3)))) in H3.
    by exists a, c1, c2, c3.
  - intros (stem & a & b & c & -> & Ha & Hb & Hc). exists (toLowerCase stem).
    rewrite toLowerCase_append. cbn. f_equal.
    apply (proj1 (proj2 (lower_ascii_cases a))) in Ha.
    apply (proj1 (proj2 (proj2 (lower_ascii_cases b)))) in Hb.
    apply (proj2 (proj2 (proj2 (lower_ascii_cases c)))) in Hc.
    by rewrite Ha, Hb, Hc.
Qed.

(** X1.  The file filter takes a file exactly when its MIME type is
    image/svg+xml or its name ends in a dot followed by s, v and g in
    either case; every other file it turns down with the error Only SVG
    files are allowed!, and it never skips a file silently. *)
Theorem fileFilter_takes (p : part) :
  (fileFilter p = inr true <->
   part_mimetype p = "image/svg+xml" \/ svg_suffix (part_name p))
  /\ (fileFilter p = inr true
      \/ fileFilter p = inl (Error "Only SVG files are allowed!")).
Proof.
  rewrite <- endsWith_svg_spec. fold (is_svg p). split.
  - split; [ | apply fileFilter_accepts ].
    intros H. destruct (is_svg_dec p) as [ | Hno ]; [ done | ].
    by rewrite (fileFilter_rejects p Hno) in H.
  - destruct (is_svg_dec p) as [Hyes | Hno].
    + left. by apply fileFilter_accepts.
    + right. by apply fileFilter_rejects.
Qed.

(** ** Bodies with several files *)

Lemma multer_single_stored (files : list (string * part)) (p : part) :
  multer_single files = Unexpected (Some p) -> fileFilter p = inr true.
Proof.
  unfold multer_single.
  destruct (List.filter has_filename files) as [ | [fieldname p'] more ];
    [ done | ].
  destruct (negb _); [ done | ].
  unfold multer_filter.
  destruct (fileFilter p') as [e | [ | ]] eqn:Hf; cbv beta iota;
    [ done | | by destruct more ].
  destruct (fileSize <? byteLength (part_data p')); [ done | ].
  destruct more; [ done | ]. by intros [= <-].
Qed.

(** A body with one file in the field [image] is what [post_upload] is
    about. *)
Lemma post_form_single (req : request) (now : time) (q : fault) (p : part) :
  part_name p <> "" ->
  (forall t, Inline.post_form req now q [("image", p)] t
             = Inline.post_upload req now q (Some p) t)
  /\ (forall s, Filesystem.post_form req now q [("image", p)] s
                = Filesystem.post_upload req now q (Some p) s).
Proof.
  intros Hname.
  assert (multer_single [("image", p)] = Single (Some p)) as H.
  { unfold multer_single. cbn [List.filter]. unfold has_filename.
    cbn [snd]. apply String.eqb_neq in Hname. rewrite Hname.
    cbn [negb]. change (String.eqb "image" "image") with true. cbn [negb].
    by destruct (multer_filter (Some p)). }
  split; intros st; unfold Inline.post_form, Filesystem.post_form;
    by rewrite H.
Qed.

(** What a body with several files leaves behind, a body with one file
    leaves behind as well: the states [run] reaches are all there are. *)
Lemma post_form_reach (req : request) (now : time) (q : fault)
    (files : list (string * part)) :
  (forall t, exists upload,
     fst (Inline.post_form req now q files t)
     = fst (Inline.post_upload req now q upload t))
  /\ (forall s, exists upload,
        fst (Filesystem.post_form req now q files s)
        = fst (Filesystem.post_upload req now q upload s)).
Proof.
  split.
  - intros t. unfold Inline.post_form.
    destruct (multer_single files) as [upload | stored]; [ by exists upload | ].
    by exists None.
  - intros s. unfold Filesystem.post_form.
    destruct (multer_single files) as [upload | [p | ]] eqn:Hm;
      [ by exists upload | | ].
    + apply multer_single_stored in Hm.
      exists (Some (Part (part_name p) (part_mimetype p)
                      (repeat 0 (N.to_nat (fileSize + 1))))).
      unfold Filesystem.post_upload, multer_filter.
      change (fileFilter (Part (part_name p) (part_mimetype p) _))
        with (fileFilter p).
      rewrite Hm. cbn [part_data]. rewrite byteLength_repeat.
      by rewrite (proj2 (N.ltb_lt fileSize (fileSize + 1))) by lia.
    + exists None. by destruct s.
Qed.





(** ** The text that is stored *)

Lemma utf8_lead_ok (b : byte) (d : decoder) :
  utf8_lead b = Some (inr d) -> decoder_ok d.
Proof.
  unfold utf8_lead.
  destruct (N.leb_spec b 0x7F); [ done | ].
  destruct (N.leb_spec 0xC2 b), (N.leb_spec b 0xDF); cbn [andb].
  1: { intros [= <-]. exists 0%nat. split; [ done | ].
       cbn. intros x Hx. unfold scalar_value. lia. }
  all: destruct (N.leb_spec 0xE0 b), (N.leb_spec b 0xEF); cbn [andb].
  all: try (intros [= <-]; exists 1%nat; split; [ done | ];
            cbn; intros x Hx y Hy; unfold scalar_value;
            destruct (N.eqb_spec b 0xE0), (N.eqb_spec b 0xED); lia).
  all: destruct (N.leb_spec 0xF0 b), (N.leb_spec b 0xF4); cbn [andb]; try done.
  all: intros [= <-]; exists 2%nat; split; [ done | ];
    cbn; intros x Hx y Hy z Hz; unfold scalar_value;
    destruct (N.eqb_spec b 0xF0), (N.eqb_spec b 0xF4); lia.
Qed.

Lemma replacement_scalar : scalar_value replacement.
Proof. unfold scalar_value, replacement. lia. Qed.

Lemma utf8_decode_scalar (bs : buffer) (pending : option decoder) :
  from_option decoder_ok True pending ->
  Forall scalar_value (utf8_decode pending bs).
Proof.
  revert pending. induction bs as [ | b bs IH ]; intros pending Hp.
  - destruct pending; repeat constructor. apply replacement_scalar.
  - assert (Forall scalar_value
              match utf8_lead b with
              | Some (inl c) => c :: utf8_decode None bs
              | Some (inr d) => utf8_decode (Some d) bs
              | None => replacement :: utf8_decode None bs
              end) as Hfirst.
    { destruct (utf8_lead b) as [[c | d] | ] eqn:Hlead.
      - constructor; [ | by apply IH ].
        unfold utf8_lead in Hlead.
        destruct (N.leb_spec b 0x7F); [ | by repeat destruct (_ && _) ].
        injection Hlead as <-. unfold scalar_value. lia.
      - apply IH. cbn. by apply (utf8_lead_ok b).
      - constructor; [ apply replacement_scalar | by apply IH ]. }
    destruct pending as [d | ]; [ | exact Hfirst ].
    cbn [utf8_decode]. cbn in Hp. destruct Hp as (k & Hk & Hgood).
    destruct (N.leb_spec (lower d) b), (N.leb_spec b (upper d)); cbn [andb];
      try (constructor; [ apply replacement_scalar | exact Hfirst ]).
    cbn [ends_in_scalar] in Hgood. specialize (Hgood b ltac:(lia)).
    destruct k as [ | k ].
    + rewrite Hk. cbn [N.of_nat Pos.of_succ_nat N.eqb Pos.eqb].
      constructor; [ exact Hgood | by apply IH ].
    + assert ((bytes_needed d =? 1) = false) as -> by (apply N.eqb_neq; lia).
      apply IH. cbn. exists k. split; [ cbn; lia | exact Hgood ].
Qed.

(** X17.  Whatever bytes are uploaded, the text the inline variant takes
    from them consists of Unicode scalar values only; written out as UTF-8
    and decoded again it is the same text.  So after an upload answered
    with 200 the bytes GET /images/:filename serves decode to the stored
    text, and uploading them again stores the same text. *)
Theorem stored_text_is_stable (legacy : option (list Filesystem.op))
    (ops : list Inline.op) (req : request) (now : time) (q : fault) (p : part) :
  let stored := toString_utf8 (part_data p) in
  Forall scalar_value stored
  /\ toString_utf8 (utf8_encode stored) = stored
  /\ (status (snd (Inline.post_upload req now q (Some p) (Inline.run legacy ops)))
        = 200 ->
      let t' := fst (Inline.post_upload req now q (Some p) (Inline.run legacy ops)) in
      payload (Inline.serve_handler None (part_name p) t') = Send stored
      /\ toString_utf8 <$> wire (Inline.serve_handler None (part_name p) t')
           = Some stored).
Proof.
  intros stored.
  assert (Forall scalar_value stored) as Hscalar
    by (by apply utf8_decode_scalar).
  split; [ done | ]. split; [ by apply utf8_decode_encode | ].
  intros H200 t'. subst t'.
  apply inline_upload_200 in H200 as (p' & [= <-] & _ & _ & H1 & _ & _ & ->).
  rewrite serve_after_upsert.
  - cbn. split; [ done | ]. f_equal. by apply utf8_decode_encode.
  - apply inline_run_ok.
  - by apply (includes_nonempty _ (code_points "<svg")).
Qed.

Lemma stored_text_is_stable_witness :
  let req := Request "https" "img.example" in
  let p := Part "a.svg" "image/svg+xml"
             (utf8_encode (code_points "<svg>") ++ [0xE9; 0xFF]
              ++ utf8_encode (code_points "</svg>")) in
  let t' := fst (Inline.post_upload req 1 None (Some p) (Inline.run None [])) in
  wire (Inline.serve_handler None "a.svg" t') <> Some (part_data p)
  /\ toString_utf8 <$> wire (Inline.serve_handler None "a.svg" t')
       = Some (toString_utf8 (part_data p)).
Proof.
  intros req p t'. split; [ by vm_compute | ].
  destruct (stored_text_is_stable None [] req 1 None p) as (_ & _ & H).
  apply (H eq_refl).
Defined.

(** ** The debug listing *)

(** X15.  GET /debug/images tells which images can be fetched: in every
    state the inline variant can be in, whatever order the database gives
    the rows in, GET /images/<name> for a name that does not spell list
    answers 200 exactly when the debug listing has that name with a
    content_length above zero. *)
Theorem debug_tells_what_is_served (legacy : option (list Filesystem.op))
    (ops : list Inline.op) (req : request) (result_rows : list Inline.row)
    (name : string) :
  let t := Inline.run legacy ops in
  result_rows ≡ₚ Inline.rows t ->
  toLowerCase name <> "list" ->
  status (Inline.get_images req None name t) = 200 <->
  exists e n,
    e ∈ images_of (Inline.debug_response result_rows)
    /\ field "filename" e = Some (JStr name)
    /\ field "content_length" e = Some (JNum n)
    /\ 0 < n.
Proof.
  intros t Hperm Hlist.
  pose proof (proj1 (inline_run_ok legacy ops)) as Hu. fold t in Hu.
  rewrite inline_get_serve by done.
  change (images_of (Inline.debug_response result_rows))
    with (Inline.debug_row <$> result_rows).
  split.
  - intros H200.
    destruct (existsb (named Inline.row_filename name) (Inline.rows t)) eqn:He.
    + apply existsb_named in He as (r & Hr & Hn).
      rewrite (serve_row name t r Hu Hr Hn) in H200.
      destruct (Inline.content r) as [[ | c svg] | ] eqn:Hc; try done.
      exists (Inline.debug_row r), (N.of_nat (length (c :: svg))).
      split; [ apply list_elem_of_fmap_2; by rewrite Hperm | ].
      unfold Inline.debug_row. rewrite Hc, Hn. cbn [field]. cbn.
      repeat split; lia.
    + rewrite serve_missing in H200; [ done | ].
      by apply existsb_named_false.
  - intros (e & n & (r & -> & Hr)%list_elem_of_fmap & Hname & Hlen & Hpos).
    rewrite Hperm in Hr. cbn in Hname. injection Hname as Hn.
    rewrite (serve_row name t r Hu Hr Hn).
    unfold Inline.debug_row in Hlen. cbn in Hlen.
    destruct (Inline.content r) as [[ | c svg] | ]; try done.
    injection Hlen as <-. cbn in Hpos. lia.
Qed.

Lemma debug_tells_what_is_served_witness :
  let req := Request "https" "img.example" in
  let a := Part "a.svg" "image/svg+xml" (utf8_encode (code_points "<svg></svg>")) in
  let t := Inline.run (Some [Filesystem.Upload req 1 None (Some a)]) [] in
  status (Inline.get_images req None "a.svg" t) <> 200
  /\ field "content_length" <$> images_of (Inline.debug_handler None t)
       = [Some JNull].
Proof.
  intros req a t. split; [ | reflexivity ].
  intros H200.
  apply (debug_tells_what_is_served
           (Some [Filesystem.Upload req 1 None (Some a)]) [] req
           (Inline.rows t) "a.svg" (Permutation_refl _)) in H200
    as (e & n & He & _ & Hlen & _); [ | by vm_compute ].
  change (images_of (Inline.debug_response (Inline.rows t)))
    with [Inline.debug_row
            (Inline.Row 1 "a.svg" (Some "a.svg") (Some 11) None
               (Some "image/svg+xml") (Some 1))] in He.
  apply list_elem_of_singleton in He. subst e. discriminate Hlen.
Defined.
